(** * postgres-mcp: the statement-construction and execution engine

    A shallow embedding of [src/postgres_mcp/database_operations]:
    [data_types.py], [crud_operations.py], [simple_crud.py],
    [schema_operations.py], [simple_schema.py] and [vector_operations.py].

    Python values are embedded as follows.
    - [str] is [string]; [str.upper] and [str.lower] act on the ASCII letters.
    - [int] is [Z]; a [float] is identified by its [repr] text, which is all
      the code ever takes from one apart from handing it to the driver.
    - [dict] is an association list in insertion order.
    - An exception is identified by [str(e)]: every handler of the package
      is [except Exception as e] and reads nothing but [str(e)].
    - [time.time()] and [json.dumps] belong to the interpreter and
      [SqlDriver.execute_query] to [postgres_mcp.sql]; the three are the
      fields of [Runtime], the [self] every operation receives. *)

From Stdlib Require Import String Ascii List ZArith QArith Bool Arith Lia.
From Stdlib Require Import DecimalString.
Import ListNotations.
Open Scope list_scope.
Open Scope string_scope.

(** ** The Python fragment the package relies on *)

(** The character [chr(34)]. *)
Definition dquote : string := String (ascii_of_nat 34) EmptyString.

(** The character [chr(39)]. *)
Definition squote : string := String (ascii_of_nat 39) EmptyString.

Definition newline : string := String (ascii_of_nat 10) EmptyString.

Definition upper_ascii (c : ascii) : ascii :=
  let n := nat_of_ascii c in
  if andb (97 <=? n)%nat (n <=? 122)%nat then ascii_of_nat (n - 32) else c.

Definition lower_ascii (c : ascii) : ascii :=
  let n := nat_of_ascii c in
  if andb (65 <=? n)%nat (n <=? 90)%nat then ascii_of_nat (n + 32) else c.

Fixpoint map_string (f : ascii -> ascii) (s : string) : string :=
  match s with
  | EmptyString => EmptyString
  | String c rest => String (f c) (map_string f rest)
  end.

(** [s.upper()] *)
Definition upper (s : string) : string := map_string upper_ascii s.

(** [s.lower()] *)
Definition lower (s : string) : string := map_string lower_ascii s.

(** [sep.join(parts)] *)
Definition join (sep : string) (parts : list string) : string :=
  String.concat sep parts.

(** [x in [a, b, ...]] on strings *)
Definition str_in (x : string) (l : list string) : bool :=
  existsb (String.eqb x) l.

(** [str(n)] for an [int] *)
Definition str_int (z : Z) : string := NilZero.string_of_int (Z.to_int z).

(** [str(len(l))] *)
Definition str_len {A} (l : list A) : string := str_int (Z.of_nat (length l)).

(** [[x] * n] *)
Definition replicate {A} (n : nat) (x : A) : list A := repeat x n.

(** [bool(s)] for a [str] *)
Definition truthy_str (s : string) : bool :=
  match s with EmptyString => false | _ => true end.

(** [bool(l)] for a [list] *)
Definition truthy_list {A} (l : list A) : bool :=
  match l with [] => false | _ => true end.

(** [bool(o)] for an [Optional[str]] *)
Definition truthy_opt_str (o : option string) : bool :=
  match o with Some s => truthy_str s | None => false end.

(** [bool(o)] for an [Optional[int]] *)
Definition truthy_opt_int (o : option Z) : bool :=
  match o with Some z => negb (Z.eqb z 0) | None => false end.

(** [bool(o)] for an [Optional[List[...]]] *)
Definition truthy_opt_list {A} (o : option (list A)) : bool :=
  match o with Some l => truthy_list l | None => false end.

(** The scalar values. *)
Inductive Scalar : Type :=
| SBool (b : bool)
| SInt (z : Z)
| SFloat (repr : string)
| SStr (s : string).

(** The values that travel in records, options and parameter lists;
    [VNone] is [None]. *)
#[warnings="-register-all"]
Inductive PyValue : Type :=
| VNone
| VScalar (s : Scalar)
| VList (l : list PyValue)
| VTuple (l : list PyValue)
| VDict (d : list (string * PyValue)).

Definition VInt (z : Z) : PyValue := VScalar (SInt z).
Definition VStr (s : string) : PyValue := VScalar (SStr s).
Definition VBool (b : bool) : PyValue := VScalar (SBool b).
Definition VFloat (repr : string) : PyValue := VScalar (SFloat repr).

Fixpoint contains_char (c : ascii) (s : string) : bool :=
  match s with
  | EmptyString => false
  | String c' rest => orb (Ascii.eqb c c') (contains_char c rest)
  end.

Definition backslash : ascii := ascii_of_nat 92.

Definition hex_digit (n : nat) : string :=
  String (nth n (list_ascii_of_string "0123456789abcdef") "0"%char) EmptyString.

(** One character of [repr(s)] between quotes of kind [quote]. *)
Definition repr_char (quote c : ascii) : string :=
  let n := nat_of_ascii c in
  if orb (Ascii.eqb c quote) (Ascii.eqb c backslash)
  then String backslash (String c EmptyString)
  else if (n =? 9)%nat then String backslash "t"
  else if (n =? 10)%nat then String backslash "n"
  else if (n =? 13)%nat then String backslash "r"
  else if orb (n <? 32)%nat (n =? 127)%nat
  then String backslash "x" ++ hex_digit (n / 16) ++ hex_digit (n mod 16)
  else String c EmptyString.

Fixpoint repr_chars (quote : ascii) (s : string) : string :=
  match s with
  | EmptyString => EmptyString
  | String c rest => repr_char quote c ++ repr_chars quote rest
  end.

(** [repr(s)] for a [str] of ASCII characters: single quotes, unless the
    text holds a single quote and no double quote. *)
Definition repr_str (s : string) : string :=
  let quote :=
    if andb (contains_char (ascii_of_nat 39) s)
            (negb (contains_char (ascii_of_nat 34) s))
    then ascii_of_nat 34 else ascii_of_nat 39 in
  String quote (repr_chars quote s) ++ String quote EmptyString.

Definition repr_scalar (v : Scalar) : string :=
  match v with
  | SBool true => "True"
  | SBool false => "False"
  | SInt z => str_int z
  | SFloat repr => repr
  | SStr s => repr_str s
  end.

(** [repr(v)] *)
Fixpoint repr_value (v : PyValue) : string :=
  match v with
  | VNone => "None"
  | VScalar s => repr_scalar s
  | VList l => "[" ++ join ", " (map repr_value l) ++ "]"
  | VTuple l =>
      match l with
      | [x] => "(" ++ repr_value x ++ ",)"
      | _ => "(" ++ join ", " (map repr_value l) ++ ")"
      end
  | VDict d =>
      "{" ++ join ", " (map (fun kv => repr_str (fst kv) ++ ": "
                                        ++ repr_value (snd kv)) d) ++ "}"
  end.

(** [str(v)], which is also what an f-string field renders. *)
Definition py_str (v : PyValue) : string :=
  match v with
  | VScalar (SStr s) => s
  | _ => repr_value v
  end.

(** [isinstance(v, str)] *)
Definition is_str (v : PyValue) : bool :=
  match v with VScalar (SStr _) => true | _ => false end.

(** [v is not None] *)
Definition is_not_None (v : PyValue) : bool :=
  match v with VNone => false | _ => true end.

(** An [Optional[int]] as a parameter value. *)
Definition py_opt_int (o : option Z) : PyValue :=
  match o with Some z => VInt z | None => VNone end.

(** A [dict] with [str] keys. *)
Definition Dict (V : Type) : Type := list (string * V).

(** [d.get(k)] as an [option]. *)
Fixpoint dict_find {V} (d : Dict V) (k : string) : option V :=
  match d with
  | [] => None
  | (k', v) :: rest => if String.eqb k k' then Some v else dict_find rest k
  end.

(** [list(d.keys())] *)
Definition keys {V} (d : Dict V) : list string := map fst d.

(** [d.update(e)]: keys already present keep their position and take the
    new value, new keys are appended. *)
Fixpoint dict_set {V} (d : Dict V) (k : string) (v : V) : Dict V :=
  match d with
  | [] => [(k, v)]
  | (k', v') :: rest =>
      if String.eqb k k' then (k', v) :: rest else (k', v') :: dict_set rest k v
  end.

Definition dict_update {V} (d e : Dict V) : Dict V :=
  fold_left (fun acc kv => dict_set acc (fst kv) (snd kv)) e d.

(** [row.get(col)] on a record: a missing key gives [None]. *)
Definition row_get (row : Dict PyValue) (col : string) : PyValue :=
  match dict_find row col with Some v => v | None => VNone end.

(** ** Exceptions *)

(** A computation that returns or raises; [inl msg] carries [str(e)]. *)
Definition Exc (A : Type) : Type := (string + A)%type.

Definition eret {A} (a : A) : Exc A := inr a.
Definition eraise {A} (msg : string) : Exc A := inl msg.
Definition ebind {A B} (c : Exc A) (k : A -> Exc B) : Exc B :=
  match c with inl e => inl e | inr a => k a end.

Declare Scope exc_scope.
Delimit Scope exc_scope with exc.
Notation "x <- c1 ;; c2" := (ebind c1 (fun x => c2))
  (at level 61, c1 at next level, right associativity) : exc_scope.
Notation "' pat <- c1 ;; c2" :=
  (ebind c1 (fun x => match x with pat => c2 end))
  (at level 61, pat pattern, c1 at next level, right associativity) : exc_scope.

(** A [for] loop whose body may raise, threading an accumulator. *)
Fixpoint efold {A B} (f : B -> A -> Exc B) (l : list A) (acc : B) : Exc B :=
  match l with
  | [] => eret acc
  | x :: rest => ebind (f acc x) (efold f rest)
  end.

(** [enumerate(l)] *)
Definition enumerate {A} (l : list A) : list (nat * A) :=
  combine (seq 0 (length l)) l.

(** ** data_types.py *)

Inductive OperationType : Type :=
| SELECT | INSERT | UPDATE | DELETE | CREATE | DROP | ALTER.

Inductive DataType : Type :=
| INTEGER | BIGINT | SERIAL | BIGSERIAL | TEXT | VARCHAR | CHAR | BOOLEAN
| TIMESTAMP | TIMESTAMPTZ | DATE | TIME | JSON | JSONB | UUID | VECTOR
| DECIMAL | NUMERIC | REAL | DOUBLE_PRECISION.

(** [data_type.value] *)
Definition DataType_value (t : DataType) : string :=
  match t with
  | INTEGER => "integer" | BIGINT => "bigint" | SERIAL => "serial"
  | BIGSERIAL => "bigserial" | TEXT => "text" | VARCHAR => "varchar"
  | CHAR => "char" | BOOLEAN => "boolean" | TIMESTAMP => "timestamp"
  | TIMESTAMPTZ => "timestamptz" | DATE => "date" | TIME => "time"
  | JSON => "json" | JSONB => "jsonb" | UUID => "uuid" | VECTOR => "vector"
  | DECIMAL => "decimal" | NUMERIC => "numeric" | REAL => "real"
  | DOUBLE_PRECISION => "double precision"
  end.

Module ColumnDefinition.
Record t : Type := mk {
  name : string;
  data_type : DataType;
  nullable : bool;
  default : PyValue;
  primary_key : bool;
  unique : bool;
  check_constraint : option string;
  vector_dimensions : option Z
}.
End ColumnDefinition.

Module TableDefinition.
Record t : Type := mk {
  name : string;
  columns : list ColumnDefinition.t;
  schema : string;
  constraints : list string;
  indexes : list (Dict PyValue)
}.
End TableDefinition.

Module QueryCondition.
Record t : Type := mk {
  column : string;
  operator : string;
  value : PyValue;
  logical_operator : string
}.
End QueryCondition.

Module QueryOptions.
Record t : Type := mk {
  limit : option Z;
  offset : option Z;
  order_by : list (Dict string);
  group_by : list string;
  having : list QueryCondition.t
}.
End QueryOptions.

(** A record as a driver row exposes it and as a caller submits it. *)
Definition Record_ : Type := Dict PyValue.

(** [SqlDriver.RowResult] *)
Module RowResult.
Record t : Type := mk { cells : Record_ }.
End RowResult.

Module QueryResult.
Record t : Type := mk {
  success : bool;
  message : string;
  data : list Record_;
  execution_time_ms : option Q;
  affected_rows : option Z;
  total_count : option Z;
  columns : list string
}.
End QueryResult.

Module OperationResult.
Record t : Type := mk {
  success : bool;
  message : string;
  operation_type : OperationType;
  table_name : string;
  execution_time_ms : option Q;
  affected_rows : option Z;
  returned_data : list Record_
}.
End OperationResult.

Module VectorSearchOptions.
Record t : Type := mk {
  vector : list PyValue;
  distance_function : string;
  limit : Z;
  threshold : PyValue;
  include_distance : bool
}.
End VectorSearchOptions.

Module IndexDefinition.
Record t : Type := mk {
  name : string;
  table_name : string;
  columns : list string;
  index_type : string;
  unique : bool;
  partial_condition : option string;
  vector_index_options : Dict PyValue
}.
End IndexDefinition.

(** ** The collaborators: driver, clock, serializer *)

(** One call of [execute_query(sql, params)]; [params=None] when the
    caller passes the statement alone. *)
Record Call : Type := mkCall {
  call_sql : string;
  call_params : option (list PyValue)
}.

(** What [execute_query] does for its caller: raise, or return
    [Optional[List[RowResult]]]. *)
Inductive Reply : Type :=
| Raises (msg : string)
| Returns (rows : option (list RowResult.t)).

(** The statements that have reached the driver, oldest first. *)
Definition Log : Type := list Call.

(** [self]: the driver handle, together with the interpreter facilities
    the operations call.  The driver and the clock may answer according to
    everything executed so far. *)
Record Runtime : Type := mkRuntime {
  sql_driver : Log -> Call -> Reply;
  clock : Log -> Q;
  json_dumps : PyValue -> Exc string
}.

(** A coroutine of the package: it may call the driver, and it returns or
    raises.  The log survives a raise. *)
Definition M (A : Type) : Type := Log -> Exc A * Log.

Definition ret {A} (a : A) : M A := fun log => (inr a, log).
Definition raise {A} (msg : string) : M A := fun log => (inl msg, log).
Definition bind {A B} (c : M A) (k : A -> M B) : M B :=
  fun log =>
    match c log with
    | (inl e, log') => (inl e, log')
    | (inr a, log') => k a log'
    end.

(** A builder that raises, raises in the coroutine that calls it. *)
Definition lift {A} (c : Exc A) : M A := fun log => (c, log).

(** [try: body  except Exception as e: handler] *)
Definition try_except {A} (body : M A) (handler : string -> M A) : M A :=
  fun log =>
    match body log with
    | (inl e, log') => handler e log'
    | (inr a, log') => (inr a, log')
    end.

Declare Scope m_scope.
Delimit Scope m_scope with M.
Notation "x <- c1 ;; c2" := (bind c1 (fun x => c2))
  (at level 61, c1 at next level, right associativity) : m_scope.
Notation "' pat <- c1 ;; c2" :=
  (bind c1 (fun x => match x with pat => c2 end))
  (at level 61, pat pattern, c1 at next level, right associativity) : m_scope.

(** A [for] loop of a coroutine, threading an accumulator. *)
Fixpoint mfold {A B} (f : B -> A -> M B) (l : list A) (acc : B) : M B :=
  match l with
  | [] => ret acc
  | x :: rest => bind (f acc x) (mfold f rest)
  end.

(** [await self.sql_driver.execute_query(sql, params)] *)
Definition execute_query (self : Runtime) (sql : string)
    (params : option (list PyValue)) : M (option (list RowResult.t)) :=
  fun log =>
    let c := mkCall sql params in
    match sql_driver self log c with
    | Raises msg => (inl msg, (log ++ [c])%list)
    | Returns rows => (inr rows, (log ++ [c])%list)
    end.

(** [time.time()] *)
Definition time_time (self : Runtime) : M Q :=
  fun log => (inr (clock self log), log).

(** [(time.time() - start_time) * 1000] *)
Definition elapsed_ms (self : Runtime) (start_time : Q) : M Q :=
  (now <- time_time self ;; ret ((now - start_time) * 1000)%Q)%M.

(** [[row.cells for row in result] if result else []] *)
Definition cells_of (result : option (list RowResult.t)) : list Record_ :=
  match result with
  | Some rows => map RowResult.cells rows
  | None => []
  end.

(** [len(result) if result else 0] *)
Definition len_of (result : option (list RowResult.t)) : Z :=
  match result with
  | Some rows => Z.of_nat (length rows)
  | None => 0
  end.

(** ** psycopg.sql *)

(** [SQL(s)], [Identifier(s)] and [Composed([...])]. *)
#[warnings="-register-all"]
Inductive Composable : Type :=
| SQL (s : string)
| Identifier (s : string)
| Composed (parts : list Composable).

(** [s.replace(chr(34), chr(34) * 2)] *)
Fixpoint double_quotes (s : string) : string :=
  match s with
  | EmptyString => EmptyString
  | String c rest =>
      if Ascii.eqb c (ascii_of_nat 34)
      then String c (String c (double_quotes rest))
      else String c (double_quotes rest)
  end.

(** [obj.as_string(context)]: an identifier comes out between double
    quotes with the quotes inside it doubled, a snippet as it is. *)
Fixpoint as_string (obj : Composable) : string :=
  match obj with
  | SQL s => s
  | Identifier s => dquote ++ double_quotes s ++ dquote
  | Composed parts =>
      (fix go (l : list Composable) : string :=
         match l with
         | [] => EmptyString
         | p :: rest => as_string p ++ go rest
         end) parts
  end.

(** [sep.join(seq)] of [psycopg.sql]: the separator object stands
    between consecutive items. *)
Fixpoint intersperse (sep : Composable) (items : list Composable)
    : list Composable :=
  match items with
  | [] => []
  | [x] => [x]
  | x :: rest => x :: sep :: intersperse sep rest
  end.

Definition SQL_join (sep : string) (items : list Composable) : Composable :=
  Composed (intersperse (SQL sep) items).

(** [SQL(template).format(...)] for templates whose only fields are the
    automatically numbered ones, written as an opening and a closing brace,
    which is every template of the package.  A field without an argument
    is an [IndexError]; arguments left over are ignored. *)
Fixpoint format_parts (template pre : string) (args : list Composable)
    : Exc (list Composable) :=
  let flush := if truthy_str pre then [SQL pre] else [] in
  match template with
  | EmptyString => eret flush
  | String c rest =>
      if Ascii.eqb c (ascii_of_nat 123) then
        match rest with
        | String c' rest' =>
            if Ascii.eqb c' (ascii_of_nat 125) then
              match args with
              | [] => eraise "tuple index out of range"
              | a :: args' =>
                  ebind (format_parts rest' EmptyString args')
                        (fun tl => eret (flush ++ a :: tl)%list)
              end
            else eraise "unsupported replacement field"
        | EmptyString => eraise "Single '{' encountered in format string"
        end
      else format_parts rest (pre ++ String c EmptyString) args
  end.

Definition SQL_format (template : string) (args : list Composable)
    : Exc Composable :=
  ebind (format_parts template EmptyString args) (fun l => eret (Composed l)).

(** ** crud_operations.py *)

Module CrudOperations.

Definition _format_data_type (column : ColumnDefinition.t) : Exc string :=
  let data_type := ColumnDefinition.data_type column in
  match data_type with
  | VECTOR =>
      match ColumnDefinition.vector_dimensions column with
      | None =>
          eraise ("Vector column " ++ ColumnDefinition.name column
                  ++ " must specify vector_dimensions")
      | Some n => eret ("vector(" ++ str_int n ++ ")")
      end
  | VARCHAR | CHAR => eret (DataType_value data_type ++ "(255)")
  | DECIMAL | NUMERIC => eret (DataType_value data_type ++ "(10,2)")
  | _ => eret (DataType_value data_type)
  end.

(** The body of the loop over [table_def.columns]. *)
Definition col_def (col : ColumnDefinition.t) : Exc string :=
  (ty <- _format_data_type col ;;
   let col_def := dquote ++ ColumnDefinition.name col ++ dquote ++ " " ++ ty in
   let col_def :=
     if negb (ColumnDefinition.nullable col)
     then col_def ++ " NOT NULL" else col_def in
   let col_def :=
     let d := ColumnDefinition.default col in
     if is_not_None d then
       if is_str d
       then col_def ++ " DEFAULT '" ++ py_str d ++ "'"
       else col_def ++ " DEFAULT " ++ py_str d
     else col_def in
   let col_def :=
     if ColumnDefinition.primary_key col
     then col_def ++ " PRIMARY KEY" else col_def in
   let col_def :=
     if andb (ColumnDefinition.unique col)
             (negb (ColumnDefinition.primary_key col))
     then col_def ++ " UNIQUE" else col_def in
   let col_def :=
     match ColumnDefinition.check_constraint col with
     | Some chk =>
         if truthy_str chk
         then col_def ++ " CHECK (" ++ chk ++ ")" else col_def
     | None => col_def
     end in
   eret col_def)%exc.

Definition _build_create_table_sql (table_def : TableDefinition.t)
    : Exc string :=
  (column_defs <-
     efold (fun acc col => d <- col_def col ;; eret (acc ++ [d])%list)
           (TableDefinition.columns table_def) [] ;;
   let column_defs :=
     if truthy_list (TableDefinition.constraints table_def)
     then (column_defs ++ TableDefinition.constraints table_def)%list
     else column_defs in
   let columns_sql := join ", " column_defs in
   eret ("CREATE TABLE " ++ dquote ++ TableDefinition.schema table_def
         ++ dquote ++ "." ++ dquote ++ TableDefinition.name table_def
         ++ dquote ++ " (" ++ columns_sql ++ ")"))%exc.

Definition _build_insert_sql (table_name : string) (data : list Record_)
    (schema : string) (returning_columns : option (list string))
    : Exc (string * list (list PyValue)) :=
  match data with
  | [] => eraise "No data provided for insert"
  | first :: _ =>
      let columns := keys first in
      let placeholders := join ", " (replicate (length columns) "%s") in
      let quoted_columns :=
        join ", " (map (fun col => dquote ++ col ++ dquote) columns) in
      let sql :=
        "INSERT INTO " ++ dquote ++ schema ++ dquote ++ "." ++ dquote
        ++ table_name ++ dquote ++ " (" ++ quoted_columns ++ ") VALUES ("
        ++ placeholders ++ ")" in
      let sql :=
        match returning_columns with
        | Some (c :: cs) =>
            let quoted_returning :=
              join ", " (map (fun col => dquote ++ col ++ dquote) (c :: cs)) in
            sql ++ " RETURNING " ++ quoted_returning
        | _ => sql
        end in
      let params := map (fun row => map (row_get row) columns) data in
      eret (sql, params)
  end.

(** The [if]/[elif]/[else] of the loop of [_build_where_clause]: the
    clause of one condition and the parameter list after it. *)
Definition condition_clause (condition : QueryCondition.t)
    (params : list PyValue) : Exc (Composable * list PyValue) :=
  let operator := QueryCondition.operator condition in
  let column := QueryCondition.column condition in
  if str_in (upper operator) ["IS NULL"; "IS NOT NULL"] then
    (clause <- SQL_format "{} {}" [Identifier column; SQL (upper operator)] ;;
     eret (clause, params))%exc
  else if str_in (upper operator) ["IN"; "NOT IN"] then
    match QueryCondition.value condition with
    | VList vs | VTuple vs =>
        let placeholders := SQL_join ", " (replicate (length vs) (SQL "%s")) in
        (clause <- SQL_format "{} {} ({})"
                     [Identifier column; SQL (upper operator); placeholders] ;;
         eret (clause, (params ++ vs)%list))%exc
    | _ => eraise ("Value for " ++ operator ++ " must be a list or tuple")
    end
  else
    (clause <- SQL_format "{} {} %s" [Identifier column; SQL operator] ;;
     eret (clause, (params ++ [QueryCondition.value condition])%list))%exc.

(** One round of [for i, condition in enumerate(conditions)]. *)
Definition where_step (conditions : list QueryCondition.t)
    (acc : list Composable * list PyValue) (ic : nat * QueryCondition.t)
    : Exc (list Composable * list PyValue) :=
  let '(clauses, params) := acc in
  let '(i, condition) := ic in
  ('(clause, params) <- condition_clause condition params ;;
   clauses <-
     (if (0 <? i)%nat then
        match nth_error conditions (i - 1) with
        | Some prev =>
            let logical_op := upper (QueryCondition.logical_operator prev) in
            eret (clauses ++ [SQL (" " ++ logical_op ++ " ")])%list
        | None => eraise "list index out of range"
        end
      else eret clauses) ;;
   eret ((clauses ++ [clause])%list, params))%exc.

Definition _build_where_clause (conditions : list QueryCondition.t)
    : Exc (option Composable * list PyValue) :=
  match conditions with
  | [] => eret (None, [])
  | _ =>
      ('(clauses, params) <-
         efold (where_step conditions) (enumerate conditions) ([], []) ;;
       eret (Some (SQL_join EmptyString clauses), params))%exc
  end.

(** [SQL(", ").join(Identifier(col) for col in cols)] *)
Definition identifier_list (cols : list string) : Composable :=
  SQL_join ", " (map Identifier cols).

(** The [RETURNING] part shared by the UPDATE and DELETE builders. *)
Definition add_returning (sql_parts : list Composable)
    (returning_columns : option (list string)) : Exc (list Composable) :=
  match returning_columns with
  | Some (c :: cs) =>
      (r <- SQL_format " RETURNING {}" [identifier_list (c :: cs)] ;;
       eret (sql_parts ++ [r])%list)%exc
  | _ => eret sql_parts
  end.

(** The [WHERE] part shared by the UPDATE and DELETE builders. *)
Definition add_where (sql_parts : list Composable)
    (where_clauses : option Composable) : Exc (list Composable) :=
  match where_clauses with
  | Some w =>
      (c <- SQL_format " WHERE {}" [w] ;; eret (sql_parts ++ [c])%list)%exc
  | None => eret sql_parts
  end.

Definition _build_update_sql (table_name : string) (data : Record_)
    (conditions : list QueryCondition.t) (schema : string)
    (returning_columns : option (list string))
    : Exc (Composable * list PyValue) :=
  match data with
  | [] => eraise "No data provided for update"
  | _ =>
      ('(set_clauses, params) <-
         efold (fun acc kv =>
                  let '(set_clauses, params) := acc in
                  c <- SQL_format "{} = %s" [Identifier (fst kv)] ;;
                  eret ((set_clauses ++ [c])%list, (params ++ [snd kv])%list))
               data ([], []) ;;
       '(where_clauses, where_params) <- _build_where_clause conditions ;;
       let params := (params ++ where_params)%list in
       head <- SQL_format "UPDATE {}.{} SET {}"
                 [Identifier schema; Identifier table_name;
                  SQL_join ", " set_clauses] ;;
       sql_parts <- add_where [head] where_clauses ;;
       sql_parts <- add_returning sql_parts returning_columns ;;
       eret (SQL_join EmptyString sql_parts, params))%exc
  end.

Definition _build_delete_sql (table_name : string)
    (conditions : list QueryCondition.t) (schema : string)
    (returning_columns : option (list string))
    : Exc (Composable * list PyValue) :=
  ('(where_clauses, params) <- _build_where_clause conditions ;;
   head <- SQL_format "DELETE FROM {}.{}"
             [Identifier schema; Identifier table_name] ;;
   sql_parts <- add_where [head] where_clauses ;;
   sql_parts <- add_returning sql_parts returning_columns ;;
   eret (SQL_join EmptyString sql_parts, params))%exc.

(** One round of [for order in options.order_by]. *)
Definition order_clause (order : Dict string) : Exc Composable :=
  let direction :=
    upper (match dict_find order "direction" with
           | Some d => d | None => "ASC" end) in
  match dict_find order "column" with
  | Some col => SQL_format "{} {}" [Identifier col; SQL direction]
  | None => eraise "'column'"
  end.

(** The [if options:] block of [_build_select_sql]. *)
Definition select_options (options : QueryOptions.t)
    (acc : list Composable * list PyValue)
    : Exc (list Composable * list PyValue) :=
  let '(sql_parts, params) := acc in
  (sql_parts <-
     (if truthy_list (QueryOptions.group_by options) then
        g <- SQL_format " GROUP BY {}"
               [identifier_list (QueryOptions.group_by options)] ;;
        eret (sql_parts ++ [g])%list
      else eret sql_parts) ;;
   '(sql_parts, params) <-
     (if truthy_list (QueryOptions.having options) then
        '(having_clauses, having_params) <-
           _build_where_clause (QueryOptions.having options) ;;
        match having_clauses with
        | Some h =>
            c <- SQL_format " HAVING {}" [h] ;;
            eret ((sql_parts ++ [c])%list, (params ++ having_params)%list)
        | None => eret (sql_parts, params)
        end
      else eret (sql_parts, params)) ;;
   sql_parts <-
     (if truthy_list (QueryOptions.order_by options) then
        order_clauses <-
          efold (fun acc order => c <- order_clause order ;;
                                  eret (acc ++ [c])%list)
                (QueryOptions.order_by options) [] ;;
        o <- SQL_format " ORDER BY {}" [SQL_join ", " order_clauses] ;;
        eret (sql_parts ++ [o])%list
      else eret sql_parts) ;;
   let '(sql_parts, params) :=
     if truthy_opt_int (QueryOptions.limit options)
     then ((sql_parts ++ [SQL " LIMIT %s"])%list,
           (params ++ [py_opt_int (QueryOptions.limit options)])%list)
     else (sql_parts, params) in
   let '(sql_parts, params) :=
     if truthy_opt_int (QueryOptions.offset options)
     then ((sql_parts ++ [SQL " OFFSET %s"])%list,
           (params ++ [py_opt_int (QueryOptions.offset options)])%list)
     else (sql_parts, params) in
   eret (sql_parts, params))%exc.

Definition _build_select_sql (table_name : string)
    (columns : option (list string))
    (conditions : option (list QueryCondition.t))
    (options : option QueryOptions.t) (schema : string)
    : Exc (Composable * list PyValue) :=
  let select_columns :=
    match columns with
    | Some (c :: cs) => identifier_list (c :: cs)
    | _ => SQL "*"
    end in
  (head <- SQL_format "SELECT {} FROM {}.{}"
             [select_columns; Identifier schema; Identifier table_name] ;;
   '(sql_parts, params) <-
     match conditions with
     | Some (c :: cs) =>
         '(where_clauses, where_params) <- _build_where_clause (c :: cs) ;;
         match where_clauses with
         | Some w =>
             wc <- SQL_format " WHERE {}" [w] ;;
             eret ([head; wc], where_params)
         | None => eret ([head], [])
         end
     | _ => eret ([head], [])
     end ;;
   '(sql_parts, params) <-
     match options with
     | Some options => select_options options (sql_parts, params)
     | None => eret (sql_parts, params)
     end ;;
   eret (SQL_join EmptyString sql_parts, params))%exc.

(** [f"{schema}.{table_name}"] *)
Definition qualified (schema table_name : string) : string :=
  schema ++ "." ++ table_name.

(** [sql.as_string(...)] when [sql] is a [str]: the attribute lookup
    fails before anything else is evaluated. *)
Definition str_as_string (sql : string) : Exc string :=
  eraise "'str' object has no attribute 'as_string'".

(** What [result] holds at the end of the [try] suite of
    [insert_records]: the driver's reply after a single insert, the list
    of dictionaries gathered so far (or [None]) after a batch. *)
Inductive InsertOutcome : Type :=
| Replied (result : option (list RowResult.t))
| Gathered (result : option (list Record_)).

(** [[row.cells for row in result] if result else []] *)
Definition outcome_cells (result : InsertOutcome) : Exc (list Record_) :=
  match result with
  | Replied r => eret (cells_of r)
  | Gathered (Some (_ :: _)) =>
      eraise "'dict' object has no attribute 'cells'"
  | Gathered _ => eret []
  end.

Definition create_table_try (self : Runtime) (table_def : TableDefinition.t)
    (start_time : Q) : M OperationResult.t :=
  (sql <- lift (_build_create_table_sql table_def) ;;
   _ <- execute_query self sql None ;;
   execution_time <- elapsed_ms self start_time ;;
   ret (OperationResult.mk true
          ("Table " ++ qualified (TableDefinition.schema table_def)
                                 (TableDefinition.name table_def)
           ++ " created successfully")
          CREATE
          (qualified (TableDefinition.schema table_def)
                     (TableDefinition.name table_def))
          (Some execution_time) None []))%M.

Definition create_table (self : Runtime) (table_def : TableDefinition.t)
    : M OperationResult.t :=
  (start_time <- time_time self ;;
   try_except (create_table_try self table_def start_time)
     (fun e =>
        execution_time <- elapsed_ms self start_time ;;
        ret (OperationResult.mk false ("Failed to create table: " ++ e)
               CREATE
               (qualified (TableDefinition.schema table_def)
                          (TableDefinition.name table_def))
               (Some execution_time) None [])))%M.

(** One round of the batch loop of [insert_records]. *)
Definition batch_step (self : Runtime) (sql_str : string)
    (returning_columns : option (list string))
    (returned_data : list Record_) (params : list PyValue)
    : M (list Record_) :=
  (result <- execute_query self sql_str (Some params) ;;
   ret (if andb (truthy_opt_list result) (truthy_opt_list returning_columns)
        then (returned_data ++ cells_of result)%list
        else returned_data))%M.

Definition insert_records_try (self : Runtime) (table_name : string)
    (data : list Record_) (schema : string)
    (returning_columns : option (list string)) (start_time : Q)
    : M OperationResult.t :=
  (result <-
     (if (length data =? 1)%nat then
        '(sql, params) <-
           lift (_build_insert_sql table_name data schema returning_columns) ;;
        sql_str <- lift (str_as_string sql) ;;
        result <- execute_query self sql_str (Some (hd [] params)) ;;
        ret (Replied result)
      else
        '(sql, all_params) <-
           lift (_build_insert_sql table_name data schema returning_columns) ;;
        sql_str <- lift (str_as_string sql) ;;
        returned_data <-
          mfold (batch_step self sql_str returning_columns) all_params [] ;;
        ret (Gathered (if truthy_opt_list returning_columns
                       then Some returned_data else None))) ;;
   execution_time <- elapsed_ms self start_time ;;
   returned_data <- lift (outcome_cells result) ;;
   ret (OperationResult.mk true
          ("Successfully inserted " ++ str_len data ++ " record(s) into "
           ++ qualified schema table_name)
          INSERT (qualified schema table_name) (Some execution_time)
          (Some (Z.of_nat (length data))) returned_data))%M.

Definition insert_records (self : Runtime) (table_name : string)
    (data : list Record_) (schema : string)
    (returning_columns : option (list string)) : M OperationResult.t :=
  (start_time <- time_time self ;;
   try_except
     (insert_records_try self table_name data schema returning_columns
                         start_time)
     (fun e =>
        execution_time <- elapsed_ms self start_time ;;
        ret (OperationResult.mk false ("Failed to insert records: " ++ e)
               INSERT (qualified schema table_name) (Some execution_time)
               None [])))%M.

Definition update_records_try (self : Runtime) (table_name : string)
    (data : Record_) (conditions : list QueryCondition.t) (schema : string)
    (returning_columns : option (list string)) (start_time : Q)
    : M OperationResult.t :=
  ('(sql, params) <-
     lift (_build_update_sql table_name data conditions schema
                             returning_columns) ;;
   let sql_str := as_string sql in
   result <- execute_query self sql_str (Some params) ;;
   execution_time <- elapsed_ms self start_time ;;
   let affected_rows := len_of result in
   ret (OperationResult.mk true
          ("Successfully updated " ++ str_int affected_rows
           ++ " record(s) in " ++ qualified schema table_name)
          UPDATE (qualified schema table_name) (Some execution_time)
          (Some affected_rows) (cells_of result)))%M.

Definition update_records (self : Runtime) (table_name : string)
    (data : Record_) (conditions : list QueryCondition.t) (schema : string)
    (returning_columns : option (list string)) : M OperationResult.t :=
  (start_time <- time_time self ;;
   try_except
     (update_records_try self table_name data conditions schema
                         returning_columns start_time)
     (fun e =>
        execution_time <- elapsed_ms self start_time ;;
        ret (OperationResult.mk false ("Failed to update records: " ++ e)
               UPDATE (qualified schema table_name) (Some execution_time)
               None [])))%M.

Definition delete_records_try (self : Runtime) (table_name : string)
    (conditions : list QueryCondition.t) (schema : string)
    (returning_columns : option (list string)) (start_time : Q)
    : M OperationResult.t :=
  ('(sql, params) <-
     lift (_build_delete_sql table_name conditions schema
                             returning_columns) ;;
   let sql_str := as_string sql in
   result <- execute_query self sql_str (Some params) ;;
   execution_time <- elapsed_ms self start_time ;;
   let affected_rows := len_of result in
   ret (OperationResult.mk true
          ("Successfully deleted " ++ str_int affected_rows
           ++ " record(s) from " ++ qualified schema table_name)
          DELETE (qualified schema table_name) (Some execution_time)
          (Some affected_rows) (cells_of result)))%M.

Definition delete_records (self : Runtime) (table_name : string)
    (conditions : list QueryCondition.t) (schema : string)
    (returning_columns : option (list string)) : M OperationResult.t :=
  (start_time <- time_time self ;;
   try_except
     (delete_records_try self table_name conditions schema
                         returning_columns start_time)
     (fun e =>
        execution_time <- elapsed_ms self start_time ;;
        ret (OperationResult.mk false ("Failed to delete records: " ++ e)
               DELETE (qualified schema table_name) (Some execution_time)
               None [])))%M.

Definition query_records_try (self : Runtime) (table_name : string)
    (columns : option (list string))
    (conditions : option (list QueryCondition.t))
    (options : option QueryOptions.t) (schema : string) (start_time : Q)
    : M QueryResult.t :=
  ('(sql, params) <-
     lift (_build_select_sql table_name columns conditions options schema) ;;
   let sql_str := as_string sql in
   result <- execute_query self sql_str (Some params) ;;
   execution_time <- elapsed_ms self start_time ;;
   let data := cells_of result in
   let column_names :=
     match data with first :: _ => keys first | [] => [] end in
   ret (QueryResult.mk true
          ("Successfully queried " ++ str_len data ++ " record(s) from "
           ++ qualified schema table_name)
          data (Some execution_time) None
          (Some (Z.of_nat (length data))) column_names))%M.

Definition query_records (self : Runtime) (table_name : string)
    (columns : option (list string))
    (conditions : option (list QueryCondition.t))
    (options : option QueryOptions.t) (schema : string) : M QueryResult.t :=
  (start_time <- time_time self ;;
   try_except
     (query_records_try self table_name columns conditions options schema
                        start_time)
     (fun e =>
        execution_time <- elapsed_ms self start_time ;;
        ret (QueryResult.mk false ("Failed to query records: " ++ e)
               [] (Some execution_time) None None [])))%M.

End CrudOperations.

(** ** simple_crud.py *)

Module SimpleCrudOperations.

Definition qualified (schema table_name : string) : string :=
  schema ++ "." ++ table_name.

Definition _format_data_type (column : ColumnDefinition.t) : Exc string :=
  let data_type := ColumnDefinition.data_type column in
  match data_type with
  | VECTOR =>
      match ColumnDefinition.vector_dimensions column with
      | None =>
          eraise ("Vector column " ++ ColumnDefinition.name column
                  ++ " must specify vector_dimensions")
      | Some n => eret ("vector(" ++ str_int n ++ ")")
      end
  | VARCHAR | CHAR => eret (DataType_value data_type ++ "(255)")
  | DECIMAL | NUMERIC => eret (DataType_value data_type ++ "(10,2)")
  | _ => eret (DataType_value data_type)
  end.

Definition special_functions : list string :=
  ["CURRENT_TIMESTAMP"; "CURRENT_DATE"; "CURRENT_TIME"; "NOW()";
   "UUID_GENERATE_V4()"].

(** The body of the loop over [table_def.columns] in [create_table]. *)
Definition col_def (col : ColumnDefinition.t) : Exc string :=
  (ty <- _format_data_type col ;;
   let col_def := dquote ++ ColumnDefinition.name col ++ dquote ++ " " ++ ty in
   let col_def :=
     if negb (ColumnDefinition.nullable col)
     then col_def ++ " NOT NULL" else col_def in
   let col_def :=
     let d := ColumnDefinition.default col in
     if is_not_None d then
       if andb (is_str d) (negb (str_in (py_str d) special_functions))
       then col_def ++ " DEFAULT '" ++ py_str d ++ "'"
       else col_def ++ " DEFAULT " ++ py_str d
     else col_def in
   let col_def :=
     if ColumnDefinition.primary_key col
     then col_def ++ " PRIMARY KEY" else col_def in
   let col_def :=
     if andb (ColumnDefinition.unique col)
             (negb (ColumnDefinition.primary_key col))
     then col_def ++ " UNIQUE" else col_def in
   let col_def :=
     match ColumnDefinition.check_constraint col with
     | Some chk =>
         if truthy_str chk
         then col_def ++ " CHECK (" ++ chk ++ ")" else col_def
     | None => col_def
     end in
   eret col_def)%exc.

(** The statement [create_table] builds at the head of its [try] suite. *)
Definition create_table_sql (table_def : TableDefinition.t) : Exc string :=
  (column_defs <-
     efold (fun acc col => d <- col_def col ;; eret (acc ++ [d])%list)
           (TableDefinition.columns table_def) [] ;;
   let column_defs :=
     if truthy_list (TableDefinition.constraints table_def)
     then (column_defs ++ TableDefinition.constraints table_def)%list
     else column_defs in
   let columns_sql := join ", " column_defs in
   eret ("CREATE TABLE " ++ dquote ++ TableDefinition.schema table_def
         ++ dquote ++ "." ++ dquote ++ TableDefinition.name table_def
         ++ dquote ++ " (" ++ columns_sql ++ ")"))%exc.

Definition create_table_try (self : Runtime) (table_def : TableDefinition.t)
    (start_time : Q) : M OperationResult.t :=
  (sql <- lift (create_table_sql table_def) ;;
   _ <- execute_query self sql None ;;
   execution_time <- elapsed_ms self start_time ;;
   ret (OperationResult.mk true
          ("Table " ++ qualified (TableDefinition.schema table_def)
                                 (TableDefinition.name table_def)
           ++ " created successfully")
          CREATE
          (qualified (TableDefinition.schema table_def)
                     (TableDefinition.name table_def))
          (Some execution_time) None []))%M.

Definition create_table (self : Runtime) (table_def : TableDefinition.t)
    : M OperationResult.t :=
  (start_time <- time_time self ;;
   try_except (create_table_try self table_def start_time)
     (fun e =>
        execution_time <- elapsed_ms self start_time ;;
        ret (OperationResult.mk false ("Failed to create table: " ++ e)
               CREATE
               (qualified (TableDefinition.schema table_def)
                          (TableDefinition.name table_def))
               (Some execution_time) None [])))%M.

(** The statement [insert_records] builds before its loop. *)
Definition insert_sql (table_name : string) (columns : list string)
    (schema : string) (returning_columns : option (list string)) : string :=
  let quoted_columns :=
    join ", " (map (fun col => dquote ++ col ++ dquote) columns) in
  let placeholders := join ", " (replicate (length columns) "%s") in
  let sql :=
    "INSERT INTO " ++ dquote ++ schema ++ dquote ++ "." ++ dquote
    ++ table_name ++ dquote ++ " (" ++ quoted_columns ++ ") VALUES ("
    ++ placeholders ++ ")" in
  match returning_columns with
  | Some (c :: cs) =>
      let quoted_returning :=
        join ", " (map (fun col => dquote ++ col ++ dquote) (c :: cs)) in
      sql ++ " RETURNING " ++ quoted_returning
  | _ => sql
  end.

(** The inner loop of [insert_records]: the parameters of one row. *)
Definition row_params (self : Runtime) (columns : list string)
    (row : Record_) : Exc (list PyValue) :=
  efold (fun params col =>
           let value := row_get row col in
           value <-
             match value with
             | VDict _ | VList _ =>
                 s <- json_dumps self value ;; eret (VStr s)
             | _ => eret value
             end ;;
           eret (params ++ [value])%list)%exc
        columns [].

(** One round of [for row in data]. *)
Definition insert_step (self : Runtime) (sql : string)
    (columns : list string) (returning_columns : option (list string))
    (acc : list Record_ * Z) (row : Record_) : M (list Record_ * Z) :=
  let '(returned_data, affected_rows) := acc in
  (params <- lift (row_params self columns row) ;;
   result <- execute_query self sql (Some params) ;;
   let affected_rows := (affected_rows + 1)%Z in
   ret (if andb (truthy_opt_list result) (truthy_opt_list returning_columns)
        then ((returned_data ++ cells_of result)%list, affected_rows)
        else (returned_data, affected_rows)))%M.

Definition insert_records_try (self : Runtime) (table_name : string)
    (data : list Record_) (schema : string)
    (returning_columns : option (list string)) (start_time : Q)
    : M OperationResult.t :=
  match data with
  | [] => raise "No data provided for insert"
  | first :: _ =>
      let columns := keys first in
      let sql := insert_sql table_name columns schema returning_columns in
      ('(returned_data, affected_rows) <-
         mfold (insert_step self sql columns returning_columns) data
               ([], 0%Z) ;;
       execution_time <- elapsed_ms self start_time ;;
       ret (OperationResult.mk true
              ("Successfully inserted " ++ str_int affected_rows
               ++ " record(s) into " ++ qualified schema table_name)
              INSERT (qualified schema table_name) (Some execution_time)
              (Some affected_rows) returned_data))%M
  end.

Definition insert_records (self : Runtime) (table_name : string)
    (data : list Record_) (schema : string)
    (returning_columns : option (list string)) : M OperationResult.t :=
  (start_time <- time_time self ;;
   try_except
     (insert_records_try self table_name data schema returning_columns
                         start_time)
     (fun e =>
        execution_time <- elapsed_ms self start_time ;;
        ret (OperationResult.mk false ("Failed to insert records: " ++ e)
               INSERT (qualified schema table_name) (Some execution_time)
               None [])))%M.

(** The [if]/[elif]/[else] of the loop over the conditions: the text
    of one condition and the parameter list after it. *)
Definition condition_part (condition : QueryCondition.t)
    (params : list PyValue) : Exc (string * list PyValue) :=
  let operator := QueryCondition.operator condition in
  let column := QueryCondition.column condition in
  if str_in (upper operator) ["IS NULL"; "IS NOT NULL"] then
    eret (dquote ++ column ++ dquote ++ " " ++ upper operator, params)
  else if str_in (upper operator) ["IN"; "NOT IN"] then
    match QueryCondition.value condition with
    | VList vs | VTuple vs =>
        let placeholders := join ", " (replicate (length vs) "%s") in
        eret (dquote ++ column ++ dquote ++ " " ++ upper operator
              ++ " (" ++ placeholders ++ ")",
              (params ++ vs)%list)
    | _ => eraise ("Value for " ++ operator ++ " must be a list or tuple")
    end
  else
    eret (dquote ++ column ++ dquote ++ " " ++ operator ++ " %s",
          (params ++ [QueryCondition.value condition])%list).

(** One round of [for i, condition in enumerate(conditions)]; the loop
    is written out three times, in [query_records], [update_records] and
    [delete_records], with the same text. *)
Definition where_step (conditions : list QueryCondition.t)
    (acc : list string * list PyValue) (ic : nat * QueryCondition.t)
    : Exc (list string * list PyValue) :=
  let '(where_parts, params) := acc in
  let '(i, condition) := ic in
  (where_parts <-
     (if (0 <? i)%nat then
        match nth_error conditions (i - 1) with
        | Some prev =>
            let logical_op := upper (QueryCondition.logical_operator prev) in
            eret (where_parts ++ [(" " ++ logical_op ++ " ")%string])%list
        | None => eraise "list index out of range"
        end
      else eret where_parts) ;;
   '(part, params) <- condition_part condition params ;;
   eret ((where_parts ++ [part])%list, params))%exc.

(** The [if conditions:] block: the statement and parameters after it. *)
Definition add_where (conditions : list QueryCondition.t) (sql : string)
    (params : list PyValue) : Exc (string * list PyValue) :=
  match conditions with
  | [] => eret (sql, params)
  | _ =>
      ('(where_parts, params) <-
         efold (where_step conditions) (enumerate conditions) ([], params) ;;
       eret (if truthy_list where_parts
             then sql ++ " WHERE " ++ join EmptyString where_parts
             else sql,
             params))%exc
  end.

Definition add_returning (sql : string)
    (returning_columns : option (list string)) : string :=
  match returning_columns with
  | Some (c :: cs) =>
      let quoted_returning :=
        join ", " (map (fun col => dquote ++ col ++ dquote) (c :: cs)) in
      sql ++ " RETURNING " ++ quoted_returning
  | _ => sql
  end.

(** One round of [for order in options.order_by]. *)
Definition order_part (order : Dict string) : Exc string :=
  let direction :=
    upper (match dict_find order "direction" with
           | Some d => d | None => "ASC" end) in
  match dict_find order "column" with
  | Some col => eret (dquote ++ col ++ dquote ++ " " ++ direction)
  | None => eraise "'column'"
  end.

(** The [if options:] block of [query_records]. *)
Definition add_options (options : option QueryOptions.t) (sql : string)
    : Exc string :=
  match options with
  | None => eret sql
  | Some options =>
      (sql <-
         (if truthy_list (QueryOptions.order_by options) then
            order_parts <-
              efold (fun acc order => p <- order_part order ;;
                                      eret (acc ++ [p])%list)
                    (QueryOptions.order_by options) [] ;;
            eret (sql ++ " ORDER BY " ++ join ", " order_parts)
          else eret sql) ;;
       let sql :=
         match QueryOptions.limit options with
         | Some n =>
             if truthy_opt_int (Some n)
             then sql ++ " LIMIT " ++ str_int n else sql
         | None => sql
         end in
       let sql :=
         match QueryOptions.offset options with
         | Some n =>
             if truthy_opt_int (Some n)
             then sql ++ " OFFSET " ++ str_int n else sql
         | None => sql
         end in
       eret sql)%exc
  end.

(** The statement and parameters [query_records] hands to the driver. *)
Definition query_sql (table_name : string) (columns : option (list string))
    (conditions : option (list QueryCondition.t))
    (options : option QueryOptions.t) (schema : string)
    : Exc (string * list PyValue) :=
  let select_columns :=
    match columns with
    | Some (c :: cs) =>
        join ", " (map (fun col => dquote ++ col ++ dquote) (c :: cs))
    | _ => "*"
    end in
  let sql :=
    "SELECT " ++ select_columns ++ " FROM " ++ dquote ++ schema ++ dquote
    ++ "." ++ dquote ++ table_name ++ dquote in
  ('(sql, params) <-
     add_where (match conditions with Some cs => cs | None => [] end)
               sql [] ;;
   sql <- add_options options sql ;;
   eret (sql, params))%exc.

Definition query_records_try (self : Runtime) (table_name : string)
    (columns : option (list string))
    (conditions : option (list QueryCondition.t))
    (options : option QueryOptions.t) (schema : string) (start_time : Q)
    : M QueryResult.t :=
  ('(sql, params) <-
     lift (query_sql table_name columns conditions options schema) ;;
   result <- execute_query self sql (Some params) ;;
   execution_time <- elapsed_ms self start_time ;;
   let data := cells_of result in
   let column_names :=
     match data with first :: _ => keys first | [] => [] end in
   ret (QueryResult.mk true
          ("Successfully queried " ++ str_len data ++ " record(s) from "
           ++ qualified schema table_name)
          data (Some execution_time) None
          (Some (Z.of_nat (length data))) column_names))%M.

Definition query_records (self : Runtime) (table_name : string)
    (columns : option (list string))
    (conditions : option (list QueryCondition.t))
    (options : option QueryOptions.t) (schema : string) : M QueryResult.t :=
  (start_time <- time_time self ;;
   try_except
     (query_records_try self table_name columns conditions options schema
                        start_time)
     (fun e =>
        execution_time <- elapsed_ms self start_time ;;
        ret (QueryResult.mk false ("Failed to query records: " ++ e)
               [] (Some execution_time) None None [])))%M.

(** The statement and parameters [update_records] hands to the driver. *)
Definition update_sql (table_name : string) (data : Record_)
    (conditions : list QueryCondition.t) (schema : string)
    (returning_columns : option (list string))
    : Exc (string * list PyValue) :=
  match data with
  | [] => eraise "No data provided for update"
  | _ =>
      let set_parts :=
        map (fun kv => dquote ++ fst kv ++ dquote ++ " = %s") data in
      let params := map snd data in
      let sql :=
        "UPDATE " ++ dquote ++ schema ++ dquote ++ "." ++ dquote
        ++ table_name ++ dquote ++ " SET " ++ join ", " set_parts in
      ('(sql, params) <- add_where conditions sql params ;;
       eret (add_returning sql returning_columns, params))%exc
  end.

Definition update_records_try (self : Runtime) (table_name : string)
    (data : Record_) (conditions : list QueryCondition.t) (schema : string)
    (returning_columns : option (list string)) (start_time : Q)
    : M OperationResult.t :=
  ('(sql, params) <-
     lift (update_sql table_name data conditions schema returning_columns) ;;
   result <- execute_query self sql (Some params) ;;
   execution_time <- elapsed_ms self start_time ;;
   let affected_rows := len_of result in
   ret (OperationResult.mk true
          ("Successfully updated " ++ str_int affected_rows
           ++ " record(s) in " ++ qualified schema table_name)
          UPDATE (qualified schema table_name) (Some execution_time)
          (Some affected_rows) (cells_of result)))%M.

Definition update_records (self : Runtime) (table_name : string)
    (data : Record_) (conditions : list QueryCondition.t) (schema : string)
    (returning_columns : option (list string)) : M OperationResult.t :=
  (start_time <- time_time self ;;
   try_except
     (update_records_try self table_name data conditions schema
                         returning_columns start_time)
     (fun e =>
        execution_time <- elapsed_ms self start_time ;;
        ret (OperationResult.mk false ("Failed to update records: " ++ e)
               UPDATE (qualified schema table_name) (Some execution_time)
               None [])))%M.

(** The statement and parameters [delete_records] hands to the driver. *)
Definition delete_sql (table_name : string)
    (conditions : list QueryCondition.t) (schema : string)
    (returning_columns : option (list string))
    : Exc (string * list PyValue) :=
  let sql :=
    "DELETE FROM " ++ dquote ++ schema ++ dquote ++ "." ++ dquote
    ++ table_name ++ dquote in
  ('(sql, params) <- add_where conditions sql [] ;;
   eret (add_returning sql returning_columns, params))%exc.

Definition delete_records_try (self : Runtime) (table_name : string)
    (conditions : list QueryCondition.t) (schema : string)
    (returning_columns : option (list string)) (start_time : Q)
    : M OperationResult.t :=
  ('(sql, params) <-
     lift (delete_sql table_name conditions schema returning_columns) ;;
   result <- execute_query self sql (Some params) ;;
   execution_time <- elapsed_ms self start_time ;;
   let affected_rows := len_of result in
   ret (OperationResult.mk true
          ("Successfully deleted " ++ str_int affected_rows
           ++ " record(s) from " ++ qualified schema table_name)
          DELETE (qualified schema table_name) (Some execution_time)
          (Some affected_rows) (cells_of result)))%M.

Definition delete_records (self : Runtime) (table_name : string)
    (conditions : list QueryCondition.t) (schema : string)
    (returning_columns : option (list string)) : M OperationResult.t :=
  (start_time <- time_time self ;;
   try_except
     (delete_records_try self table_name conditions schema
                         returning_columns start_time)
     (fun e =>
        execution_time <- elapsed_ms self start_time ;;
        ret (OperationResult.mk false ("Failed to delete records: " ++ e)
               DELETE (qualified schema table_name) (Some execution_time)
               None [])))%M.

End SimpleCrudOperations.

(** ** schema_operations.py *)

Module SchemaOperations.

Definition qualified (schema table_name : string) : string :=
  schema ++ "." ++ table_name.

(** [sql_parts.append(part)] under a condition. *)
Definition append_if (cond : bool) (sql_parts : list string) (part : string)
    : list string :=
  if cond then (sql_parts ++ [part])%list else sql_parts.

(** The [try] suite shared in shape by every operation of the class:
    render the statement, run it without parameters, report. *)
Definition run_ddl (self : Runtime) (sql : Exc Composable) (start_time : Q)
    (message : string) (operation_type : OperationType)
    (table_name : string) : M OperationResult.t :=
  (sql <- lift sql ;;
   let sql_str := as_string sql in
   _ <- execute_query self sql_str None ;;
   execution_time <- elapsed_ms self start_time ;;
   ret (OperationResult.mk true message operation_type table_name
          (Some execution_time) None []))%M.

(** The [except Exception as e:] suite. *)
Definition failed (self : Runtime) (start_time : Q) (prefix e : string)
    (operation_type : OperationType) (table_name : string)
    : M OperationResult.t :=
  (execution_time <- elapsed_ms self start_time ;;
   ret (OperationResult.mk false (prefix ++ e) operation_type table_name
          (Some execution_time) None []))%M.

Definition create_schema_sql (schema_name : string) (if_not_exists : bool)
    : Exc Composable :=
  if if_not_exists
  then SQL_format "CREATE SCHEMA IF NOT EXISTS {}" [Identifier schema_name]
  else SQL_format "CREATE SCHEMA {}" [Identifier schema_name].

Definition create_schema_try (self : Runtime) (schema_name : string)
    (if_not_exists : bool) (start_time : Q) : M OperationResult.t :=
  run_ddl self (create_schema_sql schema_name if_not_exists) start_time
    ("Schema " ++ schema_name ++ " created successfully") CREATE schema_name.

Definition create_schema (self : Runtime) (schema_name : string)
    (if_not_exists : bool) : M OperationResult.t :=
  (start_time <- time_time self ;;
   try_except (create_schema_try self schema_name if_not_exists start_time)
     (fun e => failed self start_time "Failed to create schema: " e
                 CREATE schema_name))%M.

Definition drop_schema_sql (schema_name : string) (cascade if_exists : bool)
    : Exc Composable :=
  let sql_parts := ["DROP SCHEMA"] in
  let sql_parts := append_if if_exists sql_parts "IF EXISTS" in
  let sql_parts := (sql_parts ++ ["{}"])%list in
  let sql_parts := append_if cascade sql_parts "CASCADE" in
  SQL_format (join " " sql_parts) [Identifier schema_name].

Definition drop_schema_try (self : Runtime) (schema_name : string)
    (cascade if_exists : bool) (start_time : Q) : M OperationResult.t :=
  run_ddl self (drop_schema_sql schema_name cascade if_exists) start_time
    ("Schema " ++ schema_name ++ " dropped successfully") DROP schema_name.

Definition drop_schema (self : Runtime) (schema_name : string)
    (cascade if_exists : bool) : M OperationResult.t :=
  (start_time <- time_time self ;;
   try_except (drop_schema_try self schema_name cascade if_exists start_time)
     (fun e => failed self start_time "Failed to drop schema: " e
                 DROP schema_name))%M.

(** [index_def.index_type.lower() in ["hnsw", "ivfflat"] and
    index_def.vector_index_options] *)
Definition has_vector_options (index_def : IndexDefinition.t) : bool :=
  andb (str_in (lower (IndexDefinition.index_type index_def))
               ["hnsw"; "ivfflat"])
       (truthy_list (IndexDefinition.vector_index_options index_def)).

(** [", ".join(f"{k} = {v}" for k, v in options.items())] *)
Definition with_clause (options : Dict PyValue) : string :=
  join ", " (map (fun kv => fst kv ++ " = " ++ py_str (snd kv)) options).

(** The list [with_options] of [create_index]. *)
Definition with_options (options : Dict PyValue) : list string :=
  map (fun kv =>
         if is_str (snd kv)
         then fst kv ++ " = '" ++ py_str (snd kv) ++ "'"
         else fst kv ++ " = " ++ py_str (snd kv))
      options.

Definition create_index_sql (index_def : IndexDefinition.t)
    : Exc Composable :=
  let partial :=
    match IndexDefinition.partial_condition index_def with
    | Some p => p | None => EmptyString end in
  let sql_parts := ["CREATE"] in
  let sql_parts :=
    append_if (IndexDefinition.unique index_def) sql_parts "UNIQUE" in
  let sql_parts := (sql_parts ++ ["INDEX {} ON {} USING {} ({})"])%list in
  let sql_parts := append_if (truthy_str partial) sql_parts "WHERE {}" in
  let sql_parts :=
    append_if
      (andb (has_vector_options index_def)
            (truthy_list
               (with_options (IndexDefinition.vector_index_options index_def))))
      sql_parts "WITH ({})" in
  let base_sql := join " " sql_parts in
  let name := Identifier (IndexDefinition.name index_def) in
  let table := Identifier (IndexDefinition.table_name index_def) in
  let method := SQL (IndexDefinition.index_type index_def) in
  let cols := SQL_join ", " (map Identifier (IndexDefinition.columns index_def)) in
  let options := IndexDefinition.vector_index_options index_def in
  if truthy_str partial then
    if has_vector_options index_def
    then SQL_format base_sql
           [name; table; method; cols; SQL partial; SQL (with_clause options)]
    else SQL_format base_sql [name; table; method; cols; SQL partial]
  else
    if has_vector_options index_def
    then SQL_format base_sql
           [name; table; method; cols; SQL (with_clause options)]
    else SQL_format "CREATE{} INDEX {} ON {} USING {} ({})"
           [SQL (if IndexDefinition.unique index_def
                 then " UNIQUE" else EmptyString);
            name; table; method; cols].

Definition create_index_try (self : Runtime) (index_def : IndexDefinition.t)
    (start_time : Q) : M OperationResult.t :=
  run_ddl self (create_index_sql index_def) start_time
    ("Index " ++ IndexDefinition.name index_def ++ " created successfully")
    CREATE (IndexDefinition.table_name index_def).

Definition create_index (self : Runtime) (index_def : IndexDefinition.t)
    : M OperationResult.t :=
  (start_time <- time_time self ;;
   try_except (create_index_try self index_def start_time)
     (fun e => failed self start_time "Failed to create index: " e
                 CREATE (IndexDefinition.table_name index_def)))%M.

Definition drop_index_sql (index_name : string) (if_exists cascade : bool)
    : Exc Composable :=
  let sql_parts := ["DROP INDEX"] in
  let sql_parts := append_if if_exists sql_parts "IF EXISTS" in
  let sql_parts := (sql_parts ++ ["{}"])%list in
  let sql_parts := append_if cascade sql_parts "CASCADE" in
  SQL_format (join " " sql_parts) [Identifier index_name].

Definition drop_index_try (self : Runtime) (index_name : string)
    (if_exists cascade : bool) (start_time : Q) : M OperationResult.t :=
  run_ddl self (drop_index_sql index_name if_exists cascade) start_time
    ("Index " ++ index_name ++ " dropped successfully") DROP index_name.

Definition drop_index (self : Runtime) (index_name : string)
    (if_exists cascade : bool) : M OperationResult.t :=
  (start_time <- time_time self ;;
   try_except (drop_index_try self index_name if_exists cascade start_time)
     (fun e => failed self start_time "Failed to drop index: " e
                 DROP index_name))%M.

Definition drop_table_sql (table_name schema : string)
    (cascade if_exists : bool) : Exc Composable :=
  let sql_parts := ["DROP TABLE"] in
  let sql_parts := append_if if_exists sql_parts "IF EXISTS" in
  let sql_parts := (sql_parts ++ ["{}.{}"])%list in
  let sql_parts := append_if cascade sql_parts "CASCADE" in
  SQL_format (join " " sql_parts) [Identifier schema; Identifier table_name].

Definition drop_table_try (self : Runtime) (table_name schema : string)
    (cascade if_exists : bool) (start_time : Q) : M OperationResult.t :=
  run_ddl self (drop_table_sql table_name schema cascade if_exists)
    start_time
    ("Table " ++ qualified schema table_name ++ " dropped successfully")
    DROP (qualified schema table_name).

Definition drop_table (self : Runtime) (table_name schema : string)
    (cascade if_exists : bool) : M OperationResult.t :=
  (start_time <- time_time self ;;
   try_except
     (drop_table_try self table_name schema cascade if_exists start_time)
     (fun e => failed self start_time "Failed to drop table: " e
                 DROP (qualified schema table_name)))%M.

Definition create_extension_sql (extension_name : string)
    (if_not_exists : bool) (schema : option string) : Exc Composable :=
  let sql_parts := ["CREATE EXTENSION"] in
  let sql_parts := append_if if_not_exists sql_parts "IF NOT EXISTS" in
  let sql_parts := (sql_parts ++ ["{}"])%list in
  let sql_parts :=
    append_if (truthy_opt_str schema) sql_parts "WITH SCHEMA {}" in
  match schema with
  | Some (String c rest) =>
      SQL_format (join " " sql_parts)
        [Identifier extension_name; Identifier (String c rest)]
  | _ => SQL_format (join " " sql_parts) [Identifier extension_name]
  end.

Definition create_extension_try (self : Runtime) (extension_name : string)
    (if_not_exists : bool) (schema : option string) (start_time : Q)
    : M OperationResult.t :=
  run_ddl self (create_extension_sql extension_name if_not_exists schema)
    start_time
    ("Extension " ++ extension_name ++ " created successfully")
    CREATE extension_name.

Definition create_extension (self : Runtime) (extension_name : string)
    (if_not_exists : bool) (schema : option string) : M OperationResult.t :=
  (start_time <- time_time self ;;
   try_except
     (create_extension_try self extension_name if_not_exists schema
                           start_time)
     (fun e => failed self start_time "Failed to create extension: " e
                 CREATE extension_name))%M.

End SchemaOperations.

(** ** simple_schema.py *)

Module SimpleSchemaOperations.

Definition qualified (schema table_name : string) : string :=
  schema ++ "." ++ table_name.

Definition append_if (cond : bool) (sql_parts : list string) (part : string)
    : list string :=
  if cond then (sql_parts ++ [part])%list else sql_parts.

(** The [try] suite shared in shape by every operation of the class. *)
Definition run_ddl (self : Runtime) (sql : string) (start_time : Q)
    (message : string) (operation_type : OperationType)
    (table_name : string) : M OperationResult.t :=
  (_ <- execute_query self sql None ;;
   execution_time <- elapsed_ms self start_time ;;
   ret (OperationResult.mk true message operation_type table_name
          (Some execution_time) None []))%M.

(** The [except Exception as e:] suite. *)
Definition failed (self : Runtime) (start_time : Q) (prefix e : string)
    (operation_type : OperationType) (table_name : string)
    : M OperationResult.t :=
  (execution_time <- elapsed_ms self start_time ;;
   ret (OperationResult.mk false (prefix ++ e) operation_type table_name
          (Some execution_time) None []))%M.

Definition create_schema_sql (schema_name : string) (if_not_exists : bool)
    : string :=
  if if_not_exists
  then "CREATE SCHEMA IF NOT EXISTS " ++ dquote ++ schema_name ++ dquote
  else "CREATE SCHEMA " ++ dquote ++ schema_name ++ dquote.

Definition create_schema_try (self : Runtime) (schema_name : string)
    (if_not_exists : bool) (start_time : Q) : M OperationResult.t :=
  run_ddl self (create_schema_sql schema_name if_not_exists) start_time
    ("Schema " ++ schema_name ++ " created successfully") CREATE schema_name.

Definition create_schema (self : Runtime) (schema_name : string)
    (if_not_exists : bool) : M OperationResult.t :=
  (start_time <- time_time self ;;
   try_except (create_schema_try self schema_name if_not_exists start_time)
     (fun e => failed self start_time "Failed to create schema: " e
                 CREATE schema_name))%M.

Definition drop_schema_sql (schema_name : string) (cascade if_exists : bool)
    : string :=
  let sql_parts := ["DROP SCHEMA"] in
  let sql_parts := append_if if_exists sql_parts "IF EXISTS" in
  let sql_parts := (sql_parts ++ [(dquote ++ schema_name ++ dquote)%string])%list in
  let sql_parts := append_if cascade sql_parts "CASCADE" in
  join " " sql_parts.

Definition drop_schema_try (self : Runtime) (schema_name : string)
    (cascade if_exists : bool) (start_time : Q) : M OperationResult.t :=
  run_ddl self (drop_schema_sql schema_name cascade if_exists) start_time
    ("Schema " ++ schema_name ++ " dropped successfully") DROP schema_name.

Definition drop_schema (self : Runtime) (schema_name : string)
    (cascade if_exists : bool) : M OperationResult.t :=
  (start_time <- time_time self ;;
   try_except (drop_schema_try self schema_name cascade if_exists start_time)
     (fun e => failed self start_time "Failed to drop schema: " e
                 DROP schema_name))%M.

(** The list [with_options] of [create_index]. *)
Definition with_options (options : Dict PyValue) : list string :=
  map (fun kv =>
         if is_str (snd kv)
         then fst kv ++ " = '" ++ py_str (snd kv) ++ "'"
         else fst kv ++ " = " ++ py_str (snd kv))
      options.

Definition create_index_sql (index_def : IndexDefinition.t)
    (schema : string) : string :=
  let sql_parts := ["CREATE"] in
  let sql_parts :=
    append_if (IndexDefinition.unique index_def) sql_parts "UNIQUE" in
  let sql_parts :=
    (sql_parts
       ++ ["INDEX";
           (dquote ++ IndexDefinition.name index_def ++ dquote)%string;
           "ON";
           (dquote ++ schema ++ dquote ++ "." ++ dquote
            ++ IndexDefinition.table_name index_def ++ dquote)%string;
           "USING";
           IndexDefinition.index_type index_def])%list in
  let quoted_columns :=
    join ", " (map (fun col => dquote ++ col ++ dquote)
                   (IndexDefinition.columns index_def)) in
  let sql_parts := (sql_parts ++ [("(" ++ quoted_columns ++ ")")%string])%list in
  let sql_parts :=
    match IndexDefinition.partial_condition index_def with
    | Some (String c rest) => (sql_parts ++ ["WHERE"; String c rest])%list
    | _ => sql_parts
    end in
  let sql_parts :=
    if andb (str_in (lower (IndexDefinition.index_type index_def))
                    ["hnsw"; "ivfflat"])
            (truthy_list (IndexDefinition.vector_index_options index_def))
    then
      let with_options :=
        with_options (IndexDefinition.vector_index_options index_def) in
      if truthy_list with_options
      then (sql_parts
              ++ ["WITH"; ("(" ++ join ", " with_options ++ ")")%string])%list
      else sql_parts
    else sql_parts in
  join " " sql_parts.

Definition create_index_try (self : Runtime) (index_def : IndexDefinition.t)
    (schema : string) (start_time : Q) : M OperationResult.t :=
  run_ddl self (create_index_sql index_def schema) start_time
    ("Index " ++ IndexDefinition.name index_def ++ " created successfully")
    CREATE (IndexDefinition.table_name index_def).

Definition create_index (self : Runtime) (index_def : IndexDefinition.t)
    (schema : string) : M OperationResult.t :=
  (start_time <- time_time self ;;
   try_except (create_index_try self index_def schema start_time)
     (fun e => failed self start_time "Failed to create index: " e
                 CREATE (IndexDefinition.table_name index_def)))%M.

Definition drop_index_sql (index_name : string) (if_exists cascade : bool)
    : string :=
  let sql_parts := ["DROP INDEX"] in
  let sql_parts := append_if if_exists sql_parts "IF EXISTS" in
  let sql_parts := (sql_parts ++ [(dquote ++ index_name ++ dquote)%string])%list in
  let sql_parts := append_if cascade sql_parts "CASCADE" in
  join " " sql_parts.

Definition drop_index_try (self : Runtime) (index_name : string)
    (if_exists cascade : bool) (start_time : Q) : M OperationResult.t :=
  run_ddl self (drop_index_sql index_name if_exists cascade) start_time
    ("Index " ++ index_name ++ " dropped successfully") DROP index_name.

Definition drop_index (self : Runtime) (index_name : string)
    (if_exists cascade : bool) : M OperationResult.t :=
  (start_time <- time_time self ;;
   try_except (drop_index_try self index_name if_exists cascade start_time)
     (fun e => failed self start_time "Failed to drop index: " e
                 DROP index_name))%M.

Definition drop_table_sql (table_name schema : string)
    (cascade if_exists : bool) : string :=
  let sql_parts := ["DROP TABLE"] in
  let sql_parts := append_if if_exists sql_parts "IF EXISTS" in
  let sql_parts :=
    (sql_parts ++ [(dquote ++ schema ++ dquote ++ "." ++ dquote
                    ++ table_name ++ dquote)%string])%list in
  let sql_parts := append_if cascade sql_parts "CASCADE" in
  join " " sql_parts.

Definition drop_table_try (self : Runtime) (table_name schema : string)
    (cascade if_exists : bool) (start_time : Q) : M OperationResult.t :=
  run_ddl self (drop_table_sql table_name schema cascade if_exists)
    start_time
    ("Table " ++ qualified schema table_name ++ " dropped successfully")
    DROP (qualified schema table_name).

Definition drop_table (self : Runtime) (table_name schema : string)
    (cascade if_exists : bool) : M OperationResult.t :=
  (start_time <- time_time self ;;
   try_except
     (drop_table_try self table_name schema cascade if_exists start_time)
     (fun e => failed self start_time "Failed to drop table: " e
                 DROP (qualified schema table_name)))%M.

Definition create_extension_sql (extension_name : string)
    (if_not_exists : bool) (schema : option string) : string :=
  let sql_parts := ["CREATE EXTENSION"] in
  let sql_parts := append_if if_not_exists sql_parts "IF NOT EXISTS" in
  let sql_parts := (sql_parts ++ [(dquote ++ extension_name ++ dquote)%string])%list in
  let sql_parts :=
    match schema with
    | Some (String c rest) =>
        (sql_parts ++ ["WITH SCHEMA";
                       (dquote ++ String c rest ++ dquote)%string])%list
    | _ => sql_parts
    end in
  join " " sql_parts.

Definition create_extension_try (self : Runtime) (extension_name : string)
    (if_not_exists : bool) (schema : option string) (start_time : Q)
    : M OperationResult.t :=
  run_ddl self (create_extension_sql extension_name if_not_exists schema)
    start_time
    ("Extension " ++ extension_name ++ " created successfully")
    CREATE extension_name.

Definition create_extension (self : Runtime) (extension_name : string)
    (if_not_exists : bool) (schema : option string) : M OperationResult.t :=
  (start_time <- time_time self ;;
   try_except
     (create_extension_try self extension_name if_not_exists schema
                           start_time)
     (fun e => failed self start_time "Failed to create extension: " e
                 CREATE extension_name))%M.

End SimpleSchemaOperations.

(** ** vector_operations.py

    The signature of [vector_knn_search] lists [search_vector], which has
    no default, after parameters that have one; Python refuses to compile
    a module with such a signature.  The bodies are embedded as they are
    written, with the parameters in the order of the source. *)

Module VectorOperations.

Definition qualified (schema table_name : string) : string :=
  schema ++ "." ++ table_name.

Definition _format_data_type (column : ColumnDefinition.t) : Exc string :=
  let data_type := ColumnDefinition.data_type column in
  match data_type with
  | VECTOR =>
      match ColumnDefinition.vector_dimensions column with
      | None =>
          eraise ("Vector column " ++ ColumnDefinition.name column
                  ++ " must specify vector_dimensions")
      | Some n => eret ("vector(" ++ str_int n ++ ")")
      end
  | VARCHAR | CHAR => eret (DataType_value data_type ++ "(255)")
  | DECIMAL | NUMERIC => eret (DataType_value data_type ++ "(10,2)")
  | _ => eret (DataType_value data_type)
  end.

Definition special_functions : list string :=
  ["CURRENT_TIMESTAMP"; "CURRENT_DATE"; "CURRENT_TIME"; "NOW()";
   "UUID_GENERATE_V4()"].

(** The body of the loop over [columns] in [create_vector_table]. *)
Definition col_def (col : ColumnDefinition.t) : Exc string :=
  (ty <- _format_data_type col ;;
   let col_def := dquote ++ ColumnDefinition.name col ++ dquote ++ " " ++ ty in
   let col_def :=
     if negb (ColumnDefinition.nullable col)
     then col_def ++ " NOT NULL" else col_def in
   let col_def :=
     let d := ColumnDefinition.default col in
     if is_not_None d then
       if andb (is_str d) (negb (str_in (py_str d) special_functions))
       then col_def ++ " DEFAULT '" ++ py_str d ++ "'"
       else col_def ++ " DEFAULT " ++ py_str d
     else col_def in
   let col_def :=
     if ColumnDefinition.primary_key col
     then col_def ++ " PRIMARY KEY" else col_def in
   let col_def :=
     if andb (ColumnDefinition.unique col)
             (negb (ColumnDefinition.primary_key col))
     then col_def ++ " UNIQUE" else col_def in
   let col_def :=
     match ColumnDefinition.check_constraint col with
     | Some chk =>
         if truthy_str chk
         then col_def ++ " CHECK (" ++ chk ++ ")" else col_def
     | None => col_def
     end in
   eret col_def)%exc.

(** The list [columns] of [create_vector_table]. *)
Definition vector_table_columns (vector_column : string)
    (vector_dimensions : Z)
    (additional_columns : option (list ColumnDefinition.t))
    : list ColumnDefinition.t :=
  let columns :=
    [ColumnDefinition.mk "id" SERIAL false VNone true false None None;
     ColumnDefinition.mk vector_column VECTOR true VNone false false None
                         (Some vector_dimensions);
     ColumnDefinition.mk "created_at" TIMESTAMP false
                         (VStr "CURRENT_TIMESTAMP") false false None None] in
  if truthy_opt_list additional_columns
  then (columns ++ match additional_columns with
                   | Some l => l | None => [] end)%list
  else columns.

(** The statement [create_vector_table] hands to the driver. *)
Definition create_vector_table_sql (table_name schema vector_column : string)
    (vector_dimensions : Z)
    (additional_columns : option (list ColumnDefinition.t)) : Exc string :=
  (column_defs <-
     efold (fun acc col => d <- col_def col ;; eret (acc ++ [d])%list)
           (vector_table_columns vector_column vector_dimensions
                                 additional_columns) [] ;;
   let columns_sql := join ", " column_defs in
   eret ("CREATE TABLE " ++ dquote ++ schema ++ dquote ++ "." ++ dquote
         ++ table_name ++ dquote ++ " (" ++ columns_sql ++ ")"))%exc.

Definition create_vector_table_try (self : Runtime)
    (table_name schema vector_column : string) (vector_dimensions : Z)
    (additional_columns : option (list ColumnDefinition.t)) (start_time : Q)
    : M OperationResult.t :=
  (sql <- lift (create_vector_table_sql table_name schema vector_column
                  vector_dimensions additional_columns) ;;
   _ <- execute_query self sql None ;;
   execution_time <- elapsed_ms self start_time ;;
   ret (OperationResult.mk true
          ("Vector table " ++ qualified schema table_name
           ++ " created successfully with " ++ str_int vector_dimensions
           ++ "D " ++ vector_column ++ " column")
          CREATE (qualified schema table_name) (Some execution_time)
          None []))%M.

Definition create_vector_table (self : Runtime)
    (table_name schema vector_column : string) (vector_dimensions : Z)
    (additional_columns : option (list ColumnDefinition.t))
    : M OperationResult.t :=
  (start_time <- time_time self ;;
   try_except
     (create_vector_table_try self table_name schema vector_column
        vector_dimensions additional_columns start_time)
     (fun e =>
        execution_time <- elapsed_ms self start_time ;;
        ret (OperationResult.mk false
               ("Failed to create vector table: " ++ e)
               CREATE (qualified schema table_name) (Some execution_time)
               None [])))%M.

(** ["[" + ",".join(map(str, v)) + "]"] *)
Definition vector_literal (v : list PyValue) : string :=
  "[" ++ join "," (map py_str v) ++ "]".

Definition _get_distance_expression (vector_column : string)
    (search_vector : list PyValue) (distance_function : string)
    : Exc string :=
  let vector_str := vector_literal search_vector in
  if String.eqb distance_function "cosine" then
    eret (dquote ++ vector_column ++ dquote ++ " <=> '" ++ vector_str
          ++ "'::vector")
  else if String.eqb distance_function "euclidean" then
    eret (dquote ++ vector_column ++ dquote ++ " <-> '" ++ vector_str
          ++ "'::vector")
  else if String.eqb distance_function "inner_product" then
    eret (dquote ++ vector_column ++ dquote ++ " <#> '" ++ vector_str
          ++ "'::vector")
  else eraise ("Unsupported distance function: " ++ distance_function).

(** [s.endswith(suffix)] *)
Definition endswith (s suffix : string) : bool :=
  let n := String.length s in
  let k := String.length suffix in
  andb (k <=? n)%nat (String.eqb (substring (n - k) k s) suffix).

(** The statement and parameters [vector_similarity_search] hands to
    the driver.  Without [include_distance] the name [distance_expr] is
    still unbound when the projection is joined; the message is the one
    Python 3.12 gives. *)
Definition similarity_sql (table_name schema vector_column : string)
    (search_options : option VectorSearchOptions.t)
    (additional_columns : option (list string))
    : Exc (string * list PyValue) :=
  match search_options with
  | None =>
      eraise "search_options is required for vector similarity search"
  | Some search_options =>
      let distance :=
        _get_distance_expression vector_column
          (VectorSearchOptions.vector search_options)
          (VectorSearchOptions.distance_function search_options) in
      let select_columns :=
        ("id" :: match additional_columns with
                 | Some l => l | None => [] end)%list in
      ('(select_columns, bound) <-
         (if VectorSearchOptions.include_distance search_options then
            distance_expr <- distance ;;
            eret ((select_columns
                     ++ [(distance_expr ++ " AS distance")%string])%list,
                  Some distance_expr)
          else eret (select_columns, None)) ;;
       select_sql <-
         match bound with
         | Some distance_expr =>
             eret (join ", "
                     (map (fun col =>
                             if negb (String.eqb col
                                        (distance_expr ++ " AS distance"))
                             then dquote ++ col ++ dquote else col)
                          select_columns))
         | None =>
             eraise ("cannot access local variable 'distance_expr' "
                     ++ "where it is not associated with a value")
         end ;;
       let sql :=
         "SELECT " ++ select_sql ++ " FROM " ++ dquote ++ schema ++ dquote
         ++ "." ++ dquote ++ table_name ++ dquote in
       '(sql, params) <-
         (if is_not_None (VectorSearchOptions.threshold search_options) then
            distance_expr <- distance ;;
            eret (sql ++ " WHERE " ++ distance_expr ++ " < %s",
                  [VectorSearchOptions.threshold search_options])
          else eret (sql, [])) ;;
       distance_expr <- distance ;;
       let sql := sql ++ " ORDER BY " ++ distance_expr in
       let sql :=
         if negb (Z.eqb (VectorSearchOptions.limit search_options) 0)
         then sql ++ " LIMIT "
              ++ str_int (VectorSearchOptions.limit search_options)
         else sql in
       eret (sql, params))%exc
  end.

Definition vector_similarity_search_try (self : Runtime)
    (table_name schema vector_column : string)
    (search_options : option VectorSearchOptions.t)
    (additional_columns : option (list string)) (start_time : Q)
    : M QueryResult.t :=
  ('(sql, params) <-
     lift (similarity_sql table_name schema vector_column search_options
                          additional_columns) ;;
   result <- execute_query self sql (Some params) ;;
   execution_time <- elapsed_ms self start_time ;;
   let data := cells_of result in
   let column_names :=
     match data with first :: _ => keys first | [] => [] end in
   ret (QueryResult.mk true
          ("Vector similarity search completed, found " ++ str_len data
           ++ " results")
          data (Some execution_time) None
          (Some (Z.of_nat (length data))) column_names))%M.

Definition vector_similarity_search (self : Runtime)
    (table_name schema vector_column : string)
    (search_options : option VectorSearchOptions.t)
    (additional_columns : option (list string)) : M QueryResult.t :=
  (start_time <- time_time self ;;
   try_except
     (vector_similarity_search_try self table_name schema vector_column
        search_options additional_columns start_time)
     (fun e =>
        execution_time <- elapsed_ms self start_time ;;
        ret (QueryResult.mk false ("Vector similarity search failed: " ++ e)
               [] (Some execution_time) None None [])))%M.

(** The statement [vector_knn_search] hands to the driver. *)
Definition knn_sql (table_name schema vector_column : string)
    (search_vector : list PyValue) (k : Z) (distance_function : string)
    (additional_columns : option (list string)) (include_distance : bool)
    : Exc string :=
  let distance :=
    _get_distance_expression vector_column search_vector distance_function in
  let select_columns :=
    ("id" :: match additional_columns with
             | Some l => l | None => [] end)%list in
  (select_columns <-
     (if include_distance then
        distance_expr <- distance ;;
        eret (select_columns
                ++ [(distance_expr ++ " AS distance")%string])%list
      else eret select_columns) ;;
   let select_sql :=
     join ", " (map (fun col =>
                       if negb (endswith col " AS distance")
                       then dquote ++ col ++ dquote else col)
                    select_columns) in
   distance_expr <- distance ;;
   let indent := "                     " in
   eret ("SELECT " ++ select_sql ++ " " ++ newline
         ++ indent ++ "FROM " ++ dquote ++ schema ++ dquote ++ "." ++ dquote
         ++ table_name ++ dquote ++ " " ++ newline
         ++ indent ++ "ORDER BY " ++ distance_expr ++ " " ++ newline
         ++ indent ++ "LIMIT " ++ str_int k))%exc.

Definition vector_knn_search_try (self : Runtime)
    (table_name schema vector_column : string)
    (search_vector : list PyValue) (k : Z) (distance_function : string)
    (additional_columns : option (list string)) (include_distance : bool)
    (start_time : Q) : M QueryResult.t :=
  (sql <- lift (knn_sql table_name schema vector_column search_vector k
                        distance_function additional_columns
                        include_distance) ;;
   result <- execute_query self sql None ;;
   execution_time <- elapsed_ms self start_time ;;
   let data := cells_of result in
   let column_names :=
     match data with first :: _ => keys first | [] => [] end in
   ret (QueryResult.mk true
          ("Vector KNN search completed, found " ++ str_len data
           ++ " nearest neighbors")
          data (Some execution_time) None
          (Some (Z.of_nat (length data))) column_names))%M.

Definition vector_knn_search (self : Runtime)
    (table_name schema vector_column : string)
    (search_vector : list PyValue) (k : Z) (distance_function : string)
    (additional_columns : option (list string)) (include_distance : bool)
    : M QueryResult.t :=
  (start_time <- time_time self ;;
   try_except
     (vector_knn_search_try self table_name schema vector_column
        search_vector k distance_function additional_columns
        include_distance start_time)
     (fun e =>
        execution_time <- elapsed_ms self start_time ;;
        ret (QueryResult.mk false ("Vector KNN search failed: " ++ e)
               [] (Some execution_time) None None [])))%M.

(** The statement [create_vector_index] hands to the driver, and the
    index name it settles on. *)
Definition create_vector_index_sql (table_name schema vector_column : string)
    (index_name : option string) (index_type : string)
    (index_options : option (Dict PyValue)) : string * string :=
  let index_name :=
    match index_name with
    | Some n => n
    | None => "idx_" ++ table_name ++ "_" ++ vector_column ++ "_" ++ index_type
    end in
  let default_options := [("m", VInt 16); ("ef_construction", VInt 64)] in
  let default_options :=
    match index_options with
    | Some (o :: os) => dict_update default_options (o :: os)
    | _ => default_options
    end in
  let sql_parts :=
    ["CREATE INDEX";
     (dquote ++ index_name ++ dquote)%string;
     "ON";
     (dquote ++ schema ++ dquote ++ "." ++ dquote ++ table_name
      ++ dquote)%string;
     "USING";
     index_type;
     ("(" ++ dquote ++ vector_column ++ dquote ++ ")")%string] in
  let sql_parts :=
    if andb (String.eqb (lower index_type) "hnsw")
            (truthy_list default_options)
    then
      let with_options :=
        map (fun kv => fst kv ++ " = " ++ py_str (snd kv)) default_options in
      if truthy_list with_options
      then (sql_parts
              ++ ["WITH"; ("(" ++ join ", " with_options ++ ")")%string])%list
      else sql_parts
    else sql_parts in
  (join " " sql_parts, index_name).

Definition create_vector_index_try (self : Runtime)
    (table_name schema vector_column : string) (index_name : option string)
    (index_type : string) (index_options : option (Dict PyValue))
    (start_time : Q) : M OperationResult.t :=
  (let '(sql, index_name) :=
     create_vector_index_sql table_name schema vector_column index_name
                             index_type index_options in
   _ <- execute_query self sql None ;;
   execution_time <- elapsed_ms self start_time ;;
   ret (OperationResult.mk true
          ("Vector index " ++ index_name ++ " created successfully using "
           ++ index_type)
          CREATE (qualified schema table_name) (Some execution_time)
          None []))%M.

Definition create_vector_index (self : Runtime)
    (table_name schema vector_column : string) (index_name : option string)
    (index_type : string) (index_options : option (Dict PyValue))
    : M OperationResult.t :=
  (start_time <- time_time self ;;
   try_except
     (create_vector_index_try self table_name schema vector_column
        index_name index_type index_options start_time)
     (fun e =>
        execution_time <- elapsed_ms self start_time ;;
        ret (OperationResult.mk false
               ("Failed to create vector index: " ++ e)
               CREATE (qualified schema table_name) (Some execution_time)
               None [])))%M.

(** The list [data_rows] of [insert_vector_data]. *)
Definition data_rows (vectors : list (list PyValue)) (vector_column : string)
    (additional_data : option (list Record_)) : list Record_ :=
  map (fun iv =>
         let '(i, vector) := iv in
         let row_data := [(vector_column, VList vector)] in
         match additional_data with
         | Some (a :: rest) =>
             match nth_error (a :: rest) i with
             | Some extra => dict_update row_data extra
             | None => row_data
             end
         | _ => row_data
         end)
      (enumerate vectors).

(** The inner loop of [insert_vector_data]: the parameters of one row. *)
Definition row_params (self : Runtime) (vector_column : string)
    (columns : list string) (row : Record_) : Exc (list PyValue) :=
  efold (fun params col =>
           let value := row_get row col in
           value <-
             (if String.eqb col vector_column then
                match value with
                | VList l => eret (VStr (vector_literal l))
                | _ => eret value
                end
              else
                match value with
                | VDict _ | VList _ =>
                    s <- json_dumps self value ;; eret (VStr s)
                | _ => eret value
                end) ;;
           eret (params ++ [value])%list)%exc
        columns [].

(** One round of [for row in data_rows]. *)
Definition insert_step (self : Runtime) (sql vector_column : string)
    (columns : list string) (returning_columns : option (list string))
    (acc : list Record_ * Z) (row : Record_) : M (list Record_ * Z) :=
  let '(returned_data, affected_rows) := acc in
  (params <- lift (row_params self vector_column columns row) ;;
   result <- execute_query self sql (Some params) ;;
   let affected_rows := (affected_rows + 1)%Z in
   ret (if andb (truthy_opt_list result) (truthy_opt_list returning_columns)
        then ((returned_data ++ cells_of result)%list, affected_rows)
        else (returned_data, affected_rows)))%M.

(** The statement [insert_vector_data] builds before its loop. *)
Definition insert_sql (table_name : string) (columns : list string)
    (schema : string) (returning_columns : option (list string)) : string :=
  let quoted_columns :=
    join ", " (map (fun col => dquote ++ col ++ dquote) columns) in
  let placeholders := join ", " (replicate (length columns) "%s") in
  let sql :=
    "INSERT INTO " ++ dquote ++ schema ++ dquote ++ "." ++ dquote
    ++ table_name ++ dquote ++ " (" ++ quoted_columns ++ ") VALUES ("
    ++ placeholders ++ ")" in
  match returning_columns with
  | Some (c :: cs) =>
      let quoted_returning :=
        join ", " (map (fun col => dquote ++ col ++ dquote) (c :: cs)) in
      sql ++ " RETURNING " ++ quoted_returning
  | _ => sql
  end.

Definition insert_vector_data_try (self : Runtime) (table_name : string)
    (vectors : list (list PyValue)) (schema vector_column : string)
    (additional_data : option (list Record_))
    (returning_columns : option (list string)) (start_time : Q)
    : M OperationResult.t :=
  match vectors with
  | [] => raise "No vectors provided for insert"
  | _ =>
      let data_rows := data_rows vectors vector_column additional_data in
      match data_rows with
      | [] => raise "list index out of range"
      | first :: _ =>
          let columns := keys first in
          let sql := insert_sql table_name columns schema returning_columns in
          ('(returned_data, affected_rows) <-
             mfold (insert_step self sql vector_column columns
                                returning_columns)
                   data_rows ([], 0%Z) ;;
           execution_time <- elapsed_ms self start_time ;;
           ret (OperationResult.mk true
                  ("Successfully inserted " ++ str_int affected_rows
                   ++ " vector record(s) into "
                   ++ qualified schema table_name)
                  INSERT (qualified schema table_name) (Some execution_time)
                  (Some affected_rows) returned_data))%M
      end
  end.

Definition insert_vector_data (self : Runtime) (table_name : string)
    (vectors : list (list PyValue)) (schema vector_column : string)
    (additional_data : option (list Record_))
    (returning_columns : option (list string)) : M OperationResult.t :=
  (start_time <- time_time self ;;
   try_except
     (insert_vector_data_try self table_name vectors schema vector_column
        additional_data returning_columns start_time)
     (fun e =>
        execution_time <- elapsed_ms self start_time ;;
        ret (OperationResult.mk false
               ("Failed to insert vector data: " ++ e)
               INSERT (qualified schema table_name) (Some execution_time)
               None [])))%M.

Definition index_stats_sql : string := "
            SELECT 
                schemaname,
                tablename,
                indexname,
                indexdef,
                pg_size_pretty(pg_relation_size(indexname::regclass)) AS index_size,
                (SELECT amname FROM pg_am WHERE oid = (
                    SELECT relam FROM pg_class WHERE relname = indexname
                )) AS index_method,
                (SELECT n_tup_ins FROM pg_stat_user_tables WHERE 
                 schemaname = %s AND tablename = %s) AS table_inserts,
                (SELECT n_tup_upd FROM pg_stat_user_tables WHERE 
                 schemaname = %s AND tablename = %s) AS table_updates,
                (SELECT n_tup_del FROM pg_stat_user_tables WHERE 
                 schemaname = %s AND tablename = %s) AS table_deletes
            FROM pg_indexes 
            WHERE schemaname = %s 
            AND tablename = %s 
            AND indexdef LIKE %s
            ".

Definition get_vector_index_stats_try (self : Runtime)
    (table_name schema vector_column : string) (start_time : Q)
    : M QueryResult.t :=
  (let column_pattern := "%" ++ vector_column ++ "%" in
   let params :=
     [VStr schema; VStr table_name; VStr schema; VStr table_name;
      VStr schema; VStr table_name; VStr schema; VStr table_name;
      VStr column_pattern] in
   result <- execute_query self index_stats_sql (Some params) ;;
   execution_time <- elapsed_ms self start_time ;;
   let data := cells_of result in
   let column_names :=
     match data with first :: _ => keys first | [] => [] end in
   ret (QueryResult.mk true
          ("Vector index statistics retrieved for "
           ++ qualified schema table_name)
          data (Some execution_time) None
          (Some (Z.of_nat (length data))) column_names))%M.

Definition get_vector_index_stats (self : Runtime)
    (table_name schema vector_column : string) : M QueryResult.t :=
  (start_time <- time_time self ;;
   try_except
     (get_vector_index_stats_try self table_name schema vector_column
                                 start_time)
     (fun e =>
        execution_time <- elapsed_ms self start_time ;;
        ret (QueryResult.mk false
               ("Failed to get vector index stats: " ++ e)
               [] (Some execution_time) None None [])))%M.

Definition optimize_vector_index_try (self : Runtime)
    (index_name schema : string) (start_time : Q) : M OperationResult.t :=
  (let sql :=
     "REINDEX INDEX " ++ dquote ++ schema ++ dquote ++ "." ++ dquote
     ++ index_name ++ dquote in
   _ <- execute_query self sql None ;;
   execution_time <- elapsed_ms self start_time ;;
   ret (OperationResult.mk true
          ("Vector index " ++ qualified schema index_name
           ++ " optimized successfully")
          UPDATE (qualified schema index_name) (Some execution_time)
          None []))%M.

Definition optimize_vector_index (self : Runtime)
    (index_name schema : string) : M OperationResult.t :=
  (start_time <- time_time self ;;
   try_except (optimize_vector_index_try self index_name schema start_time)
     (fun e =>
        execution_time <- elapsed_ms self start_time ;;
        ret (OperationResult.mk false
               ("Failed to optimize vector index: " ++ e)
               UPDATE (qualified schema index_name) (Some execution_time)
               None [])))%M.

End VectorOperations.

(** ** The public operations, as one family

    Every public coroutine of the five classes with the arguments of one
    call.  The family exists to state properties of all of them at once. *)

Inductive PublicCall : Type :=
| Crud_create_table (table_def : TableDefinition.t)
| Crud_insert_records (table_name : string) (data : list Record_)
    (schema : string) (returning_columns : option (list string))
| Crud_update_records (table_name : string) (data : Record_)
    (conditions : list QueryCondition.t) (schema : string)
    (returning_columns : option (list string))
| Crud_delete_records (table_name : string)
    (conditions : list QueryCondition.t) (schema : string)
    (returning_columns : option (list string))
| Crud_query_records (table_name : string) (columns : option (list string))
    (conditions : option (list QueryCondition.t))
    (options : option QueryOptions.t) (schema : string)
| Simple_create_table (table_def : TableDefinition.t)
| Simple_insert_records (table_name : string) (data : list Record_)
    (schema : string) (returning_columns : option (list string))
| Simple_update_records (table_name : string) (data : Record_)
    (conditions : list QueryCondition.t) (schema : string)
    (returning_columns : option (list string))
| Simple_delete_records (table_name : string)
    (conditions : list QueryCondition.t) (schema : string)
    (returning_columns : option (list string))
| Simple_query_records (table_name : string) (columns : option (list string))
    (conditions : option (list QueryCondition.t))
    (options : option QueryOptions.t) (schema : string)
| Schema_create_schema (schema_name : string) (if_not_exists : bool)
| Schema_drop_schema (schema_name : string) (cascade if_exists : bool)
| Schema_create_index (index_def : IndexDefinition.t)
| Schema_drop_index (index_name : string) (if_exists cascade : bool)
| Schema_drop_table (table_name schema : string) (cascade if_exists : bool)
| Schema_create_extension (extension_name : string) (if_not_exists : bool)
    (schema : option string)
| SimpleSchema_create_schema (schema_name : string) (if_not_exists : bool)
| SimpleSchema_drop_schema (schema_name : string) (cascade if_exists : bool)
| SimpleSchema_create_index (index_def : IndexDefinition.t) (schema : string)
| SimpleSchema_drop_index (index_name : string) (if_exists cascade : bool)
| SimpleSchema_drop_table (table_name schema : string)
    (cascade if_exists : bool)
| SimpleSchema_create_extension (extension_name : string)
    (if_not_exists : bool) (schema : option string)
| Vector_create_vector_table (table_name schema vector_column : string)
    (vector_dimensions : Z)
    (additional_columns : option (list ColumnDefinition.t))
| Vector_similarity_search (table_name schema vector_column : string)
    (search_options : option VectorSearchOptions.t)
    (additional_columns : option (list string))
| Vector_knn_search (table_name schema vector_column : string)
    (search_vector : list PyValue) (k : Z) (distance_function : string)
    (additional_columns : option (list string)) (include_distance : bool)
| Vector_create_vector_index (table_name schema vector_column : string)
    (index_name : option string) (index_type : string)
    (index_options : option (Dict PyValue))
| Vector_insert_vector_data (table_name : string)
    (vectors : list (list PyValue)) (schema vector_column : string)
    (additional_data : option (list Record_))
    (returning_columns : option (list string))
| Vector_get_vector_index_stats (table_name schema vector_column : string)
| Vector_optimize_vector_index (index_name schema : string).

(** What a public operation hands back to its caller. *)
Inductive Outcome : Type :=
| Operation (r : OperationResult.t)
| Query (r : QueryResult.t).

Definition outcome_success (o : Outcome) : bool :=
  match o with
  | Operation r => OperationResult.success r
  | Query r => QueryResult.success r
  end.

Definition outcome_message (o : Outcome) : string :=
  match o with
  | Operation r => OperationResult.message r
  | Query r => QueryResult.message r
  end.

Definition outcome_time (o : Outcome) : option Q :=
  match o with
  | Operation r => OperationResult.execution_time_ms r
  | Query r => QueryResult.execution_time_ms r
  end.

Definition as_operation (c : M OperationResult.t) : M Outcome :=
  fun log =>
    match c log with
    | (inl e, log') => (inl e, log')
    | (inr r, log') => (inr (Operation r), log')
    end.

Definition as_query (c : M QueryResult.t) : M Outcome :=
  fun log =>
    match c log with
    | (inl e, log') => (inl e, log')
    | (inr r, log') => (inr (Query r), log')
    end.

(** The call itself. *)
Definition invoke (self : Runtime) (call : PublicCall) : M Outcome :=
  match call with
  | Crud_create_table t => as_operation (CrudOperations.create_table self t)
  | Crud_insert_records t d s r =>
      as_operation (CrudOperations.insert_records self t d s r)
  | Crud_update_records t d c s r =>
      as_operation (CrudOperations.update_records self t d c s r)
  | Crud_delete_records t c s r =>
      as_operation (CrudOperations.delete_records self t c s r)
  | Crud_query_records t cols c o s =>
      as_query (CrudOperations.query_records self t cols c o s)
  | Simple_create_table t =>
      as_operation (SimpleCrudOperations.create_table self t)
  | Simple_insert_records t d s r =>
      as_operation (SimpleCrudOperations.insert_records self t d s r)
  | Simple_update_records t d c s r =>
      as_operation (SimpleCrudOperations.update_records self t d c s r)
  | Simple_delete_records t c s r =>
      as_operation (SimpleCrudOperations.delete_records self t c s r)
  | Simple_query_records t cols c o s =>
      as_query (SimpleCrudOperations.query_records self t cols c o s)
  | Schema_create_schema n i =>
      as_operation (SchemaOperations.create_schema self n i)
  | Schema_drop_schema n c i =>
      as_operation (SchemaOperations.drop_schema self n c i)
  | Schema_create_index d =>
      as_operation (SchemaOperations.create_index self d)
  | Schema_drop_index n i c =>
      as_operation (SchemaOperations.drop_index self n i c)
  | Schema_drop_table t s c i =>
      as_operation (SchemaOperations.drop_table self t s c i)
  | Schema_create_extension n i s =>
      as_operation (SchemaOperations.create_extension self n i s)
  | SimpleSchema_create_schema n i =>
      as_operation (SimpleSchemaOperations.create_schema self n i)
  | SimpleSchema_drop_schema n c i =>
      as_operation (SimpleSchemaOperations.drop_schema self n c i)
  | SimpleSchema_create_index d s =>
      as_operation (SimpleSchemaOperations.create_index self d s)
  | SimpleSchema_drop_index n i c =>
      as_operation (SimpleSchemaOperations.drop_index self n i c)
  | SimpleSchema_drop_table t s c i =>
      as_operation (SimpleSchemaOperations.drop_table self t s c i)
  | SimpleSchema_create_extension n i s =>
      as_operation (SimpleSchemaOperations.create_extension self n i s)
  | Vector_create_vector_table t s v d a =>
      as_operation (VectorOperations.create_vector_table self t s v d a)
  | Vector_similarity_search t s v o a =>
      as_query (VectorOperations.vector_similarity_search self t s v o a)
  | Vector_knn_search t s v q k f a i =>
      as_query (VectorOperations.vector_knn_search self t s v q k f a i)
  | Vector_create_vector_index t s v n ty o =>
      as_operation (VectorOperations.create_vector_index self t s v n ty o)
  | Vector_insert_vector_data t vs s v a r =>
      as_operation (VectorOperations.insert_vector_data self t vs s v a r)
  | Vector_get_vector_index_stats t s v =>
      as_query (VectorOperations.get_vector_index_stats self t s v)
  | Vector_optimize_vector_index n s =>
      as_operation (VectorOperations.optimize_vector_index self n s)
  end.

(** The [try] suite of the call, entered at [start_time]. *)
Definition try_suite (self : Runtime) (call : PublicCall) (start_time : Q)
    : M Outcome :=
  match call with
  | Crud_create_table t =>
      as_operation (CrudOperations.create_table_try self t start_time)
  | Crud_insert_records t d s r =>
      as_operation (CrudOperations.insert_records_try self t d s r start_time)
  | Crud_update_records t d c s r =>
      as_operation (CrudOperations.update_records_try self t d c s r start_time)
  | Crud_delete_records t c s r =>
      as_operation (CrudOperations.delete_records_try self t c s r start_time)
  | Crud_query_records t cols c o s =>
      as_query (CrudOperations.query_records_try self t cols c o s start_time)
  | Simple_create_table t =>
      as_operation (SimpleCrudOperations.create_table_try self t start_time)
  | Simple_insert_records t d s r =>
      as_operation
        (SimpleCrudOperations.insert_records_try self t d s r start_time)
  | Simple_update_records t d c s r =>
      as_operation
        (SimpleCrudOperations.update_records_try self t d c s r start_time)
  | Simple_delete_records t c s r =>
      as_operation
        (SimpleCrudOperations.delete_records_try self t c s r start_time)
  | Simple_query_records t cols c o s =>
      as_query
        (SimpleCrudOperations.query_records_try self t cols c o s start_time)
  | Schema_create_schema n i =>
      as_operation (SchemaOperations.create_schema_try self n i start_time)
  | Schema_drop_schema n c i =>
      as_operation (SchemaOperations.drop_schema_try self n c i start_time)
  | Schema_create_index d =>
      as_operation (SchemaOperations.create_index_try self d start_time)
  | Schema_drop_index n i c =>
      as_operation (SchemaOperations.drop_index_try self n i c start_time)
  | Schema_drop_table t s c i =>
      as_operation (SchemaOperations.drop_table_try self t s c i start_time)
  | Schema_create_extension n i s =>
      as_operation
        (SchemaOperations.create_extension_try self n i s start_time)
  | SimpleSchema_create_schema n i =>
      as_operation
        (SimpleSchemaOperations.create_schema_try self n i start_time)
  | SimpleSchema_drop_schema n c i =>
      as_operation
        (SimpleSchemaOperations.drop_schema_try self n c i start_time)
  | SimpleSchema_create_index d s =>
      as_operation
        (SimpleSchemaOperations.create_index_try self d s start_time)
  | SimpleSchema_drop_index n i c =>
      as_operation
        (SimpleSchemaOperations.drop_index_try self n i c start_time)
  | SimpleSchema_drop_table t s c i =>
      as_operation
        (SimpleSchemaOperations.drop_table_try self t s c i start_time)
  | SimpleSchema_create_extension n i s =>
      as_operation
        (SimpleSchemaOperations.create_extension_try self n i s start_time)
  | Vector_create_vector_table t s v d a =>
      as_operation
        (VectorOperations.create_vector_table_try self t s v d a start_time)
  | Vector_similarity_search t s v o a =>
      as_query
        (VectorOperations.vector_similarity_search_try self t s v o a
           start_time)
  | Vector_knn_search t s v q k f a i =>
      as_query
        (VectorOperations.vector_knn_search_try self t s v q k f a i
           start_time)
  | Vector_create_vector_index t s v n ty o =>
      as_operation
        (VectorOperations.create_vector_index_try self t s v n ty o
           start_time)
  | Vector_insert_vector_data t vs s v a r =>
      as_operation
        (VectorOperations.insert_vector_data_try self t vs s v a r start_time)
  | Vector_get_vector_index_stats t s v =>
      as_query
        (VectorOperations.get_vector_index_stats_try self t s v start_time)
  | Vector_optimize_vector_index n s =>
      as_operation
        (VectorOperations.optimize_vector_index_try self n s start_time)
  end.

(** The text each operation puts before [str(e)] in a failure message. *)
Definition failure_prefix (call : PublicCall) : string :=
  match call with
  | Crud_create_table _ | Simple_create_table _ => "Failed to create table: "
  | Crud_insert_records _ _ _ _ | Simple_insert_records _ _ _ _ =>
      "Failed to insert records: "
  | Crud_update_records _ _ _ _ _ | Simple_update_records _ _ _ _ _ =>
      "Failed to update records: "
  | Crud_delete_records _ _ _ _ | Simple_delete_records _ _ _ _ =>
      "Failed to delete records: "
  | Crud_query_records _ _ _ _ _ | Simple_query_records _ _ _ _ _ =>
      "Failed to query records: "
  | Schema_create_schema _ _ | SimpleSchema_create_schema _ _ =>
      "Failed to create schema: "
  | Schema_drop_schema _ _ _ | SimpleSchema_drop_schema _ _ _ =>
      "Failed to drop schema: "
  | Schema_create_index _ | SimpleSchema_create_index _ _ =>
      "Failed to create index: "
  | Schema_drop_index _ _ _ | SimpleSchema_drop_index _ _ _ =>
      "Failed to drop index: "
  | Schema_drop_table _ _ _ _ | SimpleSchema_drop_table _ _ _ _ =>
      "Failed to drop table: "
  | Schema_create_extension _ _ _ | SimpleSchema_create_extension _ _ _ =>
      "Failed to create extension: "
  | Vector_create_vector_table _ _ _ _ _ => "Failed to create vector table: "
  | Vector_similarity_search _ _ _ _ _ => "Vector similarity search failed: "
  | Vector_knn_search _ _ _ _ _ _ _ _ => "Vector KNN search failed: "
  | Vector_create_vector_index _ _ _ _ _ _ => "Failed to create vector index: "
  | Vector_insert_vector_data _ _ _ _ _ _ => "Failed to insert vector data: "
  | Vector_get_vector_index_stats _ _ _ => "Failed to get vector index stats: "
  | Vector_optimize_vector_index _ _ => "Failed to optimize vector index: "
  end.

(** ** Vocabulary of the properties *)

(** The condition is a NULL check, by the test of the source. *)
Definition is_null_check (c : QueryCondition.t) : bool :=
  str_in (upper (QueryCondition.operator c)) ["IS NULL"; "IS NOT NULL"].

(** The condition is an IN or NOT IN, by the test of the source. *)
Definition is_membership (c : QueryCondition.t) : bool :=
  str_in (upper (QueryCondition.operator c)) ["IN"; "NOT IN"].

(** [isinstance(v, (list, tuple))] *)
Definition is_sequence (v : PyValue) : bool :=
  match v with VList _ | VTuple _ => true | _ => false end.

(** [len(v)] of a list or tuple. *)
Definition sequence_length (v : PyValue) : nat :=
  match v with VList l | VTuple l => length l | _ => 0 end.

(** The number of parameters the specification gives one condition:
    none for a NULL check, the length of the sequence for IN and NOT IN,
    one otherwise. *)
Definition parameter_count (c : QueryCondition.t) : nat :=
  if is_null_check c then 0
  else if is_membership c then sequence_length (QueryCondition.value c)
  else 1.

(** The parameters one condition contributes, in order. *)
Definition condition_parameters (c : QueryCondition.t) : list PyValue :=
  if is_null_check c then []
  else if is_membership c then
    match QueryCondition.value c with
    | VList l | VTuple l => l
    | _ => []
    end
  else [QueryCondition.value c].

(** The condition passes the check the compiler makes on it. *)
Definition well_formed (c : QueryCondition.t) : bool :=
  if is_null_check c then true
  else if is_membership c then is_sequence (QueryCondition.value c)
  else true.

(** The loop over the conditions read as a recursion on the list that
    remembers the condition before the current one.  [clause_of] is the
    branch on the operator, [connector] the piece put in front of every
    condition but the first. *)
Fixpoint where_rec {Clause : Type}
    (clause_of : QueryCondition.t -> list PyValue
                 -> Exc (Clause * list PyValue))
    (connector : QueryCondition.t -> Clause)
    (prev : option QueryCondition.t) (l : list QueryCondition.t)
    (acc : list Clause * list PyValue) : Exc (list Clause * list PyValue) :=
  match l with
  | [] => eret acc
  | c :: rest =>
      match clause_of c (snd acc) with
      | inl e => inl e
      | inr (clause, params) =>
          let clauses :=
            match prev with
            | Some p => (fst acc ++ [connector p])%list
            | None => fst acc
            end in
          where_rec clause_of connector (Some c) rest
                    ((clauses ++ [clause])%list, params)
      end
  end.

(** The condition the loop has just left behind after running over [l]. *)
Definition prev_after (prev : option QueryCondition.t)
    (l : list QueryCondition.t) : option QueryCondition.t :=
  fold_left (fun _ c => Some c) l prev.

(** The connector of the psycopg builder and of the string builder. *)
Definition crud_connector (p : QueryCondition.t) : Composable :=
  SQL (" " ++ upper (QueryCondition.logical_operator p) ++ " ").

Definition simple_connector (p : QueryCondition.t) : string :=
  " " ++ upper (QueryCondition.logical_operator p) ++ " ".

(** The text of a list of composables put side by side. *)
Fixpoint render_all (l : list Composable) : string :=
  match l with
  | [] => EmptyString
  | p :: rest => as_string p ++ render_all rest
  end.

(** The operator the specification assigns to a distance function. *)
Definition spec_distance_operator (distance_function : string)
    : option string :=
  if String.eqb distance_function "cosine" then Some "<=>"
  else if String.eqb distance_function "euclidean" then Some "<->"
  else if String.eqb distance_function "inner_product" then Some "<#>"
  else None.

(** ** Sample inputs *)

(** Four conditions: a comparison joined by OR to what follows, a
    comparison, a membership test written in lower case, a NULL check. *)
Definition sample_conditions : list QueryCondition.t :=
  [QueryCondition.mk "age" ">" (VInt 25) "or";
   QueryCondition.mk "active" "=" (VBool true) "AND";
   QueryCondition.mk "id" "in" (VList [VInt 1; VInt 2]) "AND";
   QueryCondition.mk "deleted_at" "IS NULL" VNone "AND"].

(** A query result that reports the rows it carries: [total_count] is
    their number and [columns] the keys of the first of them. *)
Definition reports_returned_rows (r : QueryResult.t) : Prop :=
  QueryResult.total_count r = Some (Z.of_nat (length (QueryResult.data r)))
  /\ QueryResult.columns r
     = match QueryResult.data r with
       | first :: _ => keys first
       | [] => []
       end.

(** A query result that carries the driver's reply: the call sent one
    statement from [log], the driver returned [rows] for it, and [data]
    holds the cells of exactly those rows, in their order. *)
Definition carries_reply (self : Runtime) (log log' : Log)
    (r : QueryResult.t) : Prop :=
  exists c rows,
    log' = (log ++ [c])%list
    /\ sql_driver self log c = Returns rows
    /\ QueryResult.data r = cells_of rows.


Definition query_rejected_before_driver (run : M QueryResult.t) (log : Log)
    : Prop :=
  exists r, run log = (inr r, log) /\ QueryResult.success r = false.

(** The rows the driver returned to the call recorded at position [k]
    of [log]. *)
Definition reply_at (self : Runtime) (log : Log) (k : nat)
    : option (list RowResult.t) :=
  match nth_error log k with
  | Some c =>
      match sql_driver self (firstn k log) c with
      | Returns rows => rows
      | Raises _ => None
      end
  | None => None
  end.

(** Modelled from the spec: the reply of the driver (package
    [postgres_mcp.sql], of which only the callers are in the sources) to
    an INSERT, UPDATE or DELETE that touches the rows [affected].  The
    driver is "execute(statement, parameters) -> rows", and RETURNING is
    "a DML extension that yields rows affected by an INSERT/UPDATE/DELETE":
    with the clause the touched rows come back, projected on its columns;
    without it no row does. *)
Definition dml_reply (affected : list Record_)
    (returning_columns : option (list string)) : Reply :=
  match returning_columns with
  | Some (c :: cs) =>
      Returns (Some (map (fun row =>
                            RowResult.mk
                              (map (fun col => (col, row_get row col))
                                   (c :: cs)))
                         affected))
  | _ => Returns None
  end.

(** A clock that advances one second with every statement executed. *)
Definition sample_clock (log : Log) : Q := inject_Z (Z.of_nat (length log)).

Definition no_json (v : PyValue) : Exc string :=
  eraise "Object is not JSON serializable".

(** A driver over a table whose statements touch the rows [affected]. *)
Definition dml_runtime (affected : list Record_)
    (returning_columns : option (list string)) : Runtime :=
  mkRuntime (fun _ _ => dml_reply affected returning_columns)
            sample_clock no_json.

(** A driver that answers every statement with the rows [rows]. *)
Definition constant_runtime (rows : option (list RowResult.t)) : Runtime :=
  mkRuntime (fun _ _ => Returns rows) sample_clock no_json.

(** A driver that hands out consecutive identifiers, one row per
    statement, with the columns [id] and [name]. *)
Definition serial_runtime : Runtime :=
  mkRuntime
    (fun log c =>
       Returns (Some [RowResult.mk
                        [("id", VInt (Z.of_nat (S (length log))));
                         ("name", match call_params c with
                                  | Some (v :: _) => v
                                  | _ => VNone
                                  end)]]))
    sample_clock no_json.

(** Scenario A of the specification: two records, two columns back. *)
Definition scenario_A_data : list Record_ :=
  [[("name", VStr "a")]; [("name", VStr "b")]].

(** Scenario B of the specification: the row matched by [id = 1]. *)
Definition scenario_B_row : Record_ := [("id", VInt 1); ("name", VStr "z")].

Definition scenario_B_conditions : list QueryCondition.t :=
  [QueryCondition.mk "id" "=" (VInt 1) "AND"].



(** A page of five rows after the first two. *)
Definition sample_page : QueryOptions.t :=
  QueryOptions.mk (Some 5%Z) (Some 2%Z) [] [] [].

Definition sample_search : VectorSearchOptions.t :=
  VectorSearchOptions.mk [VInt 0; VInt 0; VInt 0] "euclidean" 1 VNone true.

(** The audit column of [create_vector_table], as a caller would pass it
    to [create_table]. *)
Definition created_at_column : ColumnDefinition.t :=
  ColumnDefinition.mk "created_at" TIMESTAMP false (VStr "CURRENT_TIMESTAMP")
                      false false None None.

(** The DEFAULT part of a column clause when every string is quoted. *)
Definition quoting_default (d : PyValue) : string :=
  if is_not_None d then
    if is_str d then " DEFAULT '" ++ py_str d ++ "'"
    else " DEFAULT " ++ py_str d
  else EmptyString.

(** The DEFAULT part of a column clause when the strings of [functions]
    are left as they are and every other string is quoted. *)
Definition recognizing_default (functions : list string) (d : PyValue)
    : string :=
  if is_not_None d then
    if andb (is_str d) (negb (str_in (py_str d) functions))
    then " DEFAULT '" ++ py_str d ++ "'"
    else " DEFAULT " ++ py_str d
  else EmptyString.

(** The column clause of the specification: name and type, then NOT NULL,
    DEFAULT, PRIMARY KEY, UNIQUE and CHECK, in that order. *)
Definition column_clause (default_part : PyValue -> string)
    (col : ColumnDefinition.t) (ty : string) : string :=
  dquote ++ ColumnDefinition.name col ++ dquote ++ " " ++ ty
  ++ (if ColumnDefinition.nullable col then EmptyString else " NOT NULL")
  ++ default_part (ColumnDefinition.default col)
  ++ (if ColumnDefinition.primary_key col then " PRIMARY KEY" else EmptyString)
  ++ (if andb (ColumnDefinition.unique col)
              (negb (ColumnDefinition.primary_key col))
      then " UNIQUE" else EmptyString)
  ++ match ColumnDefinition.check_constraint col with
     | Some chk =>
         if truthy_str chk then " CHECK (" ++ chk ++ ")" else EmptyString
     | None => EmptyString
     end.

(** ** Vocabulary of the further properties *)

(** The number of occurrences of a character in a text. *)
Fixpoint count_char (c : ascii) (s : string) : nat :=
  match s with
  | EmptyString => 0
  | String c' rest =>
      (if Ascii.eqb c c' then 1 else 0) + count_char c rest
  end.

(** The percent sign, which opens every placeholder of the driver. *)
Definition percent : ascii := ascii_of_nat 37.

(** The number of percent signs: in a statement whose names hold none,
    the number of placeholders. *)
Definition placeholders (s : string) : nat := count_char percent s.

(** The text holds no double quote. *)
Definition quote_free (s : string) : bool :=
  negb (contains_char (ascii_of_nat 34) s).

(** The condition names its column, its operator and its connector
    without a percent sign. *)
Definition percent_free (c : QueryCondition.t) : Prop :=
  placeholders (QueryCondition.column c) = 0%nat
  /\ placeholders (QueryCondition.operator c) = 0%nat
  /\ placeholders (QueryCondition.logical_operator c) = 0%nat.

(** The column has a type the formatter can render: every type but a
    vector without dimensions. *)
Definition renderable (col : ColumnDefinition.t) : bool :=
  match ColumnDefinition.data_type col,
        ColumnDefinition.vector_dimensions col with
  | VECTOR, None => false
  | _, _ => true
  end.

(** The index method is one of the two vector methods, by the test of
    the source. *)
Definition is_vector_method (index_type : string) : bool :=
  str_in (lower index_type) ["hnsw"; "ivfflat"].

(** The name is one of the three distance functions
    [_get_distance_expression] knows. *)
Definition is_distance_function (distance_function : string) : bool :=
  str_in distance_function ["cosine"; "euclidean"; "inner_product"].


(** The call is an operation of one of the two schema classes. *)
Definition is_schema_operation (call : PublicCall) : bool :=
  match call with
  | Schema_create_schema _ _ | Schema_drop_schema _ _ _
  | Schema_create_index _ | Schema_drop_index _ _ _
  | Schema_drop_table _ _ _ _ | Schema_create_extension _ _ _
  | SimpleSchema_create_schema _ _ | SimpleSchema_drop_schema _ _ _
  | SimpleSchema_create_index _ _ | SimpleSchema_drop_index _ _ _
  | SimpleSchema_drop_table _ _ _ _ | SimpleSchema_create_extension _ _ _ =>
      true
  | _ => false
  end.

(** The driver returns, rather than raises, on the call made from [log]. *)
Definition driver_returns (self : Runtime) (log : Log) (c : Call) : bool :=
  match sql_driver self log c with
  | Returns _ => true
  | Raises _ => false
  end.

(** The driver returns on every one of [calls], made one after the other
    from [log]. *)
Fixpoint driver_executes (self : Runtime) (log : Log) (calls : list Call)
    : bool :=
  match calls with
  | [] => true
  | c :: rest =>
      driver_returns self log c
      && driver_executes self (log ++ [c])%list rest
  end.


(** The number of statements a call may send: one for each record of a
    batch insert, one for every other operation. *)
Definition statement_budget (call : PublicCall) : nat :=
  match call with
  | Crud_insert_records _ data _ _ | Simple_insert_records _ data _ _ =>
      length data
  | Vector_insert_vector_data _ vectors _ _ _ _ => length vectors
  | _ => 1
  end.


(** No name listed in the options holds a percent sign: the GROUP BY
    columns, the HAVING conditions, the values of the ORDER BY entries. *)
Definition options_percent_free (options : option QueryOptions.t) : Prop :=
  match options with
  | None => True
  | Some o =>
      Forall (fun c => placeholders c = 0%nat) (QueryOptions.group_by o)
      /\ Forall percent_free (QueryOptions.having o)
      /\ Forall (fun order =>
                   Forall (fun kv => placeholders (snd kv) = 0%nat) order)
                (QueryOptions.order_by o)
  end.

(** The parameters [_build_select_sql] binds for its options: those of
    the HAVING conditions, then the limit, then the offset, each of the
    two only when it is not zero. *)
Definition option_parameters (options : option QueryOptions.t)
    : list PyValue :=
  match options with
  | None => []
  | Some o =>
      (flat_map condition_parameters (QueryOptions.having o)
       ++ (if truthy_opt_int (QueryOptions.limit o)
           then [py_opt_int (QueryOptions.limit o)] else [])
       ++ (if truthy_opt_int (QueryOptions.offset o)
           then [py_opt_int (QueryOptions.offset o)] else []))%list
  end.


(** The call [insert_vector_data] makes for one vector when no additional
    data is given. *)
Definition vector_call (table_name schema vector_column : string)
    (returning_columns : option (list string)) (vector : list PyValue)
    : Call :=
  mkCall (VectorOperations.insert_sql table_name [vector_column] schema
                                      returning_columns)
         (Some [VStr (VectorOperations.vector_literal vector)]).


(** [isinstance(value, (dict, list))] *)
Definition is_container (value : PyValue) : bool :=
  match value with
  | VList _ | VDict _ => true
  | _ => false
  end.

(** Under the keys [columns] the record holds no dictionary and no list. *)
Definition plain_under (columns : list string) (row : Record_) : bool :=
  forallb (fun col => negb (is_container (row_get row col))) columns.

(** The call [SimpleCrudOperations.insert_records] makes for a record
    that is plain under the columns of the statement. *)
Definition record_call (table_name schema : string)
    (returning_columns : option (list string)) (columns : list string)
    (row : Record_) : Call :=
  mkCall (SimpleCrudOperations.insert_sql table_name columns schema
                                          returning_columns)
         (Some (map (row_get row) columns)).


(** A driver that executes the first statement it is given and raises on
    every later one. *)
Definition second_call_fails : Runtime :=
  mkRuntime
    (fun log _ =>
       match log with
       | [] => Returns None
       | _ => Raises "connection lost"
       end)
    sample_clock no_json.


(** * Properties *)

(** ** The operation boundary *)

(** Splits on what the [try] suite of the goal does from [log]. *)
Ltac case_try_suite log :=
  lazymatch goal with
  | |- context [as_operation ?c log] =>
      unfold as_operation;
      destruct (c log) as [[?e | ?r] ?log'] eqn:?Hbody
  | |- context [as_query ?c log] =>
      unfold as_query;
      destruct (c log) as [[?e | ?r] ?log'] eqn:?Hbody
  end.

(** C1. No public operation raises: a call whose [try] suite returns,
    returns that result; a call whose [try] suite raises [e] returns a
    result with [success = False], the message made of the operation's
    prefix followed by [str(e)], and the milliseconds elapsed from the
    start of the call to the point reached. *)
Theorem public_operations_never_raise :
  forall (self : Runtime) (call : PublicCall) (log : Log),
    match try_suite self call (clock self log) log with
    | (inr r, log') => invoke self call log = (inr r, log')
    | (inl e, log') =>
        exists r,
          invoke self call log = (inr r, log')
          /\ outcome_success r = false
          /\ outcome_message r = failure_prefix call ++ e
          /\ outcome_time r
             = Some ((clock self log' - clock self log) * 1000)%Q
    end.
Proof.
  intros self call log.
  destruct call; cbn [try_suite invoke failure_prefix];
    unfold CrudOperations.create_table, CrudOperations.insert_records,
      CrudOperations.update_records, CrudOperations.delete_records,
      CrudOperations.query_records,
      SimpleCrudOperations.create_table, SimpleCrudOperations.insert_records,
      SimpleCrudOperations.update_records,
      SimpleCrudOperations.delete_records,
      SimpleCrudOperations.query_records,
      SchemaOperations.create_schema, SchemaOperations.drop_schema,
      SchemaOperations.create_index, SchemaOperations.drop_index,
      SchemaOperations.drop_table, SchemaOperations.create_extension,
      SimpleSchemaOperations.create_schema,
      SimpleSchemaOperations.drop_schema,
      SimpleSchemaOperations.create_index, SimpleSchemaOperations.drop_index,
      SimpleSchemaOperations.drop_table,
      SimpleSchemaOperations.create_extension,
      VectorOperations.create_vector_table,
      VectorOperations.vector_similarity_search,
      VectorOperations.vector_knn_search,
      VectorOperations.create_vector_index,
      VectorOperations.insert_vector_data,
      VectorOperations.get_vector_index_stats,
      VectorOperations.optimize_vector_index;
    case_try_suite log;
    unfold bind at 1; unfold time_time at 1; unfold try_except;
    rewrite Hbody.
  all: try reflexivity.
  all: eexists; split; [reflexivity | repeat split].
Qed.

(** ** Strings and lists *)

Lemma append_assoc (a b c : string) : (a ++ b) ++ c = a ++ (b ++ c).
Proof. induction a as [| ch a IH]; simpl; [reflexivity | now rewrite IH]. Qed.

Lemma append_nil_r (a : string) : a ++ EmptyString = a.
Proof. induction a as [| ch a IH]; simpl; [reflexivity | now rewrite IH]. Qed.

Lemma join_empty_app (a b : list string) :
  join EmptyString (a ++ b) = join EmptyString a ++ join EmptyString b.
Proof.
  unfold join. induction a as [| x a IH]; simpl; [reflexivity |].
  destruct a as [| y a].
  - simpl. destruct b; simpl; [now rewrite append_nil_r | reflexivity].
  - simpl in *. rewrite IH. now rewrite append_assoc.
Qed.

Lemma join_empty_cons (x : string) (l : list string) :
  join EmptyString (x :: l) = x ++ join EmptyString l.
Proof. exact (join_empty_app [x] l). Qed.

Lemma as_string_Composed (l : list Composable) :
  as_string (Composed l) = render_all l.
Proof. induction l as [| p l IH]; simpl in *; [reflexivity | now rewrite IH]. Qed.

Lemma render_all_app (a b : list Composable) :
  render_all (a ++ b) = render_all a ++ render_all b.
Proof.
  induction a as [| p a IH]; simpl; [reflexivity |].
  now rewrite IH, append_assoc.
Qed.

Lemma render_all_intersperse_empty (l : list Composable) :
  render_all (intersperse (SQL EmptyString) l) = render_all l.
Proof.
  induction l as [| p l IH]; [reflexivity |].
  destruct l as [| q l]; [reflexivity |].
  change (intersperse (SQL EmptyString) (p :: q :: l))
    with (p :: SQL EmptyString :: intersperse (SQL EmptyString) (q :: l)).
  cbn [render_all]. rewrite IH. reflexivity.
Qed.

Lemma as_string_join_empty (l : list Composable) :
  as_string (SQL_join EmptyString l) = render_all l.
Proof.
  unfold SQL_join. now rewrite as_string_Composed, render_all_intersperse_empty.
Qed.

Lemma prev_after_snoc (prev : option QueryCondition.t) l c :
  prev_after prev (l ++ [c]) = Some c.
Proof. unfold prev_after. now rewrite fold_left_app. Qed.

Lemma nth_error_before_last (pre l : list QueryCondition.t) :
  pre <> [] ->
  nth_error (pre ++ l) (length pre - 1) = prev_after None pre.
Proof.
  intros Hne. destruct (exists_last Hne) as [pre' [p ->]].
  rewrite prev_after_snoc, length_app. simpl.
  replace (length pre' + 1 - 1)%nat with (length pre') by lia.
  rewrite <- app_assoc. simpl.
  rewrite nth_error_app2 by lia. now rewrite Nat.sub_diag.
Qed.

(** ** The loop over the conditions, in general *)

Section WhereLoop.

Variable Clause : Type.
Variable clause_of :
  QueryCondition.t -> list PyValue -> Exc (Clause * list PyValue).
Variable connector : QueryCondition.t -> Clause.

(** The branch on the operator only ever appends to the parameters. *)
Hypothesis clause_of_appends : forall c ps,
    clause_of c ps
    = match clause_of c [] with
      | inl e => inl e
      | inr (clause, dp) => inr (clause, (ps ++ dp)%list)
      end.

Let loop := where_rec clause_of connector.

Lemma where_rec_acc : forall l prev cls ps,
    loop prev l (cls, ps)
    = match loop prev l ([], []) with
      | inl e => inl e
      | inr (dc, dp) => inr ((cls ++ dc)%list, (ps ++ dp)%list)
      end.
Proof.
  unfold loop.
  induction l as [| c rest IH]; intros prev cls ps.
  - simpl. now rewrite !app_nil_r.
  - cbn [where_rec fst snd]. rewrite (clause_of_appends c ps).
    destruct (clause_of c []) as [e | [clause dp]]; [reflexivity |].
    rewrite IH. rewrite (IH (Some c) (_ ++ [clause])%list dp).
    destruct (where_rec clause_of connector (Some c) rest ([], []))
      as [e | [dc dp']]; [reflexivity |].
    destruct prev; simpl; now rewrite <- !app_assoc.
Qed.

Lemma where_rec_app : forall l1 l2 prev acc,
    loop prev (l1 ++ l2) acc
    = match loop prev l1 acc with
      | inl e => inl e
      | inr acc' => loop (prev_after prev l1) l2 acc'
      end.
Proof.
  unfold loop.
  induction l1 as [| c rest IH]; intros l2 prev acc; [reflexivity |].
  cbn [app where_rec].
  destruct (clause_of c (snd acc)) as [e | [clause ps]]; [reflexivity |].
  now rewrite IH.
Qed.

Lemma where_rec_prev : forall p c rest,
    loop (Some p) (c :: rest) ([], [])
    = match loop None (c :: rest) ([], []) with
      | inl e => inl e
      | inr (dc, dp) => inr (connector p :: dc, dp)
      end.
Proof.
  unfold loop. intros p c rest. cbn [where_rec fst snd].
  destruct (clause_of c []) as [e | [clause dp]]; [reflexivity |].
  simpl app. fold loop.
  rewrite (where_rec_acc rest (Some c) [connector p; clause] dp).
  rewrite (where_rec_acc rest (Some c) [clause] dp).
  destruct (loop (Some c) rest ([], [])) as [e | [dc dp']]; reflexivity.
Qed.

(** What the loop makes of a list cut in two non-empty parts. *)
Lemma where_rec_cut : forall l1 p c l2 cls ps,
    loop None ((l1 ++ [p]) ++ c :: l2) ([], []) = inr (cls, ps) ->
    exists c1 p1 c2 p2,
      loop None (l1 ++ [p]) ([], []) = inr (c1, p1)
      /\ loop None (c :: l2) ([], []) = inr (c2, p2)
      /\ cls = (c1 ++ connector p :: c2)%list
      /\ ps = (p1 ++ p2)%list.
Proof.
  intros l1 p c l2 cls ps H.
  rewrite where_rec_app in H.
  destruct (loop None (l1 ++ [p]) ([], [])) as [e | [c1 p1]];
    [discriminate |].
  rewrite prev_after_snoc, where_rec_acc, where_rec_prev in H.
  destruct (loop None (c :: l2) ([], [])) as [e | [c2 p2]];
    [discriminate |].
  injection H as <- <-. now exists c1, p1, c2, p2.
Qed.

Lemma where_rec_nonempty : forall c rest prev cls ps,
    loop prev (c :: rest) ([], []) = inr (cls, ps) -> cls <> [].
Proof.
  unfold loop. intros c rest prev cls ps H. cbn [where_rec fst snd] in H.
  destruct (clause_of c []) as [e | [clause dp]]; [discriminate |].
  fold loop in H. rewrite where_rec_acc in H.
  destruct (loop (Some c) rest ([], [])) as [e | [dc dp']];
    [discriminate |].
  injection H as <- _. destruct prev; simpl; discriminate.
Qed.

(** The parameters are those of the conditions, in order. *)
Variable extra : QueryCondition.t -> list PyValue.
Hypothesis clause_of_extra : forall c clause dp,
    clause_of c [] = inr (clause, dp) -> dp = extra c.

Lemma where_rec_params : forall l prev cls ps,
    loop prev l ([], []) = inr (cls, ps) -> ps = flat_map extra l.
Proof.
  unfold loop.
  induction l as [| c rest IH]; intros prev cls ps H.
  - simpl in H. now injection H as <- <-.
  - cbn [where_rec fst snd] in H.
    destruct (clause_of c []) as [e | [clause dp]] eqn:Hc; [discriminate |].
    apply clause_of_extra in Hc. subst dp.
    rewrite where_rec_acc in H. unfold loop in H.
    destruct (where_rec clause_of connector (Some c) rest ([], []))
      as [e | [dc dp']] eqn:Hrest; [discriminate |].
    injection H as <- <-. apply IH in Hrest. now subst dp'.
Qed.

End WhereLoop.

(** ** The two predicate compilers as instances of the loop *)

Lemma condition_clause_appends (c : QueryCondition.t) (ps : list PyValue) :
  CrudOperations.condition_clause c ps
  = match CrudOperations.condition_clause c [] with
    | inl e => inl e
    | inr (clause, dp) => inr (clause, (ps ++ dp)%list)
    end.
Proof.
  unfold CrudOperations.condition_clause.
  destruct (str_in (upper (QueryCondition.operator c)) ["IS NULL"; "IS NOT NULL"]).
  - cbn. now rewrite app_nil_r.
  - destruct (str_in (upper (QueryCondition.operator c)) ["IN"; "NOT IN"]).
    + destruct (QueryCondition.value c); try reflexivity; cbn; reflexivity.
    + cbn. reflexivity.
Qed.

Lemma condition_clause_parameters (c : QueryCondition.t) clause dp :
  CrudOperations.condition_clause c [] = inr (clause, dp) ->
  dp = condition_parameters c.
Proof.
  unfold CrudOperations.condition_clause, condition_parameters,
    is_null_check, is_membership.
  destruct (str_in (upper (QueryCondition.operator c)) ["IS NULL"; "IS NOT NULL"]).
  - cbn. intros H. now injection H as _ <-.
  - destruct (str_in (upper (QueryCondition.operator c)) ["IN"; "NOT IN"]).
    + destruct (QueryCondition.value c); cbn; intros H;
        try discriminate; now injection H as _ <-.
    + cbn. intros H. now injection H as _ <-.
Qed.

Lemma condition_part_appends (c : QueryCondition.t) (ps : list PyValue) :
  SimpleCrudOperations.condition_part c ps
  = match SimpleCrudOperations.condition_part c [] with
    | inl e => inl e
    | inr (part, dp) => inr (part, (ps ++ dp)%list)
    end.
Proof.
  unfold SimpleCrudOperations.condition_part.
  destruct (str_in (upper (QueryCondition.operator c)) ["IS NULL"; "IS NOT NULL"]).
  - cbn. now rewrite app_nil_r.
  - destruct (str_in (upper (QueryCondition.operator c)) ["IN"; "NOT IN"]).
    + destruct (QueryCondition.value c); try reflexivity; cbn; reflexivity.
    + cbn. reflexivity.
Qed.

Lemma condition_part_parameters (c : QueryCondition.t) part dp :
  SimpleCrudOperations.condition_part c [] = inr (part, dp) ->
  dp = condition_parameters c.
Proof.
  unfold SimpleCrudOperations.condition_part, condition_parameters,
    is_null_check, is_membership.
  destruct (str_in (upper (QueryCondition.operator c)) ["IS NULL"; "IS NOT NULL"]).
  - cbn. intros H. now injection H as _ <-.
  - destruct (str_in (upper (QueryCondition.operator c)) ["IN"; "NOT IN"]).
    + destruct (QueryCondition.value c); cbn; intros H;
        try discriminate; now injection H as _ <-.
    + cbn. intros H. now injection H as _ <-.
Qed.

(** The loop of [_build_where_clause], started anywhere in the list. *)
Lemma crud_loop_from : forall l pre acc,
    efold (CrudOperations.where_step (pre ++ l))
          (combine (seq (length pre) (length l)) l) acc
    = where_rec CrudOperations.condition_clause crud_connector
                (prev_after None pre) l acc.
Proof.
  induction l as [| c rest IH]; intros pre [cls ps]; [reflexivity |].
  assert (IH' : forall acc,
             efold (CrudOperations.where_step (pre ++ c :: rest))
                   (combine (seq (S (length pre)) (length rest)) rest) acc
             = where_rec CrudOperations.condition_clause crud_connector
                         (Some c) rest acc).
  { intros acc. specialize (IH (pre ++ [c])%list acc).
    rewrite prev_after_snoc, length_app, Nat.add_1_r, <- app_assoc in IH.
    exact IH. }
  cbn [length seq combine efold where_rec fst snd].
  unfold CrudOperations.where_step at 1.
  destruct (CrudOperations.condition_clause c ps) as [e | [clause ps']];
    [reflexivity |].
  cbn [ebind].
  destruct pre as [| q pre].
  - apply IH'.
  - replace (0 <? length (q :: pre))%nat with true by reflexivity.
    rewrite (nth_error_before_last (q :: pre) (c :: rest)) by discriminate.
    destruct (prev_after None (q :: pre)) as [p |] eqn:Hp.
    + apply IH'.
    + exfalso. destruct (@exists_last _ (q :: pre)) as [pre' [p Heq]];
        [discriminate |].
      rewrite Heq, prev_after_snoc in Hp. discriminate.
Qed.

Lemma crud_loop (conds : list QueryCondition.t) :
  efold (CrudOperations.where_step conds) (enumerate conds) ([], [])
  = where_rec CrudOperations.condition_clause crud_connector None conds
              ([], []).
Proof. exact (crud_loop_from conds [] ([], [])). Qed.

(** The loop of the string builder, started anywhere in the list. *)
Lemma simple_loop_from : forall l pre acc,
    efold (SimpleCrudOperations.where_step (pre ++ l))
          (combine (seq (length pre) (length l)) l) acc
    = where_rec SimpleCrudOperations.condition_part simple_connector
                (prev_after None pre) l acc.
Proof.
  induction l as [| c rest IH]; intros pre [parts ps]; [reflexivity |].
  assert (IH' : forall acc,
             efold (SimpleCrudOperations.where_step (pre ++ c :: rest))
                   (combine (seq (S (length pre)) (length rest)) rest) acc
             = where_rec SimpleCrudOperations.condition_part simple_connector
                         (Some c) rest acc).
  { intros acc. specialize (IH (pre ++ [c])%list acc).
    rewrite prev_after_snoc, length_app, Nat.add_1_r, <- app_assoc in IH.
    exact IH. }
  cbn [length seq combine efold where_rec fst snd].
  unfold SimpleCrudOperations.where_step at 1.
  destruct pre as [| q pre].
  - cbn [length Nat.ltb Nat.leb ebind eret prev_after fold_left].
    destruct (SimpleCrudOperations.condition_part c ps) as [e | [part ps']];
      [reflexivity |].
    apply IH'.
  - replace (0 <? length (q :: pre))%nat with true by reflexivity.
    rewrite (nth_error_before_last (q :: pre) (c :: rest)) by discriminate.
    destruct (prev_after None (q :: pre)) as [p |] eqn:Hp.
    + cbn [ebind eret].
      destruct (SimpleCrudOperations.condition_part c ps) as [e | [part ps']];
        [reflexivity |].
      apply IH'.
    + exfalso. destruct (@exists_last _ (q :: pre)) as [pre' [p Heq]];
        [discriminate |].
      rewrite Heq, prev_after_snoc in Hp. discriminate.
Qed.

Lemma simple_loop (conds : list QueryCondition.t) (ps : list PyValue) :
  efold (SimpleCrudOperations.where_step conds) (enumerate conds) ([], ps)
  = where_rec SimpleCrudOperations.condition_part simple_connector None conds
              ([], ps).
Proof. exact (simple_loop_from conds [] ([], ps)). Qed.

Lemma cut_at (A : Type) (l : list A) (i : nat) :
  (0 < i < length l)%nat ->
  exists l1 p c l2,
    firstn i l = (l1 ++ [p])%list /\ skipn i l = c :: l2
    /\ nth_error l (i - 1) = Some p.
Proof.
  intros [Hpos Hlt].
  assert (Hf : firstn i l <> []).
  { intros E. apply (f_equal (@length A)) in E.
    rewrite length_firstn in E. simpl in E. lia. }
  destruct (exists_last Hf) as [l1 [p E1]].
  destruct (skipn i l) as [| c l2] eqn:E2.
  { apply (f_equal (@length A)) in E2. rewrite length_skipn in E2.
    simpl in E2. lia. }
  exists l1, p, c, l2. repeat split; [exact E1 |].
  assert (Hl1 : length l1 = (i - 1)%nat).
  { apply (f_equal (@length A)) in E1.
    rewrite length_firstn, length_app in E1. simpl in E1. lia. }
  rewrite <- (firstn_skipn i l), E1, E2, <- app_assoc.
  rewrite nth_error_app2 by lia.
  now rewrite Hl1, Nat.sub_diag.
Qed.

Lemma length_condition_parameters (c : QueryCondition.t) :
  length (condition_parameters c) = parameter_count c.
Proof.
  unfold condition_parameters, parameter_count, sequence_length.
  destruct (is_null_check c); [reflexivity |].
  destruct (is_membership c); [| reflexivity].
  destruct (QueryCondition.value c); reflexivity.
Qed.

Lemma length_flat_map_parameters (l : list QueryCondition.t) :
  length (flat_map condition_parameters l) = list_sum (map parameter_count l).
Proof.
  induction l as [| c l IH]; [reflexivity |].
  simpl. now rewrite length_app, IH, length_condition_parameters.
Qed.

(** What [_build_where_clause] returns, through the recursion. *)
Lemma build_where_clause_unfold (c : QueryCondition.t) rest :
  CrudOperations._build_where_clause (c :: rest)
  = match where_rec CrudOperations.condition_clause crud_connector None
                    (c :: rest) ([], []) with
    | inl e => inl e
    | inr (clauses, params) => inr (Some (SQL_join EmptyString clauses), params)
    end.
Proof.
  unfold CrudOperations._build_where_clause. rewrite crud_loop.
  destruct (where_rec _ _ _ _ _) as [e | [clauses params]]; reflexivity.
Qed.

(** What the [if conditions:] block of the string builder returns. *)
Lemma add_where_unfold (c : QueryCondition.t) rest sql ps :
  SimpleCrudOperations.add_where (c :: rest) sql ps
  = match where_rec SimpleCrudOperations.condition_part simple_connector
                    None (c :: rest) ([], []) with
    | inl e => inl e
    | inr (parts, dp) =>
        inr (sql ++ " WHERE " ++ join EmptyString parts, (ps ++ dp)%list)
    end.
Proof.
  unfold SimpleCrudOperations.add_where. rewrite simple_loop.
  rewrite (where_rec_acc _ _ _ condition_part_appends).
  destruct (where_rec _ _ _ _ _) as [e | [parts dp]] eqn:H; [reflexivity |].
  apply where_rec_nonempty in H; [| exact condition_part_appends].
  destruct parts; [contradiction | reflexivity].
Qed.

(** ** The predicate compiler *)

(** C2. When [_build_where_clause] accepts a condition list, the number
    of positional parameters is the sum over the conditions of: nothing
    for IS NULL and IS NOT NULL, the length of the sequence for IN and
    NOT IN, one for any other operator.  The empty list gives no fragment
    and no parameter. *)
Theorem where_clause_parameter_count :
  forall (conditions : list QueryCondition.t) (fragment : option Composable)
         (params : list PyValue),
    CrudOperations._build_where_clause conditions = inr (fragment, params) ->
    length params = list_sum (map parameter_count conditions)
    /\ (conditions = [] -> fragment = None /\ params = []).
Proof.
  intros conditions fragment params H.
  destruct conditions as [| c rest].
  - cbn in H. injection H as <- <-. now repeat split.
  - rewrite build_where_clause_unfold in H.
    destruct (where_rec _ _ _ _ _) as [e | [clauses ps]] eqn:Hloop;
      [discriminate |].
    injection H as _ <-.
    apply (where_rec_params _ _ _ condition_clause_appends
             condition_parameters condition_clause_parameters) in Hloop.
    subst ps. split; [apply length_flat_map_parameters | discriminate].
Qed.

Lemma where_clause_parameter_count_witness :
  length [VInt 25; VBool true; VInt 1; VInt 2]
  = list_sum (map parameter_count sample_conditions).
Proof.
  refine (proj1 (where_clause_parameter_count sample_conditions _ _ _)).
  reflexivity.
Defined.

(** C3. In the compiled fragment the connector standing between condition
    [i - 1] and condition [i] is the upper-cased [logical_operator] of
    condition [i - 1]: the text is the text compiled from the conditions
    before [i], a space, that operator, a space, and the text compiled from
    condition [i] onwards.  It holds for [_build_where_clause] and for
    the loop of the string builder. *)
Theorem connector_comes_from_previous_condition :
  forall (conditions : list QueryCondition.t) (i : nat),
    (0 < i < length conditions)%nat ->
    (forall fragment params,
        CrudOperations._build_where_clause conditions
        = inr (Some fragment, params) ->
        exists prev head tail params1 params2,
          nth_error conditions (i - 1) = Some prev
          /\ CrudOperations._build_where_clause (firstn i conditions)
             = inr (Some head, params1)
          /\ CrudOperations._build_where_clause (skipn i conditions)
             = inr (Some tail, params2)
          /\ as_string fragment
             = as_string head ++ " "
               ++ upper (QueryCondition.logical_operator prev) ++ " "
               ++ as_string tail
          /\ params = (params1 ++ params2)%list)
    /\ (forall sql0 sql params,
           SimpleCrudOperations.add_where conditions sql0 [] = inr (sql, params) ->
           exists prev head tail params1 params2,
             nth_error conditions (i - 1) = Some prev
             /\ SimpleCrudOperations.add_where (firstn i conditions) sql0 []
                = inr (head, params1)
             /\ SimpleCrudOperations.add_where (skipn i conditions)
                  EmptyString []
                = inr (" WHERE " ++ tail, params2)
             /\ sql = head ++ " "
                      ++ upper (QueryCondition.logical_operator prev) ++ " "
                      ++ tail
             /\ params = (params1 ++ params2)%list).
Proof.
  intros conditions i Hi.
  destruct (cut_at _ conditions i Hi) as [l1 [p [c [l2 [E1 [E2 Hp]]]]]].
  assert (Hsplit : conditions = ((l1 ++ [p]) ++ c :: l2)%list)
    by now rewrite <- E1, <- E2, firstn_skipn.
  assert (Hhead : exists q l1', (l1 ++ [p])%list = q :: l1')
    by (destruct l1; simpl; eauto).
  destruct Hhead as [q [l1' Hq]].
  rewrite E1, E2. split.
  - intros fragment params H.
    assert (Hc : conditions = q :: (l1' ++ c :: l2)%list)
      by now rewrite Hsplit, Hq.
    rewrite Hc, build_where_clause_unfold, <- Hc, Hsplit in H.
    destruct (where_rec _ _ _ _ _) as [e | [clauses ps]] eqn:Hloop;
      [discriminate |].
    injection H as <- <-.
    destruct (where_rec_cut _ _ _ condition_clause_appends _ _ _ _ _ _ Hloop)
      as [c1 [p1 [c2 [p2 [H1 [H2 [-> ->]]]]]]].
    exists p, (SQL_join EmptyString c1), (SQL_join EmptyString c2), p1, p2.
    repeat split; [exact Hp | | | ].
    + rewrite Hq, build_where_clause_unfold, <- Hq, H1. reflexivity.
    + now rewrite build_where_clause_unfold, H2.
    + rewrite !as_string_join_empty, render_all_app. cbn [render_all].
      unfold crud_connector. cbn [as_string].
      now rewrite !append_assoc.
  - intros sql0 sql params H.
    assert (Hc : conditions = q :: (l1' ++ c :: l2)%list)
      by now rewrite Hsplit, Hq.
    rewrite Hc, add_where_unfold, <- Hc, Hsplit in H.
    destruct (where_rec _ _ _ _ _) as [e | [parts ps]] eqn:Hloop;
      [discriminate |].
    injection H as <- <-.
    destruct (where_rec_cut _ _ _ condition_part_appends _ _ _ _ _ _ Hloop)
      as [c1 [p1 [c2 [p2 [H1 [H2 [-> ->]]]]]]].
    exists p, (sql0 ++ " WHERE " ++ join EmptyString c1),
      (join EmptyString c2), p1, p2.
    repeat split; [exact Hp | | | ].
    + rewrite Hq, add_where_unfold, <- Hq, H1. reflexivity.
    + now rewrite add_where_unfold, H2.
    + rewrite join_empty_app, join_empty_cons. unfold simple_connector.
      now rewrite !append_assoc.
Qed.

Lemma connector_comes_from_previous_condition_witness :
  (0 < 1 < length sample_conditions)%nat
  /\ exists fragment params,
       CrudOperations._build_where_clause sample_conditions
       = inr (Some fragment, params)
       /\ exists prev head tail params1 params2,
            nth_error sample_conditions (1 - 1) = Some prev
            /\ CrudOperations._build_where_clause (firstn 1 sample_conditions)
               = inr (Some head, params1)
            /\ CrudOperations._build_where_clause (skipn 1 sample_conditions)
               = inr (Some tail, params2)
            /\ as_string fragment
               = as_string head ++ " "
                 ++ upper (QueryCondition.logical_operator prev) ++ " "
                 ++ as_string tail
            /\ params = (params1 ++ params2)%list.
Proof.
  split; [simpl; lia |].
  eexists. eexists. split; [reflexivity |].
  apply (proj1 (connector_comes_from_previous_condition sample_conditions 1
                  ltac:(simpl; lia))).
  reflexivity.
Defined.

(** The first two sample conditions are joined by the OR of the first,
    not by the AND of the second. *)
Example connector_of_sample_conditions :
  exists fragment params,
    CrudOperations._build_where_clause (firstn 2 sample_conditions)
    = inr (Some fragment, params)
    /\ as_string fragment
       = dquote ++ "age" ++ dquote ++ " > %s OR " ++ dquote ++ "active"
         ++ dquote ++ " = %s"
    /\ params = [VInt 25; VBool true].
Proof. eexists. eexists. repeat split. Qed.

(** ** Vector similarity *)

(** C9. The distance expression is the quoted column, the operator of the
    distance function, and the bracketed literal of the query vector cast
    to [vector]; a distance function other than cosine, euclidean and
    inner_product raises. *)
Theorem distance_expression_exact :
  forall (vector_column : string) (search_vector : list PyValue)
         (distance_function : string),
    VectorOperations._get_distance_expression vector_column search_vector
                                              distance_function
    = match spec_distance_operator distance_function with
      | Some op =>
          inr (dquote ++ vector_column ++ dquote ++ " " ++ op ++ " '"
               ++ "[" ++ join "," (map py_str search_vector) ++ "]"
               ++ "'::vector")
      | None => inl ("Unsupported distance function: " ++ distance_function)
      end.
Proof.
  intros vector_column search_vector distance_function.
  unfold VectorOperations._get_distance_expression, spec_distance_operator,
    VectorOperations.vector_literal.
  destruct (String.eqb distance_function "cosine");
    [unfold eret; now rewrite !append_assoc |].
  destruct (String.eqb distance_function "euclidean");
    [unfold eret; now rewrite !append_assoc |].
  destruct (String.eqb distance_function "inner_product");
    [unfold eret; now rewrite !append_assoc | reflexivity].
Qed.

(** ** Query results *)

(** The coroutine run that a term takes apart first. *)
Ltac innermost_run t :=
  lazymatch t with
  | context [let (_, _) := ?b in _] =>
      lazymatch b with
      | context [let (_, _) := _ in _] => innermost_run b
      | _ => constr:(b)
      end
  end.

(** Follows a coroutine equation [H] from its builder to the driver's
    reply, innermost run first, keeping the equation of every step. *)
Ltac follow_run H :=
  unfold elapsed_ms, execute_query in H;
  unfold bind, lift, ret, raise, time_time in H;
  cbv beta iota zeta in H;
  repeat (
    match type of H with
    | context [match ?x with _ => _ end] =>
        lazymatch x with
        | context [match _ with _ => _ end] => fail
        | _ =>
            lazymatch type of x with
            | Exc _ => idtac
            | sum _ _ => idtac
            | Reply => idtac
            | prod _ _ => idtac
            end;
            let E := fresh "E" in destruct x eqn:E
        end
    end;
    cbv beta iota zeta in H;
    try discriminate H).

(** Closes a goal on the result of a [try] suite followed to its end:
    the counts are those of [data], and [data] is the reply the driver
    gave to the one statement sent. *)
Ltac finish_report H :=
  injection H as <- <-;
  split; [split; reflexivity |];
  eexists; eexists; split; [reflexivity |];
  split; [eassumption | reflexivity].

Lemma crud_query_reports (self : Runtime) table_name columns conditions
    options schema start_time log r log' :
  CrudOperations.query_records_try self table_name columns conditions options
    schema start_time log = (inr r, log') ->
  reports_returned_rows r /\ carries_reply self log log' r.
Proof.
  unfold CrudOperations.query_records_try. intros H. follow_run H.
  all: finish_report H.
Qed.

Lemma simple_query_reports (self : Runtime) table_name columns conditions
    options schema start_time log r log' :
  SimpleCrudOperations.query_records_try self table_name columns conditions
    options schema start_time log = (inr r, log') ->
  reports_returned_rows r /\ carries_reply self log log' r.
Proof.
  unfold SimpleCrudOperations.query_records_try. intros H. follow_run H.
  all: finish_report H.
Qed.

Lemma similarity_search_reports (self : Runtime) table_name schema
    vector_column search_options additional_columns start_time log r log' :
  VectorOperations.vector_similarity_search_try self table_name schema
    vector_column search_options additional_columns start_time log
  = (inr r, log') ->
  reports_returned_rows r /\ carries_reply self log log' r.
Proof.
  unfold VectorOperations.vector_similarity_search_try. intros H.
  follow_run H.
  all: finish_report H.
Qed.

Lemma knn_search_reports (self : Runtime) table_name schema vector_column
    search_vector k distance_function additional_columns include_distance
    start_time log r log' :
  VectorOperations.vector_knn_search_try self table_name schema vector_column
    search_vector k distance_function additional_columns include_distance
    start_time log = (inr r, log') ->
  reports_returned_rows r /\ carries_reply self log log' r.
Proof.
  unfold VectorOperations.vector_knn_search_try. intros H. follow_run H.
  all: finish_report H.
Qed.

Lemma index_stats_reports (self : Runtime) table_name schema vector_column
    start_time log r log' :
  VectorOperations.get_vector_index_stats_try self table_name schema
    vector_column start_time log = (inr r, log') ->
  reports_returned_rows r /\ carries_reply self log log' r.
Proof.
  unfold VectorOperations.get_vector_index_stats_try. intros H.
  follow_run H.
  all: finish_report H.
Qed.

(** C10. A successful query, whether [query_records] or a vector search,
    has sent the driver one statement and returns in [data] the rows the
    driver gave back for it; [total_count] is the number of those rows and
    [columns] the keys of the first of them, hence empty when no row came
    back, whatever projection or limit the call asked for. *)
Theorem successful_query_reports_returned_rows :
  forall (self : Runtime) (call : PublicCall) (log log' : Log)
         (r : QueryResult.t),
    invoke self call log = (inr (Query r), log') ->
    QueryResult.success r = true ->
    reports_returned_rows r /\ carries_reply self log log' r.
Proof.
  intros self call log log' r H Hsuccess.
  destruct call; cbn [invoke] in H; unfold as_operation, as_query in H;
    try (match type of H with
         | context [match ?c with _ => _ end] =>
             destruct c as [[? | ?] ?]; discriminate H
         end);
    unfold CrudOperations.query_records, SimpleCrudOperations.query_records,
      VectorOperations.vector_similarity_search,
      VectorOperations.vector_knn_search,
      VectorOperations.get_vector_index_stats in H;
    unfold bind at 1 in H; unfold time_time at 1 in H;
    unfold try_except in H;
    let body := innermost_run ltac:(type of H) in
    destruct body as [[e | r0] log0] eqn:Hbody.
  all: try (unfold bind, elapsed_ms, time_time, ret in H;
            assert (Hr : QueryResult.success r = false)
              by (inversion H; reflexivity);
            congruence).
  all: assert (Hsame : r0 = r /\ log0 = log') by (split; congruence);
       destruct Hsame as [-> ->].
  - eapply crud_query_reports; eassumption.
  - eapply simple_query_reports; eassumption.
  - eapply similarity_search_reports; eassumption.
  - eapply knn_search_reports; eassumption.
  - eapply index_stats_reports; eassumption.
Qed.

Lemma successful_query_reports_returned_rows_witness :
  exists r log',
    invoke (constant_runtime (Some [RowResult.mk scenario_B_row]))
           (Simple_query_records "t" (Some ["id"; "name"]) None
                                 (Some sample_page) "public") []
    = (inr (Query r), log')
    /\ QueryResult.success r = true
    /\ QueryResult.data r = [scenario_B_row]
    /\ reports_returned_rows r
    /\ carries_reply (constant_runtime (Some [RowResult.mk scenario_B_row]))
                     [] log' r.
Proof.
  eexists. eexists. split; [reflexivity |]. split; [reflexivity |].
  split; [reflexivity |].
  eapply (successful_query_reports_returned_rows
            (constant_runtime (Some [RowResult.mk scenario_B_row]))
            (Simple_query_records "t" (Some ["id"; "name"]) None
                                  (Some sample_page) "public") []);
    reflexivity.
Defined.

(** An empty result has no column, whatever projection was asked for. *)
Example empty_result_has_no_columns :
  exists r log',
    SimpleCrudOperations.query_records (constant_runtime (Some []))
      "t" (Some ["id"; "name"]) None None "public" []
    = (inr r, log')
    /\ QueryResult.success r = true
    /\ QueryResult.columns r = []
    /\ QueryResult.total_count r = Some 0%Z.
Proof. eexists. eexists. repeat split. Qed.

(** ** Batch insert *)

(** The batch loop of the string builder: one statement per record, the
    count raised by one each time, the rows of every reply appended. *)
Lemma simple_insert_loop (self : Runtime) sql columns returning_columns :
  truthy_opt_list returning_columns = true ->
  forall data returned n log returned' n' log',
    mfold (SimpleCrudOperations.insert_step self sql columns returning_columns)
          data (returned, n) log
    = (inr (returned', n'), log') ->
    n' = (n + Z.of_nat (length data))%Z
    /\ length log' = (length log + length data)%nat
    /\ firstn (length log) log' = log
    /\ returned'
       = (returned
          ++ flat_map (fun k => cells_of (reply_at self log' k))
                      (seq (length log) (length data)))%list.
Proof.
  intros Hret.
  induction data as [| row rest IH]; intros returned n log returned' n' log' H.
  - cbn in H. injection H as <- <- <-.
    rewrite Z.add_0_r, Nat.add_0_r, firstn_all, app_nil_r. auto.
  - cbn [mfold] in H. unfold bind at 1 in H.
    destruct (SimpleCrudOperations.insert_step self sql columns
                returning_columns (returned, n) row log)
      as [[e | [returned1 n1]] log1] eqn:Hstep; [discriminate |].
    unfold SimpleCrudOperations.insert_step, bind, lift, ret, execute_query
      in Hstep.
    destruct (SimpleCrudOperations.row_params self columns row)
      as [e | params]; [discriminate |].
    destruct (sql_driver self log (mkCall sql (Some params)))
      as [msg | rows] eqn:Hreply; [discriminate |].
    assert (Hacc : returned1 = (returned ++ cells_of rows)%list
                   /\ n1 = (n + 1)%Z
                   /\ log1 = (log ++ [mkCall sql (Some params)])%list).
    { rewrite Hret, andb_true_r in Hstep.
      destruct rows as [[| r0 rows] |]; cbn in Hstep;
        injection Hstep as <- <- <-; rewrite ?app_nil_r; auto. }
    destruct Hacc as [-> [-> ->]].
    apply IH in H. destruct H as [-> [Hlen [Hpre ->]]].
    rewrite length_app in Hlen, Hpre. simpl in Hlen, Hpre.
    assert (Hlog : firstn (length log) log' = log).
    { replace (firstn (length log) log')
        with (firstn (length log) (firstn (length log + 1) log'))
        by (rewrite firstn_firstn; f_equal; lia).
      rewrite Hpre, firstn_app, firstn_all, Nat.sub_diag. simpl.
      now rewrite app_nil_r. }
    split; [cbn [length]; lia |].
    split; [cbn [length]; lia |].
    split; [exact Hlog |].
    rewrite <- app_assoc. f_equal.
    cbn [length seq flat_map]. f_equal.
    + unfold reply_at.
      assert (Hnth : nth_error log' (length log)
                     = Some (mkCall sql (Some params))).
      { rewrite <- (firstn_skipn (length log + 1) log'), Hpre.
        rewrite nth_error_app1 by (rewrite length_app; simpl; lia).
        rewrite nth_error_app2 by lia. now rewrite Nat.sub_diag. }
      now rewrite Hnth, Hlog, Hreply.
    + rewrite length_app. simpl. now rewrite Nat.add_1_r.
Qed.

(** In [simple_crud.py] a successful batch insert with RETURNING reports
    as many affected rows as records submitted and returns the rows of the
    per-row executions one after the other, in order of submission. *)
Lemma simple_insert_records_batch (self : Runtime) table_name data schema
    returning_columns log r log' :
  truthy_opt_list returning_columns = true ->
  SimpleCrudOperations.insert_records self table_name data schema
    returning_columns log = (inr r, log') ->
  OperationResult.success r = true ->
  OperationResult.affected_rows r = Some (Z.of_nat (length data))
  /\ OperationResult.returned_data r
     = flat_map (fun k => cells_of (reply_at self log' k))
                (seq (length log) (length data))
  /\ length log' = (length log + length data)%nat.
Proof.
  intros Hret H Hsuccess.
  unfold SimpleCrudOperations.insert_records in H.
  unfold bind at 1 in H. unfold time_time at 1 in H. unfold try_except in H.
  destruct (SimpleCrudOperations.insert_records_try self table_name data
              schema returning_columns (clock self log) log)
    as [[e | r0] log0] eqn:Hbody.
  - unfold bind, elapsed_ms, time_time, ret in H.
    assert (OperationResult.success r = false) by (inversion H; reflexivity).
    congruence.
  - assert (r0 = r /\ log0 = log') as [-> ->] by (split; congruence).
    clear H. unfold SimpleCrudOperations.insert_records_try in Hbody.
    destruct data as [| first rest]; [discriminate |].
    unfold bind at 1 in Hbody.
    destruct (mfold _ (first :: rest) ([], 0%Z) log)
      as [[e | [returned n]] log1] eqn:Hloop; [discriminate |].
    apply (simple_insert_loop _ _ _ _ Hret) in Hloop.
    destruct Hloop as [-> [Hlen [_ ->]]].
    unfold bind, elapsed_ms, time_time, ret in Hbody.
    injection Hbody as <- <-. cbn [OperationResult.affected_rows
      OperationResult.returned_data].
    split; [reflexivity | split; [reflexivity | exact Hlen]].
Qed.

(** Scenario A through [simple_crud.py]. *)
Example simple_insert_records_scenario_A :
  exists r log',
    SimpleCrudOperations.insert_records serial_runtime "t" scenario_A_data
      "public" (Some ["id"; "name"]) []
    = (inr r, log')
    /\ OperationResult.success r = true
    /\ OperationResult.affected_rows r = Some 2%Z
    /\ OperationResult.returned_data r
       = [[("id", VInt 1); ("name", VStr "a")];
          [("id", VInt 2); ("name", VStr "b")]].
Proof. eexists. eexists. repeat split. Qed.

(** C4. Through [crud_operations.py] no insert succeeds: the statement is
    built as a [str] and then asked for [as_string], so the call ends in
    the failure result before a row is sent, for one record as for a batch
    of [N >= 2] records with returning columns. *)
Theorem crud_insert_records_always_fails :
  forall (self : Runtime) (table_name : string) (data : list Record_)
         (schema : string) (returning_columns : option (list string))
         (log : Log),
    exists r,
      CrudOperations.insert_records self table_name data schema
        returning_columns log = (inr r, log)
      /\ OperationResult.success r = false
      /\ OperationResult.affected_rows r = None
      /\ OperationResult.returned_data r = []
      /\ OperationResult.message r
         = "Failed to insert records: "
           ++ match data with
              | [] => "No data provided for insert"
              | _ => "'str' object has no attribute 'as_string'"
              end.
Proof.
  intros self table_name data schema returning_columns log.
  destruct data as [| r1 [| r2 rest]];
    (eexists; split; [reflexivity | repeat split]).
Qed.

(** Scenario A through [crud_operations.py]. *)
Example crud_insert_records_scenario_A :
  exists r,
    CrudOperations.insert_records serial_runtime "t" scenario_A_data
      "public" (Some ["id"; "name"]) []
    = (inr r, [])
    /\ OperationResult.success r = false
    /\ OperationResult.message r
       = "Failed to insert records: 'str' object has no attribute 'as_string'".
Proof. eexists. repeat split. Qed.

(** ** Membership tests *)

Section WhereRejects.

Variable Clause : Type.
Variable clause_of :
  QueryCondition.t -> list PyValue -> Exc (Clause * list PyValue).
Variable connector : QueryCondition.t -> Clause.

Hypothesis clause_of_rejects : forall c ps,
    well_formed c = false -> exists e, clause_of c ps = inl e.

(** One condition that fails the check makes the whole loop raise. *)
Lemma where_rec_rejects : forall l prev acc,
    forallb well_formed l = false ->
    exists e, where_rec clause_of connector prev l acc = inl e.
Proof.
  induction l as [| c rest IH]; intros prev acc H; [discriminate |].
  cbn [where_rec]. cbn [forallb] in H.
  destruct (well_formed c) eqn:Hc.
  - destruct (clause_of c (snd acc)) as [e | [clause ps]]; [eauto |].
    apply IH. exact H.
  - destruct (clause_of_rejects c (snd acc) Hc) as [e ->]. eauto.
Qed.

End WhereRejects.



Lemma condition_clause_rejects (c : QueryCondition.t) ps :
  well_formed c = false ->
  exists e, CrudOperations.condition_clause c ps = inl e.
Proof.
  unfold well_formed, CrudOperations.condition_clause, is_null_check,
    is_membership.
  destruct (str_in _ ["IS NULL"; "IS NOT NULL"]); [discriminate |].
  destruct (str_in _ ["IN"; "NOT IN"]); [| discriminate].
  destruct (QueryCondition.value c); cbn; intros H;
    try discriminate; eexists; reflexivity.
Qed.

Lemma condition_part_rejects (c : QueryCondition.t) ps :
  well_formed c = false ->
  exists e, SimpleCrudOperations.condition_part c ps = inl e.
Proof.
  unfold well_formed, SimpleCrudOperations.condition_part, is_null_check,
    is_membership.
  destruct (str_in _ ["IS NULL"; "IS NOT NULL"]); [discriminate |].
  destruct (str_in _ ["IN"; "NOT IN"]); [| discriminate].
  destruct (QueryCondition.value c); cbn; intros H;
    try discriminate; eexists; reflexivity.
Qed.

Lemma build_where_clause_rejects (conditions : list QueryCondition.t) :
  forallb well_formed conditions = false ->
  exists e, CrudOperations._build_where_clause conditions = inl e.
Proof.
  intros H. destruct conditions as [| c rest]; [discriminate |].
  rewrite build_where_clause_unfold.
  destruct (where_rec_rejects _ _ crud_connector condition_clause_rejects
              (c :: rest) None ([], []) H) as [e ->].
  eauto.
Qed.

Lemma add_where_rejects (conditions : list QueryCondition.t) sql ps :
  forallb well_formed conditions = false ->
  exists e, SimpleCrudOperations.add_where conditions sql ps = inl e.
Proof.
  intros H. destruct conditions as [| c rest]; [discriminate |].
  rewrite add_where_unfold.
  destruct (where_rec_rejects _ _ simple_connector condition_part_rejects
              (c :: rest) None ([], []) H) as [e ->].
  eauto.
Qed.


(** Closes a goal saying that an operation whose builder raised ends in
    its failure result with the log untouched. *)
Ltac finish_rejected :=
  unfold bind, lift, time_time, try_except, elapsed_ms, ret;
  cbn; eexists; split; reflexivity.










(** ** LIMIT and OFFSET *)

(** C6. Outside [crud_operations.py] the limit and the offset are written
    into the statement and the parameter list does not hold them: in
    [query_records] of [simple_crud.py], in [vector_similarity_search] and
    in [vector_knn_search]. *)
Theorem limit_and_offset_are_interpolated :
  SimpleCrudOperations.query_sql "t" None None (Some sample_page) "public"
  = inr ("SELECT * FROM " ++ dquote ++ "public" ++ dquote ++ "." ++ dquote
         ++ "t" ++ dquote ++ " LIMIT 5 OFFSET 2",
         [])
  /\ VectorOperations.similarity_sql "docs" "public" "embedding"
       (Some sample_search) None
     = inr ("SELECT " ++ dquote ++ "id" ++ dquote ++ ", " ++ dquote
            ++ "embedding" ++ dquote ++ " <-> '[0,0,0]'::vector AS distance"
            ++ " FROM " ++ dquote ++ "public" ++ dquote ++ "." ++ dquote
            ++ "docs" ++ dquote ++ " ORDER BY " ++ dquote ++ "embedding"
            ++ dquote ++ " <-> '[0,0,0]'::vector LIMIT 1",
            [])
  /\ VectorOperations.knn_sql "docs" "public" "embedding" [VInt 1] 3 "cosine"
       None false
     = inr ("SELECT " ++ dquote ++ "id" ++ dquote ++ " " ++ newline
            ++ "                     FROM " ++ dquote ++ "public" ++ dquote
            ++ "." ++ dquote ++ "docs" ++ dquote ++ " " ++ newline
            ++ "                     ORDER BY " ++ dquote ++ "embedding"
            ++ dquote ++ " <=> '[1]'::vector " ++ newline
            ++ "                     LIMIT 3").
Proof. repeat split. Qed.

(** In [simple_crud.py] every non-zero limit is spelled out in the text
    and leaves the parameters as they were. *)
Lemma simple_limit_text (table_name schema : string) (n : Z) :
  n <> 0%Z ->
  SimpleCrudOperations.query_sql table_name None None
    (Some (QueryOptions.mk (Some n) None [] [] [])) schema
  = inr ("SELECT * FROM " ++ dquote ++ schema ++ dquote ++ "." ++ dquote
         ++ table_name ++ dquote ++ " LIMIT " ++ str_int n,
         []).
Proof.
  intros Hn. unfold SimpleCrudOperations.query_sql.
  cbn [SimpleCrudOperations.add_where SimpleCrudOperations.add_options
       ebind eret QueryOptions.order_by QueryOptions.limit
       QueryOptions.offset truthy_list truthy_opt_int].
  destruct (Z.eqb_spec n 0) as [-> | _]; [contradiction |].
  cbn [negb]. unfold eret. f_equal. f_equal.
  now rewrite !append_assoc.
Qed.

(** The same page through [crud_operations.py]: two placeholders in the
    text, the two numbers in the parameters. *)
Example crud_limit_and_offset_are_parameters :
  exists sql,
    CrudOperations._build_select_sql "t" None None (Some sample_page) "public"
    = inr (sql, [VInt 5; VInt 2])
    /\ as_string sql
       = "SELECT * FROM " ++ dquote ++ "public" ++ dquote ++ "." ++ dquote
         ++ "t" ++ dquote ++ " LIMIT %s OFFSET %s".
Proof. eexists. split; reflexivity. Qed.

(** ** Column clauses *)

(** Brings a column clause built by successive appends into the form of
    [column_clause], flag by flag. *)
Ltac normalize_clause col :=
  unfold column_clause, quoting_default, recognizing_default, eret;
  destruct (ColumnDefinition.nullable col);
  destruct (ColumnDefinition.primary_key col);
  destruct (ColumnDefinition.unique col);
  destruct (ColumnDefinition.check_constraint col) as [chk |];
  try destruct (truthy_str chk);
  destruct (is_not_None (ColumnDefinition.default col));
  destruct (is_str (ColumnDefinition.default col));
  cbn [negb andb];
  repeat match goal with
         | |- context [if ?b then _ else _] => destruct b
         end;
  rewrite ?append_assoc, ?append_nil_r; cbn [append];
  rewrite ?append_assoc, ?append_nil_r; reflexivity.

Lemma crud_col_def_shape (col : ColumnDefinition.t) :
  CrudOperations.col_def col
  = match CrudOperations._format_data_type col with
    | inl e => inl e
    | inr ty => inr (column_clause quoting_default col ty)
    end.
Proof.
  unfold CrudOperations.col_def.
  destruct (CrudOperations._format_data_type col) as [e | ty];
    [reflexivity |].
  cbn [ebind]. normalize_clause col.
Qed.

Lemma simple_col_def_shape (col : ColumnDefinition.t) :
  SimpleCrudOperations.col_def col
  = match SimpleCrudOperations._format_data_type col with
    | inl e => inl e
    | inr ty =>
        inr (column_clause
               (recognizing_default SimpleCrudOperations.special_functions)
               col ty)
    end.
Proof.
  unfold SimpleCrudOperations.col_def.
  destruct (SimpleCrudOperations._format_data_type col) as [e | ty];
    [reflexivity |].
  cbn [ebind]. normalize_clause col.
Qed.

Lemma vector_col_def_shape (col : ColumnDefinition.t) :
  VectorOperations.col_def col
  = match VectorOperations._format_data_type col with
    | inl e => inl e
    | inr ty =>
        inr (column_clause
               (recognizing_default VectorOperations.special_functions)
               col ty)
    end.
Proof.
  unfold VectorOperations.col_def.
  destruct (VectorOperations._format_data_type col) as [e | ty];
    [reflexivity |].
  cbn [ebind]. normalize_clause col.
Qed.

(** C7. [crud_operations.py] does not recognize SQL functions: a
    [CURRENT_TIMESTAMP] default comes out between single quotes, in the
    column clause and in the CREATE TABLE statement built from it. *)
Theorem crud_create_table_quotes_sql_functions :
  CrudOperations.col_def created_at_column
  = inr (dquote ++ "created_at" ++ dquote
         ++ " timestamp NOT NULL DEFAULT 'CURRENT_TIMESTAMP'")
  /\ CrudOperations._build_create_table_sql
       (TableDefinition.mk "events" [created_at_column] "public" [] [])
     = inr ("CREATE TABLE " ++ dquote ++ "public" ++ dquote ++ "." ++ dquote
            ++ "events" ++ dquote ++ " (" ++ dquote ++ "created_at" ++ dquote
            ++ " timestamp NOT NULL DEFAULT 'CURRENT_TIMESTAMP')").
Proof. split; reflexivity. Qed.

(** The same column through [simple_crud.py] and through
    [vector_operations.py]: the function is left as it is. *)
Example sibling_builders_keep_sql_functions :
  SimpleCrudOperations.col_def created_at_column
  = inr (dquote ++ "created_at" ++ dquote
         ++ " timestamp NOT NULL DEFAULT CURRENT_TIMESTAMP")
  /\ VectorOperations.col_def created_at_column
     = inr (dquote ++ "created_at" ++ dquote
            ++ " timestamp NOT NULL DEFAULT CURRENT_TIMESTAMP").
Proof. split; reflexivity. Qed.

(** In [simple_crud.py] a recognized function is never quoted and any
    other string always is. *)
Lemma simple_default_part (s : string) :
  recognizing_default SimpleCrudOperations.special_functions (VStr s)
  = if str_in s SimpleCrudOperations.special_functions
    then " DEFAULT " ++ s
    else " DEFAULT '" ++ s ++ "'".
Proof.
  unfold recognizing_default. cbn [is_not_None is_str py_str VStr andb].
  destruct (str_in s SimpleCrudOperations.special_functions); reflexivity.
Qed.

(** In [crud_operations.py] every string is quoted. *)
Lemma crud_default_part (s : string) :
  quoting_default (VStr s) = " DEFAULT '" ++ s ++ "'".
Proof. reflexivity. Qed.

(** ** Affected rows *)

(** C8. An UPDATE that changes exactly one row and asks for no RETURNING
    is reported with [affected_rows = 0]: the count is the number of rows
    the driver hands back, and without RETURNING it hands back none.  It
    is so in both classes. *)
Theorem update_without_returning_reports_no_row :
  (exists r log',
      SimpleCrudOperations.update_records (dml_runtime [scenario_B_row] None)
        "t" [("name", VStr "z")] scenario_B_conditions "public" None []
      = (inr r, log')
      /\ OperationResult.success r = true
      /\ OperationResult.affected_rows r = Some 0%Z
      /\ OperationResult.returned_data r = [])
  /\ (exists r log',
         CrudOperations.update_records (dml_runtime [scenario_B_row] None)
           "t" [("name", VStr "z")] scenario_B_conditions "public" None []
         = (inr r, log')
         /\ OperationResult.success r = true
         /\ OperationResult.affected_rows r = Some 0%Z
         /\ OperationResult.returned_data r = []).
Proof. split; eexists; eexists; repeat split. Qed.

(** Scenario B with RETURNING: one row back, one row counted. *)
Example update_with_returning_reports_the_row :
  exists r log',
    SimpleCrudOperations.update_records
      (dml_runtime [scenario_B_row] (Some ["id"; "name"]))
      "t" [("name", VStr "z")] scenario_B_conditions "public"
      (Some ["id"; "name"]) []
    = (inr r, log')
    /\ OperationResult.success r = true
    /\ OperationResult.affected_rows r = Some 1%Z
    /\ OperationResult.returned_data r = [scenario_B_row].
Proof. eexists. eexists. repeat split. Qed.

(** Whatever the statement changed, the count an UPDATE or a DELETE
    reports is the number of rows in the driver's reply. *)
Lemma affected_rows_counts_the_reply (self : Runtime) table_name data
    conditions schema returning_columns start_time log r log' :
  SimpleCrudOperations.update_records_try self table_name data conditions
    schema returning_columns start_time log = (inr r, log') ->
  exists call,
    log' = (log ++ [call])%list
    /\ OperationResult.affected_rows r = Some (len_of (reply_at self log' (length log)))
    /\ OperationResult.returned_data r
       = cells_of (reply_at self log' (length log)).
Proof.
  unfold SimpleCrudOperations.update_records_try. intros H.
  unfold bind, lift, ret, execute_query, elapsed_ms, time_time in H.
  destruct (SimpleCrudOperations.update_sql table_name data conditions schema
              returning_columns) as [e | [sql params]]; [discriminate |].
  destruct (sql_driver self log (mkCall sql (Some params)))
    as [msg | rows] eqn:Hreply; [discriminate |].
  injection H as <- <-.
  exists (mkCall sql (Some params)).
  unfold reply_at.
  rewrite nth_error_app2 by lia. rewrite Nat.sub_diag. cbn [nth_error].
  rewrite firstn_app, firstn_all, Nat.sub_diag. cbn [firstn].
  rewrite app_nil_r, Hreply. repeat split.
Qed.

(** * Further properties *)

(** ** Which condition lists the compilers accept *)

Section WhereAccepts.

Variable Clause : Type.
Variable clause_of :
  QueryCondition.t -> list PyValue -> Exc (Clause * list PyValue).
Variable connector : QueryCondition.t -> Clause.

Hypothesis clause_of_accepts : forall c ps,
    well_formed c = true -> exists r, clause_of c ps = inr r.

Lemma where_rec_accepts : forall l prev acc,
    forallb well_formed l = true ->
    exists r, where_rec clause_of connector prev l acc = inr r.
Proof.
  induction l as [| c rest IH]; intros prev acc H; [eexists; reflexivity |].
  cbn [forallb] in H. apply andb_true_iff in H. destruct H as [Hc Hrest].
  cbn [where_rec].
  destruct (clause_of_accepts c (snd acc) Hc) as [[clause ps] ->].
  now apply IH.
Qed.

End WhereAccepts.

Lemma condition_clause_accepts (c : QueryCondition.t) ps :
  well_formed c = true ->
  exists r, CrudOperations.condition_clause c ps = inr r.
Proof.
  unfold well_formed, CrudOperations.condition_clause, is_null_check,
    is_membership, is_sequence.
  destruct (str_in _ ["IS NULL"; "IS NOT NULL"]);
    [intros _; cbn; eexists; reflexivity |].
  destruct (str_in _ ["IN"; "NOT IN"]);
    [| intros _; cbn; eexists; reflexivity].
  destruct (QueryCondition.value c); intros H; try discriminate;
    cbn; eexists; reflexivity.
Qed.

Lemma condition_part_accepts (c : QueryCondition.t) ps :
  well_formed c = true ->
  exists r, SimpleCrudOperations.condition_part c ps = inr r.
Proof.
  unfold well_formed, SimpleCrudOperations.condition_part, is_null_check,
    is_membership, is_sequence.
  destruct (str_in _ ["IS NULL"; "IS NOT NULL"]);
    [intros _; cbn; eexists; reflexivity |].
  destruct (str_in _ ["IN"; "NOT IN"]);
    [| intros _; cbn; eexists; reflexivity].
  destruct (QueryCondition.value c); intros H; try discriminate;
    cbn; eexists; reflexivity.
Qed.

Lemma build_where_clause_accepts (conditions : list QueryCondition.t) :
  forallb well_formed conditions = true ->
  exists r, CrudOperations._build_where_clause conditions = inr r.
Proof.
  intros H. destruct conditions as [| c rest]; [eexists; reflexivity |].
  rewrite build_where_clause_unfold.
  destruct (where_rec_accepts _ _ crud_connector condition_clause_accepts
              (c :: rest) None ([], []) H) as [[cls ps] ->].
  eexists; reflexivity.
Qed.

Lemma add_where_accepts (conditions : list QueryCondition.t) sql ps :
  forallb well_formed conditions = true ->
  exists r, SimpleCrudOperations.add_where conditions sql ps = inr r.
Proof.
  intros H. destruct conditions as [| c rest]; [eexists; reflexivity |].
  rewrite add_where_unfold.
  destruct (where_rec_accepts _ _ simple_connector condition_part_accepts
              (c :: rest) None ([], []) H) as [[parts dp] ->].
  eexists; reflexivity.
Qed.

(** X1. [_build_where_clause] and the loop of the string builder return
    exactly on the condition lists in which every IN and NOT IN has a list
    or a tuple for value; on every other list they raise. *)
Theorem predicate_compilers_accept_iff :
  forall (conditions : list QueryCondition.t) (sql : string)
         (params : list PyValue),
    ((exists r, CrudOperations._build_where_clause conditions = inr r)
     <-> forallb well_formed conditions = true)
    /\ ((exists r, SimpleCrudOperations.add_where conditions sql params = inr r)
        <-> forallb well_formed conditions = true).
Proof.
  intros conditions sql params. split; split.
  - intros [r Hr]. destruct (forallb well_formed conditions) eqn:H;
      [reflexivity |].
    destruct (build_where_clause_rejects conditions H) as [e He]. congruence.
  - apply build_where_clause_accepts.
  - intros [r Hr]. destruct (forallb well_formed conditions) eqn:H;
      [reflexivity |].
    destruct (add_where_rejects conditions sql params H) as [e He]. congruence.
  - apply add_where_accepts.
Qed.

(** X2. The parameters the compilers return are the parameters of the
    conditions in the order of the conditions: the value of a comparison,
    the elements of an IN or NOT IN sequence in their order, nothing for a
    NULL check.  The string builder appends them to the parameters it
    was given. *)
Theorem predicate_compilers_parameters_in_order :
  forall (conditions : list QueryCondition.t),
    (forall fragment params,
        CrudOperations._build_where_clause conditions = inr (fragment, params) ->
        params = flat_map condition_parameters conditions)
    /\ (forall sql0 params0 sql params,
           SimpleCrudOperations.add_where conditions sql0 params0
           = inr (sql, params) ->
           params = (params0 ++ flat_map condition_parameters conditions)%list).
Proof.
  intros conditions. split.
  - intros fragment params H. destruct conditions as [| c rest].
    + cbn in H. now injection H as _ <-.
    + rewrite build_where_clause_unfold in H.
      destruct (where_rec _ _ _ _ _) as [e | [clauses ps]] eqn:Hloop;
        [discriminate |].
      injection H as _ <-.
      exact (where_rec_params _ _ _ condition_clause_appends
               condition_parameters condition_clause_parameters _ _ _ _ Hloop).
  - intros sql0 params0 sql params H. destruct conditions as [| c rest].
    + cbn in H. injection H as _ <-. now rewrite app_nil_r.
    + rewrite add_where_unfold in H.
      destruct (where_rec _ _ _ _ _) as [e | [parts dp]] eqn:Hloop;
        [discriminate |].
      injection H as _ <-. f_equal.
      exact (where_rec_params _ _ _ condition_part_appends
               condition_parameters condition_part_parameters _ _ _ _ Hloop).
Qed.

Lemma predicate_compilers_parameters_in_order_witness :
  exists fragment,
    CrudOperations._build_where_clause sample_conditions
    = inr (fragment, [VInt 25; VBool true; VInt 1; VInt 2])
    /\ [VInt 25; VBool true; VInt 1; VInt 2]
       = flat_map condition_parameters sample_conditions.
Proof.
  eexists. split; [reflexivity |].
  eapply (proj1 (predicate_compilers_parameters_in_order sample_conditions)).
  reflexivity.
Defined.

(** ** The two predicate compilers side by side *)

Lemma double_quotes_quote_free (s : string) :
  quote_free s = true -> double_quotes s = s.
Proof.
  unfold quote_free. induction s as [| c s IH]; [reflexivity |].
  cbn [contains_char double_quotes]. rewrite Ascii.eqb_sym.
  destruct (Ascii.eqb c (ascii_of_nat 34)); [discriminate |].
  cbn [orb]. intros H. now rewrite IH.
Qed.

Lemma as_string_Identifier_quote_free (s : string) :
  quote_free s = true -> as_string (Identifier s) = dquote ++ s ++ dquote.
Proof. intros H. cbn [as_string]. now rewrite double_quotes_quote_free. Qed.

Lemma render_placeholders (n : nat) :
  as_string (SQL_join ", " (replicate n (SQL "%s")))
  = join ", " (replicate n "%s").
Proof.
  unfold SQL_join, join, replicate. rewrite as_string_Composed.
  induction n as [| n IH]; [reflexivity |].
  destruct n as [| n]; [reflexivity |].
  change (repeat (SQL "%s") (S (S n)))
    with (SQL "%s" :: repeat (SQL "%s") (S n)).
  change (repeat "%s" (S (S n))) with ("%s" :: repeat "%s" (S n)).
  change (intersperse (SQL ", ") (SQL "%s" :: repeat (SQL "%s") (S n)))
    with (SQL "%s" :: SQL ", "
            :: intersperse (SQL ", ") (repeat (SQL "%s") (S n))).
  cbn [render_all as_string]. rewrite IH. reflexivity.
Qed.

(** Compares two texts made of the same pieces put together in
    different groupings. *)
Ltac same_text :=
  unfold dquote;
  repeat (progress (rewrite ?append_assoc, ?append_nil_r; cbn [append]));
  reflexivity.

(** The three templates of the branch on the operator, filled in. *)
Lemma format_null_check (a b : Composable) :
  SQL_format "{} {}" [a; b] = inr (Composed [a; SQL " "; b]).
Proof. reflexivity. Qed.

Lemma format_membership (a b c : Composable) :
  SQL_format "{} {} ({})" [a; b; c]
  = inr (Composed [a; SQL " "; b; SQL " ("; c; SQL ")"]).
Proof. reflexivity. Qed.

Lemma format_comparison (a b : Composable) :
  SQL_format "{} {} %s" [a; b] = inr (Composed [a; SQL " "; b; SQL " %s"]).
Proof. reflexivity. Qed.

(** One condition through both branches on the operator. *)
Lemma condition_clause_matches_part (c : QueryCondition.t) ps :
  quote_free (QueryCondition.column c) = true ->
  match CrudOperations.condition_clause c ps,
        SimpleCrudOperations.condition_part c ps with
  | inr (clause, p1), inr (part, p2) => as_string clause = part /\ p1 = p2
  | inl e1, inl e2 => e1 = e2
  | _, _ => False
  end.
Proof.
  intros Hq.
  unfold CrudOperations.condition_clause, SimpleCrudOperations.condition_part.
  rewrite format_null_check, format_comparison.
  destruct (str_in _ ["IS NULL"; "IS NOT NULL"]).
  - cbn [ebind eret]. split; [| reflexivity].
    rewrite as_string_Composed. cbn [render_all].
    rewrite (as_string_Identifier_quote_free _ Hq). cbn [as_string].
    same_text.
  - destruct (str_in _ ["IN"; "NOT IN"]).
    + destruct (QueryCondition.value c); try reflexivity;
        rewrite format_membership; cbn [ebind eret];
        (split; [| reflexivity]);
        rewrite as_string_Composed; cbn [render_all];
        rewrite render_placeholders, (as_string_Identifier_quote_free _ Hq);
        cbn [as_string]; same_text.
    + cbn [ebind eret]. split; [| reflexivity].
      rewrite as_string_Composed. cbn [render_all].
      rewrite (as_string_Identifier_quote_free _ Hq). cbn [as_string].
      same_text.
Qed.

(** The two loops, run from accumulators that read the same. *)
Lemma loops_match : forall l prev cls parts ps,
    forallb (fun c => quote_free (QueryCondition.column c)) l = true ->
    render_all cls = join EmptyString parts ->
    match where_rec CrudOperations.condition_clause crud_connector prev l
                    (cls, ps),
          where_rec SimpleCrudOperations.condition_part simple_connector
                    prev l (parts, ps) with
    | inr (cls', p1), inr (parts', p2) =>
        render_all cls' = join EmptyString parts' /\ p1 = p2
    | inl e1, inl e2 => e1 = e2
    | _, _ => False
    end.
Proof.
  induction l as [| c rest IH]; intros prev cls parts ps Hq Hacc.
  - cbn. auto.
  - cbn [forallb] in Hq. apply andb_true_iff in Hq. destruct Hq as [Hc Hrest].
    cbn [where_rec fst snd].
    pose proof (condition_clause_matches_part c ps Hc) as Hm.
    destruct (CrudOperations.condition_clause c ps) as [e1 | [clause p1]];
      destruct (SimpleCrudOperations.condition_part c ps) as [e2 | [part p2]];
      try contradiction; [exact Hm |].
    destruct Hm as [Hclause <-].
    apply IH; [exact Hrest |].
    destruct prev as [p |].
    + rewrite !render_all_app, !join_empty_app. cbn [render_all].
      unfold crud_connector, simple_connector. cbn [as_string].
      rewrite Hacc, Hclause. unfold join. cbn [String.concat].
      now rewrite ?append_nil_r.
    + rewrite render_all_app, join_empty_app. cbn [render_all].
      rewrite Hacc, Hclause. unfold join. cbn [String.concat].
      now rewrite ?append_nil_r.
Qed.

(** X3. On conditions whose column names hold no double quote the psycopg
    builder and the string builder compile the same WHERE text and the
    same parameters, and they raise on the same lists with the same
    message. *)
Theorem predicate_compilers_agree :
  forall (conditions : list QueryCondition.t) (sql0 : string),
    forallb (fun c => quote_free (QueryCondition.column c)) conditions = true ->
    match CrudOperations._build_where_clause conditions,
          SimpleCrudOperations.add_where conditions sql0 [] with
    | inr (Some fragment, p1), inr (sql, p2) =>
        sql = sql0 ++ " WHERE " ++ as_string fragment /\ p1 = p2
    | inr (None, p1), inr (sql, p2) => sql = sql0 /\ p1 = [] /\ p2 = []
    | inl e1, inl e2 => e1 = e2
    | _, _ => False
    end.
Proof.
  intros conditions sql0 Hq. destruct conditions as [| c rest].
  - cbn. auto.
  - rewrite build_where_clause_unfold, add_where_unfold.
    pose proof (loops_match (c :: rest) None [] [] [] Hq eq_refl) as Hm.
    destruct (where_rec CrudOperations.condition_clause _ _ _ _)
      as [e1 | [cls p1]];
      destruct (where_rec SimpleCrudOperations.condition_part _ _ _ _)
        as [e2 | [parts p2]];
      try contradiction; [exact Hm |].
    destruct Hm as [Hr <-]. split; [| reflexivity].
    now rewrite as_string_join_empty, Hr.
Qed.

Lemma predicate_compilers_agree_witness :
  forallb (fun c => quote_free (QueryCondition.column c)) sample_conditions
  = true
  /\ match CrudOperations._build_where_clause sample_conditions,
           SimpleCrudOperations.add_where sample_conditions "SELECT 1" [] with
     | inr (Some fragment, p1), inr (sql, p2) =>
         sql = "SELECT 1" ++ " WHERE " ++ as_string fragment /\ p1 = p2
     | inr (None, p1), inr (sql, p2) => sql = "SELECT 1" /\ p1 = [] /\ p2 = []
     | inl e1, inl e2 => e1 = e2
     | _, _ => False
     end.
Proof.
  split; [reflexivity |].
  exact (predicate_compilers_agree sample_conditions "SELECT 1" eq_refl).
Defined.

(** ** Placeholders and parameters *)

Lemma count_char_app (c : ascii) (a b : string) :
  count_char c (a ++ b) = (count_char c a + count_char c b)%nat.
Proof.
  induction a as [| ch a IH]; [reflexivity |].
  cbn [append count_char]. rewrite IH. lia.
Qed.

Lemma placeholders_app (a b : string) :
  placeholders (a ++ b) = (placeholders a + placeholders b)%nat.
Proof. apply count_char_app. Qed.

Lemma placeholders_upper (s : string) : placeholders (upper s) = placeholders s.
Proof.
  unfold placeholders, upper. induction s as [| c s IH]; [reflexivity |].
  cbn [map_string count_char]. rewrite IH. f_equal.
  destruct c as [[] [] [] [] [] [] [] []]; reflexivity.
Qed.

Lemma placeholders_double_quotes (s : string) :
  placeholders (double_quotes s) = placeholders s.
Proof.
  unfold placeholders. induction s as [| c s IH]; [reflexivity |].
  cbn [double_quotes].
  destruct (Ascii.eqb c (ascii_of_nat 34)) eqn:E;
    cbn [count_char]; rewrite IH; [| reflexivity].
  apply Ascii.eqb_eq in E. subst c. reflexivity.
Qed.

Lemma placeholders_Identifier (s : string) :
  placeholders (as_string (Identifier s)) = placeholders s.
Proof.
  cbn [as_string]. rewrite !placeholders_app, placeholders_double_quotes.
  change (placeholders dquote) with 0%nat. lia.
Qed.

Lemma placeholders_quoted (s : string) :
  placeholders (dquote ++ s ++ dquote) = placeholders s.
Proof.
  rewrite !placeholders_app. change (placeholders dquote) with 0%nat. lia.
Qed.

Lemma placeholders_replicate (n : nat) :
  placeholders (join ", " (replicate n "%s")) = n.
Proof.
  unfold join, replicate. induction n as [| n IH]; [reflexivity |].
  destruct n as [| n]; [reflexivity |].
  change (repeat "%s" (S (S n))) with ("%s" :: "%s" :: repeat "%s" n).
  change (String.concat ", " ("%s" :: "%s" :: repeat "%s" n))
    with ("%s" ++ ", " ++ String.concat ", " (repeat "%s" (S n))).
  rewrite !placeholders_app, IH. reflexivity.
Qed.

Lemma placeholders_render_all (l : list Composable) :
  placeholders (render_all l)
  = list_sum (map (fun p => placeholders (as_string p)) l).
Proof.
  induction l as [| p l IH]; [reflexivity |].
  cbn [render_all map list_sum]. now rewrite placeholders_app, IH.
Qed.

Lemma placeholders_join_empty (l : list string) :
  placeholders (join EmptyString l) = list_sum (map placeholders l).
Proof.
  induction l as [| p l IH]; [reflexivity |].
  rewrite join_empty_cons, placeholders_app, IH. reflexivity.
Qed.

Section WherePlaceholders.

Variable Clause : Type.
Variable clause_of :
  QueryCondition.t -> list PyValue -> Exc (Clause * list PyValue).
Variable connector : QueryCondition.t -> Clause.
Variable text : Clause -> string.

Hypothesis clause_of_appends : forall c ps,
    clause_of c ps
    = match clause_of c [] with
      | inl e => inl e
      | inr (clause, dp) => inr (clause, (ps ++ dp)%list)
      end.
Hypothesis clause_placeholders : forall c clause dp,
    percent_free c -> clause_of c [] = inr (clause, dp) ->
    placeholders (text clause) = length dp.
Hypothesis connector_placeholders : forall p,
    percent_free p -> placeholders (text (connector p)) = 0%nat.

Lemma where_rec_placeholders : forall l prev cls ps,
    Forall percent_free l ->
    match prev with Some p => percent_free p | None => True end ->
    where_rec clause_of connector prev l ([], []) = inr (cls, ps) ->
    list_sum (map (fun cl => placeholders (text cl)) cls) = length ps.
Proof.
  induction l as [| c rest IH]; intros prev cls ps Hall Hprev H.
  - cbn in H. now injection H as <- <-.
  - inversion Hall as [| c' rest' Hc Hrest]; subst.
    cbn [where_rec fst snd] in H.
    destruct (clause_of c []) as [e | [clause dp]] eqn:Hclause;
      [discriminate |].
    rewrite (where_rec_acc _ _ _ clause_of_appends) in H.
    destruct (where_rec clause_of connector (Some c) rest ([], []))
      as [e | [dc dp']] eqn:Hloop; [discriminate |].
    injection H as <- <-.
    apply IH in Hloop; [| exact Hrest | exact Hc].
    rewrite !map_app, !list_sum_app, length_app, Hloop.
    cbn [map list_sum]. rewrite (clause_placeholders c clause dp Hc Hclause).
    destruct prev as [p |]; cbn [app map list_sum];
      [rewrite (connector_placeholders p Hprev) |];
      cbn [list_sum fold_right]; lia.
Qed.

End WherePlaceholders.

Lemma condition_clause_placeholders (c : QueryCondition.t) clause dp :
  percent_free c ->
  CrudOperations.condition_clause c [] = inr (clause, dp) ->
  placeholders (as_string clause) = length dp.
Proof.
  intros [Hcol [Hop _]].
  unfold CrudOperations.condition_clause.
  rewrite format_null_check, format_comparison.
  destruct (str_in _ ["IS NULL"; "IS NOT NULL"]).
  - cbn [ebind eret]. intros H. injection H as <- <-.
    rewrite as_string_Composed. cbn [render_all].
    rewrite !placeholders_app, placeholders_Identifier. cbn [as_string].
    rewrite placeholders_upper, Hcol, Hop. reflexivity.
  - destruct (str_in _ ["IN"; "NOT IN"]).
    + destruct (QueryCondition.value c); try discriminate;
        rewrite format_membership; cbn [ebind eret];
        intros H; injection H as <- <-;
        rewrite as_string_Composed; cbn [render_all];
        rewrite !placeholders_app, placeholders_Identifier,
          render_placeholders, placeholders_replicate;
        cbn [as_string]; rewrite placeholders_upper, Hcol, Hop;
        cbn; lia.
    + cbn [ebind eret]. intros H. injection H as <- <-.
      rewrite as_string_Composed. cbn [render_all].
      rewrite !placeholders_app, placeholders_Identifier. cbn [as_string].
      rewrite Hcol, Hop. reflexivity.
Qed.

Lemma inr_pair_eq (E A B : Type) (a a' : A) (b b' : B) :
  @inr E (A * B) (a, b) = inr (a', b') -> a = a' /\ b = b'.
Proof. intros H. now injection H. Qed.

Lemma condition_part_placeholders (c : QueryCondition.t) part dp :
  percent_free c ->
  SimpleCrudOperations.condition_part c [] = inr (part, dp) ->
  placeholders part = length dp.
Proof.
  intros [Hcol [Hop _]].
  unfold SimpleCrudOperations.condition_part.
  destruct (str_in _ ["IS NULL"; "IS NOT NULL"]).
  - unfold eret. intros H. apply inr_pair_eq in H. destruct H as [<- <-].
    rewrite !placeholders_app, placeholders_upper, Hcol, Hop. reflexivity.
  - destruct (str_in _ ["IN"; "NOT IN"]).
    + destruct (QueryCondition.value c); try discriminate;
        unfold eret; intros H; apply inr_pair_eq in H; destruct H as [<- <-];
        rewrite !placeholders_app, placeholders_replicate,
          placeholders_upper, Hcol, Hop; cbn; lia.
    + unfold eret. intros H. apply inr_pair_eq in H. destruct H as [<- <-].
      rewrite !placeholders_app, Hcol, Hop. reflexivity.
Qed.

Lemma crud_connector_placeholders (p : QueryCondition.t) :
  percent_free p -> placeholders (as_string (crud_connector p)) = 0%nat.
Proof.
  intros [_ [_ Hlo]]. unfold crud_connector. cbn [as_string].
  rewrite !placeholders_app, placeholders_upper, Hlo. reflexivity.
Qed.

Lemma simple_connector_placeholders (p : QueryCondition.t) :
  percent_free p -> placeholders (simple_connector p) = 0%nat.
Proof.
  intros [_ [_ Hlo]]. unfold simple_connector.
  rewrite !placeholders_app, placeholders_upper, Hlo. reflexivity.
Qed.

(** X4. When no column name, operator or connector of the conditions
    holds a percent sign, the WHERE text has exactly as many placeholders
    as there are parameters: in the fragment of [_build_where_clause], and
    in what the string builder adds to its statement and parameters. *)
Theorem where_placeholders_match_parameters :
  forall (conditions : list QueryCondition.t),
    Forall percent_free conditions ->
    (forall fragment params,
        CrudOperations._build_where_clause conditions
        = inr (Some fragment, params) ->
        placeholders (as_string fragment) = length params)
    /\ (forall sql0 params0 sql params,
           SimpleCrudOperations.add_where conditions sql0 params0
           = inr (sql, params) ->
           (placeholders sql + length params0
            = placeholders sql0 + length params)%nat).
Proof.
  intros conditions Hall. split.
  - intros fragment params H. destruct conditions as [| c rest];
      [discriminate |].
    rewrite build_where_clause_unfold in H.
    destruct (where_rec _ _ _ _ _) as [e | [cls ps]] eqn:Hloop;
      [discriminate |].
    injection H as <- <-.
    rewrite as_string_join_empty, placeholders_render_all.
    exact (where_rec_placeholders _ _ _ as_string condition_clause_appends
             condition_clause_placeholders crud_connector_placeholders
             _ None _ _ Hall I Hloop).
  - intros sql0 params0 sql params H. destruct conditions as [| c rest].
    + cbn in H. injection H as <- <-. lia.
    + rewrite add_where_unfold in H.
      destruct (where_rec _ _ _ _ _) as [e | [parts dp]] eqn:Hloop;
        [discriminate |].
      apply inr_pair_eq in H. destruct H as [<- <-].
      rewrite !placeholders_app, placeholders_join_empty, length_app.
      replace (list_sum (map placeholders parts)) with (length dp)
        by (symmetry;
            exact (where_rec_placeholders _ _ _ (fun s => s)
                     condition_part_appends condition_part_placeholders
                     simple_connector_placeholders _ None _ _ Hall I Hloop)).
      change (placeholders " WHERE ") with 0%nat. lia.
Qed.

Lemma where_placeholders_match_parameters_witness :
  Forall percent_free sample_conditions
  /\ exists fragment,
       CrudOperations._build_where_clause sample_conditions
       = inr (Some fragment, [VInt 25; VBool true; VInt 1; VInt 2])
       /\ placeholders (as_string fragment) = 4%nat.
Proof.
  assert (H : Forall percent_free sample_conditions)
    by (repeat constructor).
  split; [exact H |].
  eexists. split; [reflexivity |].
  apply (proj1 (where_placeholders_match_parameters sample_conditions H)
           _ [VInt 25; VBool true; VInt 1; VInt 2]).
  reflexivity.
Defined.

Lemma placeholders_join_comma (l : list string) :
  placeholders (join ", " l) = list_sum (map placeholders l).
Proof.
  unfold join. induction l as [| x l IH]; [reflexivity |].
  destruct l as [| y l].
  - cbn [String.concat map list_sum fold_right]. lia.
  - change (String.concat ", " (x :: y :: l))
      with (x ++ ", " ++ String.concat ", " (y :: l)).
    rewrite !placeholders_app, IH.
    change (placeholders ", ") with 0%nat. cbn [map list_sum fold_right]. lia.
Qed.

Lemma placeholders_quoted_list (l : list string) :
  Forall (fun c => placeholders c = 0%nat) l ->
  placeholders (join ", " (map (fun col => dquote ++ col ++ dquote) l)) = 0%nat.
Proof.
  intros H. rewrite placeholders_join_comma.
  induction H as [| c l Hc Hl IH]; [reflexivity |].
  cbn [map list_sum fold_right] in *. rewrite placeholders_quoted, Hc. exact IH.
Qed.

Lemma length_replicate (A : Type) (n : nat) (x : A) :
  length (replicate n x) = n.
Proof. apply repeat_length. Qed.

Lemma simple_insert_sql_placeholders (table_name schema : string)
    (columns : list string) (returning_columns : option (list string)) :
  placeholders table_name = 0%nat -> placeholders schema = 0%nat ->
  Forall (fun c => placeholders c = 0%nat) columns ->
  Forall (fun c => placeholders c = 0%nat)
         (match returning_columns with Some l => l | None => [] end) ->
  placeholders (SimpleCrudOperations.insert_sql table_name columns schema
                                                returning_columns)
  = length columns.
Proof.
  intros Ht Hs Hc Hr. unfold SimpleCrudOperations.insert_sql.
  destruct returning_columns as [[| r rs] |];
    rewrite !placeholders_app, ?placeholders_quoted_list, ?placeholders_replicate,
      ?Ht, ?Hs by assumption;
    change (placeholders dquote) with 0%nat;
    cbn; lia.
Qed.

Lemma simple_row_params_from (self : Runtime) (row : Record_)
    (columns : list string) (acc params : list PyValue) :
  efold (fun params col =>
           (value <- match row_get row col with
                     | VList _ | VDict _ =>
                         s <- json_dumps self (row_get row col);;
                         eret (VStr s)
                     | _ => eret (row_get row col)
                     end;;
            eret (params ++ [value])%list)%exc) columns acc = inr params ->
  length params = (length acc + length columns)%nat.
Proof.
  revert acc params.
  induction columns as [| col rest IH]; intros acc params H.
  - cbn in H. injection H as <-. cbn. lia.
  - cbn [efold] in H.
    match type of H with
    | ebind ?step _ = _ => destruct step as [e | acc'] eqn:Hstep
    end; [discriminate |].
    cbn [ebind] in H. apply IH in H. rewrite H.
    assert (Hacc : length acc' = S (length acc)).
    { destruct (row_get row col); cbn in Hstep;
        try (injection Hstep as <-; rewrite length_app; cbn; lia);
        destruct (json_dumps self _); cbn in Hstep; try discriminate;
        injection Hstep as <-; rewrite length_app; cbn; lia. }
    rewrite Hacc. cbn [length]. lia.
Qed.

Lemma simple_row_params_length (self : Runtime) (columns : list string)
    (row : Record_) (params : list PyValue) :
  SimpleCrudOperations.row_params self columns row = inr params ->
  length params = length columns.
Proof.
  intros H. exact (simple_row_params_from self row columns [] params H).
Qed.

(** X5. Every INSERT of the string builder carries as many parameters as
    its text has placeholders, one per key of the first record, when the
    names hold no percent sign; and [_build_insert_sql] gives every
    record a parameter row of that same length, whatever keys the record
    itself has. *)
Theorem insert_placeholders_match_parameters :
  forall (self : Runtime) (table_name schema : string)
         (returning_columns : option (list string)) (first : Record_)
         (rest : list Record_),
    placeholders table_name = 0%nat -> placeholders schema = 0%nat ->
    Forall (fun c => placeholders c = 0%nat) (keys first) ->
    Forall (fun c => placeholders c = 0%nat)
           (match returning_columns with Some l => l | None => [] end) ->
    (forall row params,
        SimpleCrudOperations.row_params self (keys first) row = inr params ->
        placeholders (SimpleCrudOperations.insert_sql table_name (keys first)
                        schema returning_columns)
        = length params)
    /\ (exists sql rows,
           CrudOperations._build_insert_sql table_name (first :: rest) schema
                                            returning_columns
           = inr (sql, rows)
           /\ length rows = S (length rest)
           /\ Forall (fun row => length row = placeholders sql) rows).
Proof.
  intros self table_name schema returning_columns first rest Ht Hs Hc Hr.
  pose proof (simple_insert_sql_placeholders table_name schema (keys first)
                returning_columns Ht Hs Hc Hr) as Hsql.
  split.
  - intros row params H. rewrite Hsql.
    symmetry. exact (simple_row_params_length self _ _ _ H).
  - eexists. eexists. split; [reflexivity |]. split.
    + cbn [length]. now rewrite length_map.
    + change (placeholders _)
        with (placeholders (SimpleCrudOperations.insert_sql table_name
                              (keys first) schema returning_columns)).
      rewrite Hsql. apply Forall_forall. intros row Hin.
      change (In row (map (fun r => map (row_get r) (keys first))
                          (first :: rest))) in Hin.
      apply in_map_iff in Hin. destruct Hin as [r [<- _]].
      apply length_map.
Qed.

Lemma insert_placeholders_match_parameters_witness :
  exists sql rows,
    CrudOperations._build_insert_sql "t" scenario_A_data "public"
                                     (Some ["id"; "name"])
    = inr (sql, rows)
    /\ length rows = 2%nat
    /\ Forall (fun row => length row = placeholders sql) rows.
Proof.
  refine (proj2 (insert_placeholders_match_parameters serial_runtime "t"
                   "public" (Some ["id"; "name"]) [("name", VStr "a")]
                   [[("name", VStr "b")]] eq_refl eq_refl _ _));
    repeat constructor.
Defined.

Lemma simple_insert_loop_calls (self : Runtime) sql columns returning_columns :
  forall data acc log res log',
    mfold (SimpleCrudOperations.insert_step self sql columns returning_columns)
          data acc log
    = (res, log') ->
    exists calls,
      log' = (log ++ calls)%list
      /\ (length calls <= length data)%nat
      /\ Forall (fun c => call_sql c = sql) calls
      /\ (forall out, res = inr out ->
                      snd out = (snd acc + Z.of_nat (length data))%Z
                      /\ length calls = length data)
      /\ match res with
         | inr _ => driver_executes self log calls = true
         | inl _ =>
             ((length calls =? length data)%nat
              && driver_executes self log calls) = false
         end.
Proof.
  induction data as [| row rest IH]; intros [returned n] log res log' H.
  - cbn in H. injection H as <- <-. exists []. rewrite app_nil_r.
    split; [reflexivity |]. split; [cbn; lia |]. split; [constructor |].
    split; [| reflexivity].
    intros out [= <-]. cbn. split; [lia | reflexivity].
  - cbn [mfold] in H. unfold bind at 1 in H.
    destruct (SimpleCrudOperations.insert_step self sql columns
                returning_columns (returned, n) row log)
      as [[e | [returned1 n1]] log1] eqn:Hstep.
    + injection H as <- <-.
      unfold SimpleCrudOperations.insert_step, bind, lift, ret, execute_query
        in Hstep.
      destruct (SimpleCrudOperations.row_params self columns row)
        as [e' | params].
      * injection Hstep as _ <-. exists []. rewrite app_nil_r.
        split; [reflexivity |]. split; [cbn; lia |]. split; [constructor |].
        split; [discriminate | reflexivity].
      * destruct (sql_driver self log (mkCall sql (Some params)))
          as [msg | rows] eqn:Hreply; [| destruct (_ && _); discriminate].
        injection Hstep as _ <-. exists [mkCall sql (Some params)].
        split; [reflexivity |]. split; [cbn; lia |].
        split; [repeat constructor |]. split; [discriminate |].
        cbn [driver_executes]. unfold driver_returns. rewrite Hreply.
        apply andb_false_r.
    + unfold SimpleCrudOperations.insert_step, bind, lift, ret, execute_query
        in Hstep.
      destruct (SimpleCrudOperations.row_params self columns row)
        as [e' | params]; [discriminate |].
      destruct (sql_driver self log (mkCall sql (Some params)))
        as [msg | rows] eqn:Hreply; [discriminate |].
      assert (Hacc : n1 = (n + 1)%Z
                     /\ log1 = (log ++ [mkCall sql (Some params)])%list)
        by (destruct (_ && _); injection Hstep as _ <- <-; auto).
      destruct Hacc as [-> ->].
      apply IH in H. destruct H as [calls [-> [Hlen [Hall [Hout Hexec]]]]].
      exists (mkCall sql (Some params) :: calls).
      split; [now rewrite <- app_assoc |].
      split; [cbn [length]; lia |].
      split; [constructor; auto |].
      split.
      * intros out Hres. destruct (Hout out Hres) as [Hn Hc].
        cbn [snd length] in *. split; [lia | now rewrite Hc].
      * cbn [driver_executes length Nat.eqb]. unfold driver_returns.
        rewrite Hreply. cbn [andb]. exact Hexec.
Qed.

(** What [insert_records] leaves in the log and in its result. *)
Lemma simple_insert_records_run :
  forall (self : Runtime) (table_name : string) (data : list Record_)
         (schema : string) (returning_columns : option (list string))
         (log : Log),
  exists r calls,
    SimpleCrudOperations.insert_records self table_name data schema
                                        returning_columns log
    = (inr r, (log ++ calls)%list)
    /\ (length calls <= length data)%nat
    /\ Forall (fun c =>
                 call_sql c
                 = SimpleCrudOperations.insert_sql table_name
                     (match data with first :: _ => keys first | [] => [] end)
                     schema returning_columns) calls
    /\ (if OperationResult.success r
        then data <> []
             /\ length calls = length data
             /\ OperationResult.affected_rows r
                = Some (Z.of_nat (length data))
        else OperationResult.affected_rows r = None
             /\ OperationResult.returned_data r = [])
    /\ OperationResult.success r
       = (truthy_list data
          && (length calls =? length data)%nat
          && driver_executes self log calls).
Proof.
  intros self table_name data schema returning_columns log.
  unfold SimpleCrudOperations.insert_records,
    SimpleCrudOperations.insert_records_try.
  destruct data as [| first rest].
  - exists (OperationResult.mk false
              ("Failed to insert records: " ++ "No data provided for insert")
              INSERT (SimpleCrudOperations.qualified schema table_name)
              (Some ((clock self log - clock self log) * 1000)%Q) None []),
      [].
    rewrite app_nil_r. repeat split; auto.
  - set (sql := SimpleCrudOperations.insert_sql table_name (keys first) schema
                  returning_columns).
    destruct (mfold (SimpleCrudOperations.insert_step self sql (keys first)
                       returning_columns) (first :: rest) ([], 0%Z) log)
      as [res log'] eqn:Hloop.
    destruct (simple_insert_loop_calls self sql (keys first) returning_columns
                _ _ _ _ _ Hloop) as [calls [-> [Hlen [Hall [Hout Hexec]]]]].
    unfold bind at 1, time_time at 1, try_except, bind at 1.
    rewrite Hloop.
    destruct res as [e | [returned n]].
    + eexists. exists calls. split; [reflexivity |].
      cbn [OperationResult.success truthy_list andb].
      rewrite Hexec. repeat split; auto.
    + destruct (Hout _ eq_refl) as [Hn Hc]. cbn [snd] in Hn.
      eexists. exists calls. split; [reflexivity |].
      cbn [OperationResult.success OperationResult.affected_rows
           truthy_list andb].
      rewrite Hexec, Hc, Nat.eqb_refl.
      repeat split; auto; [discriminate | now rewrite Hn].
Qed.

(** X6. [SimpleCrudOperations.insert_records] sends the driver one and the
    same INSERT text, at most once per record, and nothing else.  It reports
    success exactly when the data is not empty, every record was sent and
    the driver returned on every statement; the affected row count is then
    the number of records submitted, counted by the loop and not taken
    from the driver's replies.  A failed batch reports no count and no
    returned rows, whatever was sent before the failure. *)
Theorem simple_insert_records_calls :
  forall (self : Runtime) (table_name : string) (data : list Record_)
         (schema : string) (returning_columns : option (list string))
         (log : Log),
  exists r calls,
    SimpleCrudOperations.insert_records self table_name data schema
                                        returning_columns log
    = (inr r, (log ++ calls)%list)
    /\ (length calls <= length data)%nat
    /\ Forall (fun c =>
                 call_sql c
                 = SimpleCrudOperations.insert_sql table_name
                     (match data with first :: _ => keys first | [] => [] end)
                     schema returning_columns) calls
    /\ (if OperationResult.success r
        then data <> []
             /\ length calls = length data
             /\ OperationResult.affected_rows r
                = Some (Z.of_nat (length data))
        else OperationResult.affected_rows r = None
             /\ OperationResult.returned_data r = [])
    /\ OperationResult.success r
       = (truthy_list data
          && (length calls =? length data)%nat
          && driver_executes self log calls).
Proof. exact simple_insert_records_run. Qed.

(** Both records reach a driver that raises on the second statement, and
    the call fails: sending every record is not enough for success. *)
Example simple_insert_records_last_statement_fails :
  exists r c1 c2,
    SimpleCrudOperations.insert_records second_call_fails "t" scenario_A_data
      "public" None []
    = (inr r, [c1; c2])
    /\ OperationResult.success r = false
    /\ OperationResult.message r
       = "Failed to insert records: connection lost"
    /\ driver_executes second_call_fails [] [c1; c2] = false.
Proof. repeat eexists. Qed.

(** ** Vector searches *)

Lemma distance_expression_returns (vector_column : string)
    (search_vector : list PyValue) (distance_function : string) :
  is_distance_function distance_function = true ->
  exists e,
    VectorOperations._get_distance_expression vector_column search_vector
                                              distance_function
    = inr e.
Proof.
  unfold is_distance_function, str_in, VectorOperations._get_distance_expression.
  cbn [existsb]. intros H.
  destruct (String.eqb distance_function "cosine"); [eexists; reflexivity |].
  destruct (String.eqb distance_function "euclidean"); [eexists; reflexivity |].
  destruct (String.eqb distance_function "inner_product");
    [eexists; reflexivity | discriminate].
Qed.

Lemma distance_expression_raises (vector_column : string)
    (search_vector : list PyValue) (distance_function : string) :
  is_distance_function distance_function = false ->
  VectorOperations._get_distance_expression vector_column search_vector
                                            distance_function
  = inl ("Unsupported distance function: " ++ distance_function).
Proof.
  unfold is_distance_function, str_in, VectorOperations._get_distance_expression.
  cbn [existsb]. intros H.
  destruct (String.eqb distance_function "cosine"); [discriminate |].
  destruct (String.eqb distance_function "euclidean"); [discriminate |].
  destruct (String.eqb distance_function "inner_product");
    [discriminate | reflexivity].
Qed.

(** X7. A similarity search reaches the driver exactly when it asks for
    the distance column and names one of the three known distance
    functions.  It then sends one statement, whose only parameter is the
    threshold when one is given.  In every other case nothing is sent and
    the call ends in a failure result: in particular a search with
    [include_distance] off always fails, because the projection is joined
    with a test on [distance_expr], which is bound only under
    [include_distance]. *)
Theorem similarity_search_reaches_driver_iff :
  forall (self : Runtime) (table_name schema vector_column : string)
         (search_options : VectorSearchOptions.t)
         (additional_columns : option (list string)) (log : Log),
    if andb (VectorSearchOptions.include_distance search_options)
            (is_distance_function
               (VectorSearchOptions.distance_function search_options))
    then
      exists r sql,
        VectorOperations.similarity_sql table_name schema vector_column
          (Some search_options) additional_columns
        = inr (sql,
               if is_not_None (VectorSearchOptions.threshold search_options)
               then [VectorSearchOptions.threshold search_options] else [])
        /\ VectorOperations.vector_similarity_search self table_name schema
             vector_column (Some search_options) additional_columns log
           = (inr r,
              (log ++ [mkCall sql
                         (Some (if is_not_None
                                     (VectorSearchOptions.threshold
                                        search_options)
                                then [VectorSearchOptions.threshold
                                        search_options]
                                else []))])%list)
    else
      query_rejected_before_driver
        (VectorOperations.vector_similarity_search self table_name schema
           vector_column (Some search_options) additional_columns) log.
Proof.
  intros self table_name schema vector_column search_options
    additional_columns log.
  destruct (VectorSearchOptions.include_distance search_options) eqn:Hinc;
    cbn [andb].
  - destruct (is_distance_function
                (VectorSearchOptions.distance_function search_options))
      eqn:Hf.
    + destruct (distance_expression_returns vector_column
                  (VectorSearchOptions.vector search_options)
                  (VectorSearchOptions.distance_function search_options) Hf)
        as [e He].
      unfold VectorOperations.vector_similarity_search,
        VectorOperations.vector_similarity_search_try,
        VectorOperations.similarity_sql.
      rewrite Hinc, He. cbn [ebind eret].
      destruct (is_not_None (VectorSearchOptions.threshold search_options));
        cbn [ebind eret];
        unfold bind, lift, time_time, try_except, elapsed_ms, ret,
          execute_query, eret;
        cbv beta iota zeta;
        match goal with
        | |- context [sql_driver self log ?c] =>
            destruct (sql_driver self log c)
        end;
        eexists; eexists; split; reflexivity.
    + unfold query_rejected_before_driver,
        VectorOperations.vector_similarity_search,
        VectorOperations.vector_similarity_search_try,
        VectorOperations.similarity_sql.
      rewrite Hinc,
        (distance_expression_raises vector_column
           (VectorSearchOptions.vector search_options)
           (VectorSearchOptions.distance_function search_options) Hf).
      cbn [ebind].
      unfold bind, lift, time_time, try_except, elapsed_ms, ret.
      eexists. split; reflexivity.
  - unfold query_rejected_before_driver,
      VectorOperations.vector_similarity_search,
      VectorOperations.vector_similarity_search_try,
      VectorOperations.similarity_sql.
    rewrite Hinc. cbn [ebind eret].
    unfold bind, lift, time_time, try_except, elapsed_ms, ret.
    eexists. split; reflexivity.
Qed.

(** X8. A KNN search with one of the three known distance functions sends
    the driver exactly one statement, without parameters (the vector and
    [k] are written into the text); with any other name it sends nothing
    and reports that the distance function is unsupported. *)
Theorem knn_search_sends_one_statement_or_rejects :
  forall (self : Runtime) (table_name schema vector_column : string)
         (search_vector : list PyValue) (k : Z) (distance_function : string)
         (additional_columns : option (list string)) (include_distance : bool)
         (log : Log),
    if is_distance_function distance_function then
      exists r sql,
        VectorOperations.knn_sql table_name schema vector_column search_vector
          k distance_function additional_columns include_distance
        = inr sql
        /\ VectorOperations.vector_knn_search self table_name schema
             vector_column search_vector k distance_function
             additional_columns include_distance log
           = (inr r, (log ++ [mkCall sql None])%list)
    else
      exists r,
        VectorOperations.vector_knn_search self table_name schema
          vector_column search_vector k distance_function additional_columns
          include_distance log
        = (inr r, log)
        /\ QueryResult.success r = false
        /\ QueryResult.message r
           = "Vector KNN search failed: Unsupported distance function: "
             ++ distance_function.
Proof.
  intros self table_name schema vector_column search_vector k
    distance_function additional_columns include_distance log.
  destruct (is_distance_function distance_function) eqn:Hf.
  - destruct (distance_expression_returns vector_column search_vector
                distance_function Hf) as [e He].
    unfold VectorOperations.vector_knn_search,
      VectorOperations.vector_knn_search_try, VectorOperations.knn_sql.
    rewrite He.
    destruct include_distance; cbn [ebind eret];
      unfold bind, lift, time_time, try_except, elapsed_ms, ret,
        execute_query, eret;
      cbv beta iota zeta;
      match goal with
      | |- context [sql_driver self log ?c] =>
          destruct (sql_driver self log c)
      end;
      eexists; eexists; split; reflexivity.
  - unfold VectorOperations.vector_knn_search,
      VectorOperations.vector_knn_search_try, VectorOperations.knn_sql.
    rewrite (distance_expression_raises vector_column search_vector
               distance_function Hf).
    destruct include_distance; cbn [ebind eret];
      unfold bind, lift, time_time, try_except, elapsed_ms, ret;
      eexists; (split; [reflexivity |]); split; reflexivity.
Qed.

(** ** Table definitions *)

Section Collect.

Context {A B : Type} (f : A -> Exc B).

Lemma efold_collect_returns (l : list A) :
  (forall x, In x l -> exists d, f x = inr d) ->
  forall acc,
  exists ds,
    efold (fun acc x => (d <- f x ;; eret (acc ++ [d])%list)%exc) l acc
    = inr ds.
Proof.
  induction l as [| x l IH]; intros H acc.
  - exists acc. reflexivity.
  - destruct (H x (or_introl eq_refl)) as [d Hd].
    cbn [efold]. rewrite Hd. cbn [ebind eret].
    apply IH. intros y Hy. apply H. now right.
Qed.

Lemma efold_collect_raises (pre : list A) (x : A) (post : list A) (e : string) :
  (forall y, In y pre -> exists d, f y = inr d) ->
  f x = inl e ->
  forall acc,
    efold (fun acc x => (d <- f x ;; eret (acc ++ [d])%list)%exc)
          (pre ++ x :: post) acc
    = inl e.
Proof.
  intros Hpre Hx. induction pre as [| y pre IH]; intros acc.
  - cbn [app efold]. rewrite Hx. reflexivity.
  - destruct (Hpre y (or_introl eq_refl)) as [d Hd].
    cbn [app efold]. rewrite Hd. cbn [ebind eret].
    apply IH. intros z Hz. apply Hpre. now right.
Qed.

End Collect.

Lemma find_split (A : Type) (p : A -> bool) (l : list A) (x : A) :
  find p l = Some x ->
  exists pre post,
    l = (pre ++ x :: post)%list /\ p x = true
    /\ forall y, In y pre -> p y = false.
Proof.
  induction l as [| a l IH]; [discriminate |].
  cbn [find]. destruct (p a) eqn:Ha.
  - intros [= <-]. exists [], l. repeat split; auto. intros y [].
  - intros H. destruct (IH H) as [pre [post [-> [Hx Hpre]]]].
    exists (a :: pre), post. repeat split; auto.
    intros y [<- | Hy]; auto.
Qed.

Lemma format_data_type_renderable (col : ColumnDefinition.t) :
  if renderable col
  then exists ty, CrudOperations._format_data_type col = inr ty
  else CrudOperations._format_data_type col
       = inl ("Vector column " ++ ColumnDefinition.name col
              ++ " must specify vector_dimensions").
Proof.
  unfold renderable, CrudOperations._format_data_type.
  destruct (ColumnDefinition.data_type col);
    try (eexists; reflexivity).
  destruct (ColumnDefinition.vector_dimensions col);
    [eexists; reflexivity | reflexivity].
Qed.

Lemma crud_col_def_renderable (col : ColumnDefinition.t) :
  if renderable col
  then exists d, CrudOperations.col_def col = inr d
  else CrudOperations.col_def col
       = inl ("Vector column " ++ ColumnDefinition.name col
              ++ " must specify vector_dimensions").
Proof.
  rewrite crud_col_def_shape.
  pose proof (format_data_type_renderable col) as H.
  destruct (renderable col).
  - destruct H as [ty ->]. eexists; reflexivity.
  - now rewrite H.
Qed.

Lemma simple_col_def_renderable (col : ColumnDefinition.t) :
  if renderable col
  then exists d, SimpleCrudOperations.col_def col = inr d
  else SimpleCrudOperations.col_def col
       = inl ("Vector column " ++ ColumnDefinition.name col
              ++ " must specify vector_dimensions").
Proof.
  rewrite simple_col_def_shape.
  change (SimpleCrudOperations._format_data_type col)
    with (CrudOperations._format_data_type col).
  pose proof (format_data_type_renderable col) as H.
  destruct (renderable col).
  - destruct H as [ty ->]. eexists; reflexivity.
  - now rewrite H.
Qed.

Lemma vector_col_def_renderable (col : ColumnDefinition.t) :
  if renderable col
  then exists d, VectorOperations.col_def col = inr d
  else VectorOperations.col_def col
       = inl ("Vector column " ++ ColumnDefinition.name col
              ++ " must specify vector_dimensions").
Proof.
  rewrite vector_col_def_shape.
  change (VectorOperations._format_data_type col)
    with (CrudOperations._format_data_type col).
  pose proof (format_data_type_renderable col) as H.
  destruct (renderable col).
  - destruct H as [ty ->]. eexists; reflexivity.
  - now rewrite H.
Qed.

(** What the column loop of a table builder does, by the first column
    that cannot be rendered. *)
Lemma column_loop (col_def : ColumnDefinition.t -> Exc string)
    (columns : list ColumnDefinition.t) :
  (forall col,
      if renderable col
      then exists d, col_def col = inr d
      else col_def col
           = inl ("Vector column " ++ ColumnDefinition.name col
                  ++ " must specify vector_dimensions")) ->
  match find (fun c => negb (renderable c)) columns with
  | Some col =>
      efold (fun acc col => (d <- col_def col ;; eret (acc ++ [d])%list)%exc)
            columns []
      = inl ("Vector column " ++ ColumnDefinition.name col
             ++ " must specify vector_dimensions")
  | None =>
      exists ds,
        efold (fun acc col => (d <- col_def col ;; eret (acc ++ [d])%list)%exc)
              columns []
        = inr ds
  end.
Proof.
  intros Hcol.
  destruct (find (fun c => negb (renderable c)) columns) as [col |] eqn:Hfind.
  - destruct (find_split _ _ _ _ Hfind) as [pre [post [-> [Hx Hpre]]]].
    apply efold_collect_raises.
    + intros y Hy. specialize (Hpre y Hy). cbv beta in Hpre.
      specialize (Hcol y).
      destruct (renderable y); [exact Hcol | cbn in Hpre; discriminate].
    + cbv beta in Hx. specialize (Hcol col). destruct (renderable col);
        [cbn in Hx; discriminate | exact Hcol].
  - apply efold_collect_returns. intros x Hx.
    pose proof (find_none _ _ Hfind x Hx) as Hr. cbv beta in Hr.
    specialize (Hcol x).
    destruct (renderable x); [exact Hcol | cbn in Hr; discriminate].
Qed.

(** X9. [create_table], in both classes, checks the table definition
    before it talks to the driver: when a vector column has no dimensions
    the call sends nothing and its message names the first such column;
    otherwise the builder returns a statement and exactly that statement is
    sent, without parameters. *)
Theorem create_table_checks_vector_dimensions :
  forall (self : Runtime) (table_def : TableDefinition.t) (log : Log),
    match find (fun c => negb (renderable c))
               (TableDefinition.columns table_def) with
    | Some col =>
        let message :=
          "Failed to create table: Vector column " ++ ColumnDefinition.name col
          ++ " must specify vector_dimensions" in
        (exists r,
            CrudOperations.create_table self table_def log = (inr r, log)
            /\ OperationResult.success r = false
            /\ OperationResult.message r = message)
        /\ (exists r,
               SimpleCrudOperations.create_table self table_def log
               = (inr r, log)
               /\ OperationResult.success r = false
               /\ OperationResult.message r = message)
    | None =>
        (exists r sql,
            CrudOperations._build_create_table_sql table_def = inr sql
            /\ CrudOperations.create_table self table_def log
               = (inr r, (log ++ [mkCall sql None])%list))
        /\ (exists r sql,
               SimpleCrudOperations.create_table_sql table_def = inr sql
               /\ SimpleCrudOperations.create_table self table_def log
                  = (inr r, (log ++ [mkCall sql None])%list))
    end.
Proof.
  intros self table_def log.
  pose proof (column_loop CrudOperations.col_def
                (TableDefinition.columns table_def) crud_col_def_renderable)
    as Hc.
  pose proof (column_loop SimpleCrudOperations.col_def
                (TableDefinition.columns table_def) simple_col_def_renderable)
    as Hs.
  destruct (find (fun c => negb (renderable c))
                 (TableDefinition.columns table_def)) as [col |].
  - cbv zeta. split.
    + unfold CrudOperations.create_table, CrudOperations.create_table_try,
        CrudOperations._build_create_table_sql.
      rewrite Hc. cbn [ebind].
      unfold bind, lift, time_time, try_except, elapsed_ms, ret.
      eexists. split; [reflexivity |]. split; reflexivity.
    + unfold SimpleCrudOperations.create_table,
        SimpleCrudOperations.create_table_try,
        SimpleCrudOperations.create_table_sql.
      rewrite Hs. cbn [ebind].
      unfold bind, lift, time_time, try_except, elapsed_ms, ret.
      eexists. split; [reflexivity |]. split; reflexivity.
  - destruct Hc as [dc Hc]. destruct Hs as [ds Hs]. split.
    + unfold CrudOperations.create_table, CrudOperations.create_table_try,
        CrudOperations._build_create_table_sql.
      rewrite Hc. cbn [ebind].
      unfold bind, lift, time_time, try_except, elapsed_ms, ret,
        execute_query, eret.
      cbv beta iota zeta.
      match goal with
      | |- context [sql_driver self log ?c] =>
          destruct (sql_driver self log c)
      end;
        eexists; eexists; split; reflexivity.
    + unfold SimpleCrudOperations.create_table,
        SimpleCrudOperations.create_table_try,
        SimpleCrudOperations.create_table_sql.
      rewrite Hs. cbn [ebind].
      unfold bind, lift, time_time, try_except, elapsed_ms, ret,
        execute_query, eret.
      cbv beta iota zeta.
      match goal with
      | |- context [sql_driver self log ?c] =>
          destruct (sql_driver self log c)
      end;
        eexists; eexists; split; reflexivity.
Qed.

Lemma vector_table_columns_unrenderable (vector_column : string)
    (vector_dimensions : Z)
    (additional_columns : option (list ColumnDefinition.t)) :
  find (fun c => negb (renderable c))
       (VectorOperations.vector_table_columns vector_column vector_dimensions
                                              additional_columns)
  = find (fun c => negb (renderable c))
         (match additional_columns with Some l => l | None => [] end).
Proof.
  unfold VectorOperations.vector_table_columns.
  destruct additional_columns as [[| a l] |]; reflexivity.
Qed.

(** X10. [create_vector_table] always renders its own three columns, for
    any dimension count: the call is rejected before the driver only when
    one of the additional columns is a vector column without dimensions,
    and the message names the first such column; otherwise exactly one
    statement, without parameters, is sent. *)
Theorem create_vector_table_checks_additional_columns :
  forall (self : Runtime) (table_name schema vector_column : string)
         (vector_dimensions : Z)
         (additional_columns : option (list ColumnDefinition.t)) (log : Log),
    match find (fun c => negb (renderable c))
               (match additional_columns with Some l => l | None => [] end)
    with
    | Some col =>
        exists r,
          VectorOperations.create_vector_table self table_name schema
            vector_column vector_dimensions additional_columns log
          = (inr r, log)
          /\ OperationResult.success r = false
          /\ OperationResult.message r
             = "Failed to create vector table: Vector column "
               ++ ColumnDefinition.name col
               ++ " must specify vector_dimensions"
    | None =>
        exists r sql,
          VectorOperations.create_vector_table_sql table_name schema
            vector_column vector_dimensions additional_columns
          = inr sql
          /\ VectorOperations.create_vector_table self table_name schema
               vector_column vector_dimensions additional_columns log
             = (inr r, (log ++ [mkCall sql None])%list)
    end.
Proof.
  intros self table_name schema vector_column vector_dimensions
    additional_columns log.
  pose proof (column_loop VectorOperations.col_def
                (VectorOperations.vector_table_columns vector_column
                   vector_dimensions additional_columns)
                vector_col_def_renderable) as H.
  rewrite vector_table_columns_unrenderable in H.
  destruct (find (fun c => negb (renderable c))
                 (match additional_columns with Some l => l | None => [] end))
    as [col |].
  - unfold VectorOperations.create_vector_table,
      VectorOperations.create_vector_table_try,
      VectorOperations.create_vector_table_sql.
    rewrite H. cbn [ebind].
    unfold bind, lift, time_time, try_except, elapsed_ms, ret.
    eexists. split; [reflexivity |]. split; reflexivity.
  - destruct H as [ds H].
    unfold VectorOperations.create_vector_table,
      VectorOperations.create_vector_table_try,
      VectorOperations.create_vector_table_sql.
    rewrite H. cbn [ebind].
    unfold bind, lift, time_time, try_except, elapsed_ms, ret,
      execute_query, eret.
    cbv beta iota zeta.
    match goal with
    | |- context [sql_driver self log ?c] =>
        destruct (sql_driver self log c)
    end;
      eexists; eexists; split; reflexivity.
Qed.

(** ** Index definitions *)

(** X11. [create_vector_index] reads [index_options] only when the index
    type is hnsw, in any letter case: for every other type, ivfflat
    included, the call is the one made without options, statement and
    result alike. *)
Theorem vector_index_options_ignored_unless_hnsw :
  forall (self : Runtime) (table_name schema vector_column : string)
         (index_name : option string) (index_type : string)
         (index_options : option (Dict PyValue)) (log : Log),
    String.eqb (lower index_type) "hnsw" = false ->
    VectorOperations.create_vector_index_sql table_name schema vector_column
      index_name index_type index_options
    = VectorOperations.create_vector_index_sql table_name schema vector_column
        index_name index_type None
    /\ VectorOperations.create_vector_index self table_name schema
         vector_column index_name index_type index_options log
       = VectorOperations.create_vector_index self table_name schema
           vector_column index_name index_type None log.
Proof.
  intros self table_name schema vector_column index_name index_type
    index_options log H.
  assert (Hsql :
            VectorOperations.create_vector_index_sql table_name schema
              vector_column index_name index_type index_options
            = VectorOperations.create_vector_index_sql table_name schema
                vector_column index_name index_type None).
  { unfold VectorOperations.create_vector_index_sql. rewrite H.
    reflexivity. }
  split; [exact Hsql |].
  unfold VectorOperations.create_vector_index,
    VectorOperations.create_vector_index_try.
  now rewrite Hsql.
Qed.

Lemma vector_index_options_ignored_unless_hnsw_witness :
  VectorOperations.create_vector_index_sql "items" "public" "embedding" None
    "ivfflat" (Some [("lists", VInt 100)])
  = VectorOperations.create_vector_index_sql "items" "public" "embedding" None
      "ivfflat" None
  /\ VectorOperations.create_vector_index serial_runtime "items" "public"
       "embedding" None "ivfflat" (Some [("lists", VInt 100)]) []
     = VectorOperations.create_vector_index serial_runtime "items" "public"
         "embedding" None "ivfflat" None [].
Proof.
  apply vector_index_options_ignored_unless_hnsw. reflexivity.
Defined.

(** ** The two schema classes side by side *)

(** Closes a goal saying that a statement of [SchemaOperations] is built
    and reads as the text [SimpleSchemaOperations] writes. *)
Ltac same_statement :=
  eexists; split; [cbv; reflexivity |];
  rewrite as_string_Composed; cbn [render_all as_string];
  rewrite ?double_quotes_quote_free by assumption;
  cbv [SimpleSchemaOperations.create_schema_sql
       SimpleSchemaOperations.drop_schema_sql
       SimpleSchemaOperations.drop_index_sql
       SimpleSchemaOperations.drop_table_sql
       SimpleSchemaOperations.create_extension_sql
       SimpleSchemaOperations.append_if join String.concat app];
  same_text.

(** X12. For names without a double quote the two schema classes write
    the same DDL: each of [create_schema], [drop_schema], [drop_index],
    [drop_table] and [create_extension] of [SchemaOperations] builds its
    statement without raising, and the statement reads as the text the
    same operation of [SimpleSchemaOperations] writes. *)
Theorem schema_statements_agree :
  forall (name schema : string) (extension_schema : option string)
         (if_exists cascade : bool),
    quote_free name = true ->
    quote_free schema = true ->
    quote_free (match extension_schema with
                | Some s => s | None => EmptyString end) = true ->
    (exists c,
        SchemaOperations.create_schema_sql name if_exists = inr c
        /\ as_string c = SimpleSchemaOperations.create_schema_sql name if_exists)
    /\ (exists c,
           SchemaOperations.drop_schema_sql name cascade if_exists = inr c
           /\ as_string c
              = SimpleSchemaOperations.drop_schema_sql name cascade if_exists)
    /\ (exists c,
           SchemaOperations.drop_index_sql name if_exists cascade = inr c
           /\ as_string c
              = SimpleSchemaOperations.drop_index_sql name if_exists cascade)
    /\ (exists c,
           SchemaOperations.drop_table_sql name schema cascade if_exists
           = inr c
           /\ as_string c
              = SimpleSchemaOperations.drop_table_sql name schema cascade
                  if_exists)
    /\ (exists c,
           SchemaOperations.create_extension_sql name if_exists
             extension_schema
           = inr c
           /\ as_string c
              = SimpleSchemaOperations.create_extension_sql name if_exists
                  extension_schema).
Proof.
  intros name schema extension_schema if_exists cascade Hn Hs He.
  split; [destruct if_exists; same_statement |].
  split; [destruct if_exists, cascade; same_statement |].
  split; [destruct if_exists, cascade; same_statement |].
  split; [destruct if_exists, cascade; same_statement |].
  destruct extension_schema as [[| c rest] |], if_exists; same_statement.
Qed.

Lemma schema_statements_agree_witness :
  exists c,
    SchemaOperations.drop_table_sql "orders" "public" true true = inr c
    /\ as_string c
       = SimpleSchemaOperations.drop_table_sql "orders" "public" true true.
Proof.
  exact (proj1 (proj2 (proj2 (proj2
           (schema_statements_agree "orders" "public" None true true
              eq_refl eq_refl eq_refl))))).
Defined.

(** ** Schema operations at the driver *)

Lemma schema_create_schema_builds (schema_name : string) (if_not_exists : bool) :
  exists c, SchemaOperations.create_schema_sql schema_name if_not_exists = inr c.
Proof. destruct if_not_exists; eexists; reflexivity. Qed.

Lemma schema_drop_schema_builds (schema_name : string) (cascade if_exists : bool) :
  exists c,
    SchemaOperations.drop_schema_sql schema_name cascade if_exists = inr c.
Proof. destruct cascade, if_exists; eexists; reflexivity. Qed.

Lemma schema_drop_index_builds (index_name : string) (if_exists cascade : bool) :
  exists c,
    SchemaOperations.drop_index_sql index_name if_exists cascade = inr c.
Proof. destruct cascade, if_exists; eexists; reflexivity. Qed.

Lemma schema_drop_table_builds (table_name schema : string)
    (cascade if_exists : bool) :
  exists c,
    SchemaOperations.drop_table_sql table_name schema cascade if_exists
    = inr c.
Proof. destruct cascade, if_exists; eexists; reflexivity. Qed.

Lemma schema_create_extension_builds (extension_name : string)
    (if_not_exists : bool) (schema : option string) :
  exists c,
    SchemaOperations.create_extension_sql extension_name if_not_exists schema
    = inr c.
Proof.
  destruct if_not_exists, schema as [[| ch rest] |]; eexists; reflexivity.
Qed.

(** Every branch of [create_index] hands [format] as many arguments as
    its template has fields. *)
Lemma schema_create_index_builds (index_def : IndexDefinition.t) :
  exists c, SchemaOperations.create_index_sql index_def = inr c.
Proof.
  unfold SchemaOperations.create_index_sql, SchemaOperations.has_vector_options,
    SchemaOperations.with_options.
  destruct (IndexDefinition.partial_condition index_def) as [[| ch rest] |];
    destruct (IndexDefinition.unique index_def);
    destruct (str_in (lower (IndexDefinition.index_type index_def))
                     ["hnsw"; "ivfflat"]);
    destruct (IndexDefinition.vector_index_options index_def) as [| o os];
    eexists; reflexivity.
Qed.

(** X13. The operations of the two schema classes check nothing before
    they talk to the driver: whatever the arguments, the call sends exactly
    one statement, without parameters, and it succeeds exactly when the
    driver returns. *)
Theorem schema_operations_send_one_statement :
  forall (self : Runtime) (call : PublicCall) (log : Log),
    is_schema_operation call = true ->
    exists out sql,
      invoke self call log = (inr out, (log ++ [mkCall sql None])%list)
      /\ outcome_success out = driver_returns self log (mkCall sql None).
Proof.
  intros self call log H.
  destruct call; try discriminate H; cbn [invoke]; unfold as_operation,
    SchemaOperations.create_schema, SchemaOperations.create_schema_try,
    SchemaOperations.drop_schema, SchemaOperations.drop_schema_try,
    SchemaOperations.create_index, SchemaOperations.create_index_try,
    SchemaOperations.drop_index, SchemaOperations.drop_index_try,
    SchemaOperations.drop_table, SchemaOperations.drop_table_try,
    SchemaOperations.create_extension, SchemaOperations.create_extension_try,
    SchemaOperations.run_ddl, SchemaOperations.failed,
    SimpleSchemaOperations.create_schema,
    SimpleSchemaOperations.create_schema_try,
    SimpleSchemaOperations.drop_schema, SimpleSchemaOperations.drop_schema_try,
    SimpleSchemaOperations.create_index,
    SimpleSchemaOperations.create_index_try,
    SimpleSchemaOperations.drop_index, SimpleSchemaOperations.drop_index_try,
    SimpleSchemaOperations.drop_table, SimpleSchemaOperations.drop_table_try,
    SimpleSchemaOperations.create_extension,
    SimpleSchemaOperations.create_extension_try,
    SimpleSchemaOperations.run_ddl, SimpleSchemaOperations.failed.
  1: destruct (schema_create_schema_builds schema_name if_not_exists)
       as [c ->].
  2: destruct (schema_drop_schema_builds schema_name cascade if_exists)
       as [c ->].
  3: destruct (schema_create_index_builds index_def) as [c ->].
  4: destruct (schema_drop_index_builds index_name if_exists cascade)
       as [c ->].
  5: destruct (schema_drop_table_builds table_name schema cascade if_exists)
       as [c ->].
  6: destruct (schema_create_extension_builds extension_name if_not_exists
                 schema) as [c ->].
  all: unfold bind, lift, time_time, try_except, elapsed_ms, ret,
         execute_query, driver_returns;
       cbv beta iota zeta;
       match goal with
       | |- context [sql_driver ?s ?l ?c] =>
           destruct (sql_driver s l c) eqn:Hreply
       end;
       eexists; eexists; (split; [reflexivity |]);
       rewrite Hreply; reflexivity.
Qed.

Lemma schema_operations_send_one_statement_witness :
  exists out sql,
    invoke serial_runtime (Schema_drop_table "orders" "public" true true) []
    = (inr out, [mkCall sql None])
    /\ outcome_success out = driver_returns serial_runtime [] (mkCall sql None).
Proof.
  exact (schema_operations_send_one_statement serial_runtime
           (Schema_drop_table "orders" "public" true true) [] eq_refl).
Defined.

(** ** Vector inserts *)

Lemma length_enumerate (A : Type) (l : list A) :
  length (enumerate l) = length l.
Proof.
  unfold enumerate. rewrite length_combine, length_seq. apply Nat.min_id.
Qed.

Lemma length_data_rows (vectors : list (list PyValue)) (vector_column : string)
    (additional_data : option (list Record_)) :
  length (VectorOperations.data_rows vectors vector_column additional_data)
  = length vectors.
Proof.
  unfold VectorOperations.data_rows. now rewrite length_map, length_enumerate.
Qed.

Lemma vector_insert_loop_calls (self : Runtime) sql vector_column columns
    returning_columns :
  forall data acc log res log',
    mfold (VectorOperations.insert_step self sql vector_column columns
                                        returning_columns)
          data acc log
    = (res, log') ->
    exists calls,
      log' = (log ++ calls)%list
      /\ (length calls <= length data)%nat
      /\ Forall (fun c => call_sql c = sql) calls
      /\ (forall out, res = inr out ->
                      snd out = (snd acc + Z.of_nat (length data))%Z
                      /\ length calls = length data)
      /\ match res with
         | inr _ => driver_executes self log calls = true
         | inl _ =>
             ((length calls =? length data)%nat
              && driver_executes self log calls) = false
         end.
Proof.
  induction data as [| row rest IH]; intros [returned n] log res log' H.
  - cbn in H. injection H as <- <-. exists []. rewrite app_nil_r.
    split; [reflexivity |]. split; [cbn; lia |]. split; [constructor |].
    split; [| reflexivity].
    intros out [= <-]. cbn. split; [lia | reflexivity].
  - cbn [mfold] in H. unfold bind at 1 in H.
    destruct (VectorOperations.insert_step self sql vector_column columns
                returning_columns (returned, n) row log)
      as [[e | [returned1 n1]] log1] eqn:Hstep.
    + injection H as <- <-.
      unfold VectorOperations.insert_step, bind, lift, ret, execute_query
        in Hstep.
      destruct (VectorOperations.row_params self vector_column columns row)
        as [e' | params].
      * injection Hstep as _ <-. exists []. rewrite app_nil_r.
        split; [reflexivity |]. split; [cbn; lia |]. split; [constructor |].
        split; [discriminate | reflexivity].
      * destruct (sql_driver self log (mkCall sql (Some params)))
          as [msg | rows] eqn:Hreply; [| destruct (_ && _); discriminate].
        injection Hstep as _ <-. exists [mkCall sql (Some params)].
        split; [reflexivity |]. split; [cbn; lia |].
        split; [repeat constructor |]. split; [discriminate |].
        cbn [driver_executes]. unfold driver_returns. rewrite Hreply.
        apply andb_false_r.
    + unfold VectorOperations.insert_step, bind, lift, ret, execute_query
        in Hstep.
      destruct (VectorOperations.row_params self vector_column columns row)
        as [e' | params]; [discriminate |].
      destruct (sql_driver self log (mkCall sql (Some params)))
        as [msg | rows] eqn:Hreply; [discriminate |].
      assert (Hacc : n1 = (n + 1)%Z
                     /\ log1 = (log ++ [mkCall sql (Some params)])%list)
        by (destruct (_ && _); injection Hstep as _ <- <-; auto).
      destruct Hacc as [-> ->].
      apply IH in H. destruct H as [calls [-> [Hlen [Hall [Hout Hexec]]]]].
      exists (mkCall sql (Some params) :: calls).
      split; [now rewrite <- app_assoc |].
      split; [cbn [length]; lia |].
      split; [constructor; auto |].
      split.
      * intros out Hres. destruct (Hout out Hres) as [Hn Hc].
        cbn [snd length] in *. split; [lia | now rewrite Hc].
      * cbn [driver_executes length Nat.eqb]. unfold driver_returns.
        rewrite Hreply. cbn [andb]. exact Hexec.
Qed.

(** What [insert_vector_data] leaves in the log and in its result. *)
Lemma insert_vector_data_run :
  forall (self : Runtime) (table_name : string)
         (vectors : list (list PyValue)) (schema vector_column : string)
         (additional_data : option (list Record_))
         (returning_columns : option (list string)) (log : Log),
  exists r calls,
    VectorOperations.insert_vector_data self table_name vectors schema
      vector_column additional_data returning_columns log
    = (inr r, (log ++ calls)%list)
    /\ (length calls <= length vectors)%nat
    /\ Forall (fun c =>
                 call_sql c
                 = VectorOperations.insert_sql table_name
                     (match VectorOperations.data_rows vectors vector_column
                              additional_data with
                      | first :: _ => keys first
                      | [] => []
                      end)
                     schema returning_columns) calls
    /\ (if OperationResult.success r
        then vectors <> []
             /\ length calls = length vectors
             /\ OperationResult.affected_rows r
                = Some (Z.of_nat (length vectors))
        else OperationResult.affected_rows r = None
             /\ OperationResult.returned_data r = [])
    /\ OperationResult.success r
       = (truthy_list vectors
          && (length calls =? length vectors)%nat
          && driver_executes self log calls).
Proof.
  intros self table_name vectors schema vector_column additional_data
    returning_columns log.
  unfold VectorOperations.insert_vector_data,
    VectorOperations.insert_vector_data_try.
  destruct vectors as [| v vs].
  - exists (OperationResult.mk false
              ("Failed to insert vector data: "
               ++ "No vectors provided for insert")
              INSERT (VectorOperations.qualified schema table_name)
              (Some ((clock self log - clock self log) * 1000)%Q) None []),
      [].
    rewrite app_nil_r. repeat split; auto.
  - pose proof (length_data_rows (v :: vs) vector_column additional_data)
      as Hrows.
    destruct (VectorOperations.data_rows (v :: vs) vector_column
                additional_data) as [| first rest] eqn:Hdata;
      [discriminate |].
    set (sql := VectorOperations.insert_sql table_name (keys first) schema
                  returning_columns).
    destruct (mfold (VectorOperations.insert_step self sql vector_column
                       (keys first) returning_columns) (first :: rest)
                    ([], 0%Z) log)
      as [res log'] eqn:Hloop.
    destruct (vector_insert_loop_calls self sql vector_column (keys first)
                returning_columns _ _ _ _ _ Hloop)
      as [calls [-> [Hlen [Hall [Hout Hexec]]]]].
    rewrite Hrows in Hlen, Hexec.
    unfold bind at 1, time_time at 1, try_except, bind at 1.
    rewrite Hloop.
    destruct res as [e | [returned n]].
    + eexists. exists calls. split; [reflexivity |].
      cbn [OperationResult.success truthy_list andb].
      rewrite Hexec. repeat split; auto.
    + destruct (Hout _ eq_refl) as [Hn Hc]. cbn [snd] in Hn.
      rewrite Hrows in Hn, Hc.
      eexists. exists calls. split; [reflexivity |].
      cbn [OperationResult.success OperationResult.affected_rows
           truthy_list andb].
      rewrite Hexec, Hc, Nat.eqb_refl.
      repeat split; auto; [discriminate | now rewrite Hn].
Qed.

(** X14. [insert_vector_data] sends the driver one and the same INSERT
    text, at most once per vector, and nothing else.  It reports success
    exactly when there is a vector, every vector was sent and the driver
    returned on every statement; the affected row count is then the number
    of vectors submitted, counted by the loop.  A failed batch reports no
    count and no returned rows, whatever was sent before the failure. *)
Theorem insert_vector_data_calls :
  forall (self : Runtime) (table_name : string)
         (vectors : list (list PyValue)) (schema vector_column : string)
         (additional_data : option (list Record_))
         (returning_columns : option (list string)) (log : Log),
  exists r calls,
    VectorOperations.insert_vector_data self table_name vectors schema
      vector_column additional_data returning_columns log
    = (inr r, (log ++ calls)%list)
    /\ (length calls <= length vectors)%nat
    /\ Forall (fun c =>
                 call_sql c
                 = VectorOperations.insert_sql table_name
                     (match VectorOperations.data_rows vectors vector_column
                              additional_data with
                      | first :: _ => keys first
                      | [] => []
                      end)
                     schema returning_columns) calls
    /\ (if OperationResult.success r
        then vectors <> []
             /\ length calls = length vectors
             /\ OperationResult.affected_rows r
                = Some (Z.of_nat (length vectors))
        else OperationResult.affected_rows r = None
             /\ OperationResult.returned_data r = [])
    /\ OperationResult.success r
       = (truthy_list vectors
          && (length calls =? length vectors)%nat
          && driver_executes self log calls).
Proof. exact insert_vector_data_run. Qed.

(** ** Statements per call *)

(** Takes the run of the goal apart at its builder and at the driver's
    reply, innermost first. *)
Ltac split_run :=
  repeat match goal with
         | |- context [match ?x with _ => _ end] =>
             lazymatch x with
             | context [match _ with _ => _ end] => fail
             | _ =>
                 lazymatch type of x with
                 | Exc _ => destruct x
                 | sum _ _ => destruct x
                 | Reply => destruct x
                 | prod _ _ => destruct x
                 end;
                 cbv beta iota zeta
             end
         end.

(** Closes a goal of [statement_budget] once the run is taken apart. *)
Ltac within_budget :=
  first
    [ eexists; exists []; rewrite app_nil_r;
      split; [reflexivity | cbn; lia]
    | eexists; eexists; split; [reflexivity | cbn; lia] ].

(** X15. No public operation sends the driver more than its share of
    statements, and none touches what was sent before: a batch insert
    sends at most one statement per record, every other operation at most
    one; and an operation that reports success has sent exactly that
    many. *)
Theorem public_operations_keep_to_their_budget :
  forall (self : Runtime) (call : PublicCall) (log : Log),
  exists out calls,
    invoke self call log = (inr out, (log ++ calls)%list)
    /\ if outcome_success out
       then length calls = statement_budget call
       else (length calls <= statement_budget call)%nat.
Proof.
  intros self call log.
  destruct call; cbn [invoke statement_budget].
  7: { destruct (simple_insert_records_run self table_name data schema
                   returning_columns log)
         as [r [calls [Hrun [Hlen [_ [Hres _]]]]]].
       exists (Operation r), calls. unfold as_operation. rewrite Hrun.
       split; [reflexivity |]. cbn [outcome_success].
       destruct (OperationResult.success r); [apply Hres | exact Hlen]. }
  26: { destruct (insert_vector_data_run self table_name vectors schema
                    vector_column additional_data returning_columns log)
          as [r [calls [Hrun [Hlen [_ [Hres _]]]]]].
        exists (Operation r), calls. unfold as_operation. rewrite Hrun.
        split; [reflexivity |]. cbn [outcome_success].
        destruct (OperationResult.success r); [apply Hres | exact Hlen]. }
  2: { unfold as_operation, CrudOperations.insert_records,
         CrudOperations.insert_records_try, CrudOperations.str_as_string.
       destruct (CrudOperations._build_insert_sql table_name data schema
                   returning_columns) as [e | [sql params]];
         destruct (length data =? 1)%nat;
         unfold bind, lift, time_time, try_except, elapsed_ms, ret, eraise;
         cbv beta iota zeta;
         eexists; exists []; rewrite app_nil_r;
         (split; [reflexivity | cbn; lia]). }
  all: unfold as_operation, as_query,
         CrudOperations.create_table, CrudOperations.create_table_try,
         CrudOperations.update_records, CrudOperations.update_records_try,
         CrudOperations.delete_records, CrudOperations.delete_records_try,
         CrudOperations.query_records, CrudOperations.query_records_try,
         SimpleCrudOperations.create_table,
         SimpleCrudOperations.create_table_try,
         SimpleCrudOperations.update_records,
         SimpleCrudOperations.update_records_try,
         SimpleCrudOperations.delete_records,
         SimpleCrudOperations.delete_records_try,
         SimpleCrudOperations.query_records,
         SimpleCrudOperations.query_records_try,
         SchemaOperations.create_schema, SchemaOperations.create_schema_try,
         SchemaOperations.drop_schema, SchemaOperations.drop_schema_try,
         SchemaOperations.create_index, SchemaOperations.create_index_try,
         SchemaOperations.drop_index, SchemaOperations.drop_index_try,
         SchemaOperations.drop_table, SchemaOperations.drop_table_try,
         SchemaOperations.create_extension,
         SchemaOperations.create_extension_try,
         SchemaOperations.run_ddl, SchemaOperations.failed,
         SimpleSchemaOperations.create_schema,
         SimpleSchemaOperations.create_schema_try,
         SimpleSchemaOperations.drop_schema,
         SimpleSchemaOperations.drop_schema_try,
         SimpleSchemaOperations.create_index,
         SimpleSchemaOperations.create_index_try,
         SimpleSchemaOperations.drop_index,
         SimpleSchemaOperations.drop_index_try,
         SimpleSchemaOperations.drop_table,
         SimpleSchemaOperations.drop_table_try,
         SimpleSchemaOperations.create_extension,
         SimpleSchemaOperations.create_extension_try,
         SimpleSchemaOperations.run_ddl, SimpleSchemaOperations.failed,
         VectorOperations.create_vector_table,
         VectorOperations.create_vector_table_try,
         VectorOperations.vector_similarity_search,
         VectorOperations.vector_similarity_search_try,
         VectorOperations.vector_knn_search,
         VectorOperations.vector_knn_search_try,
         VectorOperations.create_vector_index,
         VectorOperations.create_vector_index_try,
         VectorOperations.get_vector_index_stats,
         VectorOperations.get_vector_index_stats_try,
         VectorOperations.optimize_vector_index,
         VectorOperations.optimize_vector_index_try;
       unfold elapsed_ms, execute_query;
       unfold bind, lift, time_time, try_except, ret;
       cbv beta iota zeta;
       split_run; within_budget.
Qed.

(** ** Whole statements and their parameters *)

Lemma simple_add_where_parameters (conditions : list QueryCondition.t)
    sql0 params0 sql params :
  SimpleCrudOperations.add_where conditions sql0 params0 = inr (sql, params) ->
  params = (params0 ++ flat_map condition_parameters conditions)%list.
Proof.
  intros H. destruct conditions as [| c rest].
  - cbn in H. injection H as _ <-. now rewrite app_nil_r.
  - rewrite add_where_unfold in H.
    destruct (where_rec _ _ _ _ _) as [e | [parts dp]] eqn:Hloop;
      [discriminate |].
    injection H as _ <-. f_equal.
    exact (where_rec_params _ _ _ condition_part_appends
             condition_parameters condition_part_parameters _ _ _ _ Hloop).
Qed.

Lemma simple_add_where_placeholders (conditions : list QueryCondition.t)
    sql0 params0 sql params :
  Forall percent_free conditions ->
  SimpleCrudOperations.add_where conditions sql0 params0 = inr (sql, params) ->
  (placeholders sql + length params0 = placeholders sql0 + length params)%nat.
Proof.
  intros Hall H. destruct conditions as [| c rest].
  - cbn in H. injection H as <- <-. lia.
  - rewrite add_where_unfold in H.
    destruct (where_rec _ _ _ _ _) as [e | [parts dp]] eqn:Hloop;
      [discriminate |].
    apply inr_pair_eq in H. destruct H as [<- <-].
    rewrite !placeholders_app, placeholders_join_empty, length_app.
    replace (list_sum (map placeholders parts)) with (length dp)
      by (symmetry;
          exact (where_rec_placeholders _ _ _ (fun s => s)
                   condition_part_appends condition_part_placeholders
                   simple_connector_placeholders _ None _ _ Hall I Hloop)).
    change (placeholders " WHERE ") with 0%nat. lia.
Qed.

Lemma simple_add_returning_placeholders (sql : string)
    (returning_columns : option (list string)) :
  Forall (fun c => placeholders c = 0%nat)
         (match returning_columns with Some l => l | None => [] end) ->
  placeholders (SimpleCrudOperations.add_returning sql returning_columns)
  = placeholders sql.
Proof.
  intros H. unfold SimpleCrudOperations.add_returning.
  destruct returning_columns as [[| c cs] |]; try reflexivity.
  rewrite !placeholders_app, placeholders_quoted_list by exact H.
  change (placeholders " RETURNING ") with 0%nat. lia.
Qed.

Lemma set_parts_placeholders (data : Record_) :
  Forall (fun c => placeholders c = 0%nat) (keys data) ->
  placeholders
    (join ", " (map (fun kv => dquote ++ fst kv ++ dquote ++ " = %s") data))
  = length data.
Proof.
  intros H. rewrite placeholders_join_comma.
  induction data as [| kv rest IH]; [reflexivity |].
  inversion H as [| k ks Hk Hks]; subst.
  specialize (IH Hks). unfold list_sum in *.
  cbn [map fold_right length].
  rewrite !placeholders_app, Hk, IH.
  change (placeholders dquote) with 0%nat.
  change (placeholders " = %s") with 1%nat. lia.
Qed.

Lemma simple_update_sql_parameters table_name (data : Record_) conditions
    schema returning_columns sql params :
  placeholders table_name = 0%nat -> placeholders schema = 0%nat ->
  Forall (fun c => placeholders c = 0%nat) (keys data) ->
  Forall percent_free conditions ->
  Forall (fun c => placeholders c = 0%nat)
         (match returning_columns with Some l => l | None => [] end) ->
  SimpleCrudOperations.update_sql table_name data conditions schema
                                  returning_columns
  = inr (sql, params) ->
  params = (map snd data ++ flat_map condition_parameters conditions)%list
  /\ placeholders sql = length params.
Proof.
  intros Ht Hs Hd Hc Hr H. unfold SimpleCrudOperations.update_sql in H.
  destruct data as [| kv rest]; [discriminate |].
  match type of H with
  | context [SimpleCrudOperations.add_where conditions ?sql0 ?ps0] =>
      destruct (SimpleCrudOperations.add_where conditions sql0 ps0)
        as [e | [sql1 params1]] eqn:Hw; [discriminate |];
      pose proof (simple_add_where_parameters _ _ _ _ _ Hw) as Hps;
      pose proof (simple_add_where_placeholders _ _ _ _ _ Hc Hw) as Hph
  end.
  cbn [ebind] in H. apply inr_pair_eq in H. destruct H as [<- <-].
  split; [exact Hps |].
  rewrite simple_add_returning_placeholders by exact Hr.
  rewrite !placeholders_app, set_parts_placeholders, Ht, Hs in Hph
    by exact Hd.
  change (placeholders dquote) with 0%nat in Hph.
  change (placeholders "UPDATE ") with 0%nat in Hph.
  change (placeholders ".") with 0%nat in Hph.
  change (placeholders " SET ") with 0%nat in Hph.
  rewrite length_map in Hph. cbn [Nat.add] in Hph. lia.
Qed.

Lemma simple_delete_sql_parameters table_name conditions schema
    returning_columns sql params :
  placeholders table_name = 0%nat -> placeholders schema = 0%nat ->
  Forall percent_free conditions ->
  Forall (fun c => placeholders c = 0%nat)
         (match returning_columns with Some l => l | None => [] end) ->
  SimpleCrudOperations.delete_sql table_name conditions schema
                                  returning_columns
  = inr (sql, params) ->
  params = flat_map condition_parameters conditions
  /\ placeholders sql = length params.
Proof.
  intros Ht Hs Hc Hr H. unfold SimpleCrudOperations.delete_sql in H.
  match type of H with
  | context [SimpleCrudOperations.add_where conditions ?sql0 ?ps0] =>
      destruct (SimpleCrudOperations.add_where conditions sql0 ps0)
        as [e | [sql1 params1]] eqn:Hw; [discriminate |];
      pose proof (simple_add_where_parameters _ _ _ _ _ Hw) as Hps;
      pose proof (simple_add_where_placeholders _ _ _ _ _ Hc Hw) as Hph
  end.
  cbn [ebind] in H. apply inr_pair_eq in H. destruct H as [<- <-].
  split; [exact Hps |].
  rewrite simple_add_returning_placeholders by exact Hr.
  rewrite !placeholders_app, Ht, Hs in Hph.
  change (placeholders dquote) with 0%nat in Hph.
  change (placeholders "DELETE FROM ") with 0%nat in Hph.
  change (placeholders ".") with 0%nat in Hph.
  cbn [Nat.add length] in Hph. lia.
Qed.

(** The templates of the UPDATE and DELETE builders, filled in. *)
Lemma format_set (a : Composable) :
  SQL_format "{} = %s" [a] = inr (Composed [a; SQL " = %s"]).
Proof. reflexivity. Qed.

Lemma format_update (a b c : Composable) :
  SQL_format "UPDATE {}.{} SET {}" [a; b; c]
  = inr (Composed [SQL "UPDATE "; a; SQL "."; b; SQL " SET "; c]).
Proof. reflexivity. Qed.

Lemma format_delete (a b : Composable) :
  SQL_format "DELETE FROM {}.{}" [a; b]
  = inr (Composed [SQL "DELETE FROM "; a; SQL "."; b]).
Proof. reflexivity. Qed.

Lemma format_where (w : Composable) :
  SQL_format " WHERE {}" [w] = inr (Composed [SQL " WHERE "; w]).
Proof. reflexivity. Qed.

Lemma format_returning (r : Composable) :
  SQL_format " RETURNING {}" [r] = inr (Composed [SQL " RETURNING "; r]).
Proof. reflexivity. Qed.

(** The SET loop of [_build_update_sql], in closed form. *)
Lemma crud_set_clauses (data : Record_) :
  forall cls ps,
    efold (fun acc kv =>
             let '(set_clauses, params) := acc in
             (c <- SQL_format "{} = %s" [Identifier (fst kv)] ;;
              eret ((set_clauses ++ [c])%list, (params ++ [snd kv])%list))%exc)
          data (cls, ps)
    = inr ((cls ++ map (fun kv => Composed [Identifier (fst kv); SQL " = %s"])
                       data)%list,
           (ps ++ map snd data)%list).
Proof.
  induction data as [| kv rest IH]; intros cls ps.
  - cbn [efold map]. now rewrite !app_nil_r.
  - cbn [efold]. rewrite format_set. cbn [ebind eret]. rewrite IH.
    cbn [map]. now rewrite <- !app_assoc.
Qed.

Lemma placeholders_SQL_join_comma (l : list Composable) :
  placeholders (as_string (SQL_join ", " l))
  = list_sum (map (fun p => placeholders (as_string p)) l).
Proof.
  unfold SQL_join. rewrite as_string_Composed.
  induction l as [| p l IH]; [reflexivity |].
  destruct l as [| q l].
  - cbn [intersperse render_all map]. unfold list_sum. cbn [fold_right].
    now rewrite placeholders_app.
  - change (intersperse (SQL ", ") (p :: q :: l))
      with (p :: SQL ", " :: intersperse (SQL ", ") (q :: l)).
    cbn [render_all]. rewrite !placeholders_app, IH.
    cbn [as_string]. change (placeholders ", ") with 0%nat.
    unfold list_sum. cbn [map fold_right]. lia.
Qed.

Lemma identifier_list_placeholders (cols : list string) :
  Forall (fun c => placeholders c = 0%nat) cols ->
  placeholders (as_string (CrudOperations.identifier_list cols)) = 0%nat.
Proof.
  intros H. unfold CrudOperations.identifier_list.
  rewrite placeholders_SQL_join_comma.
  induction H as [| c l Hc Hl IH]; [reflexivity |].
  unfold list_sum in *. cbn [map fold_right].
  rewrite placeholders_Identifier, Hc. exact IH.
Qed.

Lemma set_clauses_placeholders (data : Record_) :
  Forall (fun c => placeholders c = 0%nat) (keys data) ->
  placeholders
    (as_string
       (SQL_join ", "
          (map (fun kv => Composed [Identifier (fst kv); SQL " = %s"]) data)))
  = length data.
Proof.
  intros H. rewrite placeholders_SQL_join_comma.
  induction data as [| kv rest IH]; [reflexivity |].
  inversion H as [| k ks Hk Hks]; subst.
  specialize (IH Hks). unfold list_sum in *.
  cbn [map fold_right length]. rewrite IH, as_string_Composed.
  cbn [render_all]. rewrite !placeholders_app, placeholders_Identifier, Hk.
  cbn [as_string]. change (placeholders " = %s") with 1%nat.
  change (placeholders EmptyString) with 0%nat. lia.
Qed.

Lemma crud_where_parameters (conditions : list QueryCondition.t) w params :
  CrudOperations._build_where_clause conditions = inr (w, params) ->
  params = flat_map condition_parameters conditions.
Proof.
  intros H. destruct conditions as [| c rest].
  - cbn in H. now injection H as _ <-.
  - rewrite build_where_clause_unfold in H.
    destruct (where_rec _ _ _ _ _) as [e | [clauses ps]] eqn:Hloop;
      [discriminate |].
    injection H as _ <-.
    exact (where_rec_params _ _ _ condition_clause_appends
             condition_parameters condition_clause_parameters _ _ _ _ Hloop).
Qed.

Lemma crud_where_placeholders (conditions : list QueryCondition.t) w params :
  Forall percent_free conditions ->
  CrudOperations._build_where_clause conditions = inr (w, params) ->
  placeholders (match w with
                | Some fragment => as_string fragment
                | None => EmptyString
                end)
  = length params.
Proof.
  intros Hall H. destruct conditions as [| c rest].
  - cbn in H. now injection H as <- <-.
  - rewrite build_where_clause_unfold in H.
    destruct (where_rec _ _ _ _ _) as [e | [cls ps]] eqn:Hloop;
      [discriminate |].
    injection H as <- <-.
    rewrite as_string_join_empty, placeholders_render_all.
    exact (where_rec_placeholders _ _ _ as_string condition_clause_appends
             condition_clause_placeholders crud_connector_placeholders
             _ None _ _ Hall I Hloop).
Qed.

(** What the WHERE and RETURNING parts add to the text of a statement. *)
Lemma crud_tail_placeholders (head : Composable) (w : option Composable)
    (returning_columns : option (list string)) :
  Forall (fun c => placeholders c = 0%nat)
         (match returning_columns with Some l => l | None => [] end) ->
  exists parts,
    (sql_parts <- CrudOperations.add_where [head] w ;;
     CrudOperations.add_returning sql_parts returning_columns)%exc
    = inr parts
    /\ placeholders (as_string (SQL_join EmptyString parts))
       = (placeholders (as_string head)
          + placeholders (match w with
                          | Some fragment => as_string fragment
                          | None => EmptyString
                          end))%nat.
Proof.
  intros Hr. unfold CrudOperations.add_where, CrudOperations.add_returning.
  destruct w as [w |], returning_columns as [[| c cs] |];
    rewrite ?format_where; cbn [ebind eret app]; rewrite ?format_returning;
    cbn [ebind eret app];
    eexists; (split; [reflexivity |]);
    rewrite as_string_join_empty; cbn [render_all];
    rewrite ?placeholders_app, ?as_string_Composed; cbn [render_all];
    rewrite ?placeholders_app, ?identifier_list_placeholders by exact Hr;
    cbn [as_string];
    change (placeholders " WHERE ") with 0%nat;
    change (placeholders " RETURNING ") with 0%nat;
    change (placeholders EmptyString) with 0%nat; lia.
Qed.

Lemma crud_update_sql_parameters table_name (data : Record_) conditions
    schema returning_columns sql params :
  placeholders table_name = 0%nat -> placeholders schema = 0%nat ->
  Forall (fun c => placeholders c = 0%nat) (keys data) ->
  Forall percent_free conditions ->
  Forall (fun c => placeholders c = 0%nat)
         (match returning_columns with Some l => l | None => [] end) ->
  CrudOperations._build_update_sql table_name data conditions schema
                                   returning_columns
  = inr (sql, params) ->
  params = (map snd data ++ flat_map condition_parameters conditions)%list
  /\ placeholders (as_string sql) = length params.
Proof.
  intros Ht Hs Hd Hc Hr H. unfold CrudOperations._build_update_sql in H.
  destruct data as [| kv rest]; [discriminate |].
  rewrite crud_set_clauses in H. cbn [ebind app] in H.
  destruct (CrudOperations._build_where_clause conditions)
    as [e | [w wps]] eqn:Hw; [discriminate |].
  pose proof (crud_where_parameters _ _ _ Hw) as Hps.
  pose proof (crud_where_placeholders _ _ _ Hc Hw) as Hph.
  cbn [ebind] in H. rewrite format_update in H. cbn [ebind] in H.
  match type of H with
  | context [CrudOperations.add_where [?head] w] =>
      destruct (crud_tail_placeholders head w returning_columns Hr)
        as [parts [Hparts Htail]];
      pose proof (set_clauses_placeholders (kv :: rest) Hd) as Hset
  end.
  unfold ebind in Hparts.
  destruct (CrudOperations.add_where _ w) as [e | parts1]; [discriminate |].
  cbn [ebind] in H. rewrite Hparts in H. cbn [ebind eret] in H.
  apply inr_pair_eq in H. destruct H as [<- <-].
  split; [now rewrite Hps |].
  rewrite Htail, Hph, as_string_Composed. cbn [render_all].
  rewrite !placeholders_app, !placeholders_Identifier, Ht, Hs, Hset.
  cbn [as_string]. rewrite length_app, length_map.
  change (placeholders "UPDATE ") with 0%nat.
  change (placeholders ".") with 0%nat.
  change (placeholders " SET ") with 0%nat.
  change (placeholders EmptyString) with 0%nat.
  cbn [length]. lia.
Qed.

Lemma crud_delete_sql_parameters table_name conditions schema
    returning_columns sql params :
  placeholders table_name = 0%nat -> placeholders schema = 0%nat ->
  Forall percent_free conditions ->
  Forall (fun c => placeholders c = 0%nat)
         (match returning_columns with Some l => l | None => [] end) ->
  CrudOperations._build_delete_sql table_name conditions schema
                                   returning_columns
  = inr (sql, params) ->
  params = flat_map condition_parameters conditions
  /\ placeholders (as_string sql) = length params.
Proof.
  intros Ht Hs Hc Hr H. unfold CrudOperations._build_delete_sql in H.
  destruct (CrudOperations._build_where_clause conditions)
    as [e | [w wps]] eqn:Hw; [discriminate |].
  pose proof (crud_where_parameters _ _ _ Hw) as Hps.
  pose proof (crud_where_placeholders _ _ _ Hc Hw) as Hph.
  cbn [ebind] in H. rewrite format_delete in H. cbn [ebind] in H.
  match type of H with
  | context [CrudOperations.add_where [?head] w] =>
      destruct (crud_tail_placeholders head w returning_columns Hr)
        as [parts [Hparts Htail]]
  end.
  unfold ebind in Hparts.
  destruct (CrudOperations.add_where _ w) as [e | parts1]; [discriminate |].
  cbn [ebind] in H. rewrite Hparts in H. cbn [ebind eret] in H.
  apply inr_pair_eq in H. destruct H as [<- <-].
  split; [exact Hps |].
  rewrite Htail, Hph, as_string_Composed. cbn [render_all].
  rewrite !placeholders_app, !placeholders_Identifier, Ht, Hs.
  cbn [as_string].
  change (placeholders "DELETE FROM ") with 0%nat.
  change (placeholders ".") with 0%nat.
  change (placeholders EmptyString) with 0%nat.
  lia.
Qed.

(** X16. The UPDATE and DELETE builders of both classes bind their
    parameters in the order of the statement text: the values of the SET
    list in the order of the data, then the parameters of the conditions
    in the order of the conditions.  When no name holds a percent sign the
    statement has exactly as many placeholders as parameters. *)
Theorem update_and_delete_bind_in_text_order :
  forall (table_name schema : string) (data : Record_)
         (conditions : list QueryCondition.t)
         (returning_columns : option (list string)),
    placeholders table_name = 0%nat -> placeholders schema = 0%nat ->
    Forall (fun c => placeholders c = 0%nat) (keys data) ->
    Forall percent_free conditions ->
    Forall (fun c => placeholders c = 0%nat)
           (match returning_columns with Some l => l | None => [] end) ->
    (forall sql params,
        SimpleCrudOperations.update_sql table_name data conditions schema
                                        returning_columns
        = inr (sql, params) ->
        params = (map snd data ++ flat_map condition_parameters conditions)%list
        /\ placeholders sql = length params)
    /\ (forall sql params,
           SimpleCrudOperations.delete_sql table_name conditions schema
                                           returning_columns
           = inr (sql, params) ->
           params = flat_map condition_parameters conditions
           /\ placeholders sql = length params)
    /\ (forall sql params,
           CrudOperations._build_update_sql table_name data conditions schema
                                            returning_columns
           = inr (sql, params) ->
           params
           = (map snd data ++ flat_map condition_parameters conditions)%list
           /\ placeholders (as_string sql) = length params)
    /\ (forall sql params,
           CrudOperations._build_delete_sql table_name conditions schema
                                            returning_columns
           = inr (sql, params) ->
           params = flat_map condition_parameters conditions
           /\ placeholders (as_string sql) = length params).
Proof.
  intros table_name schema data conditions returning_columns Ht Hs Hd Hc Hr.
  split; [| split; [| split]]; intros sql params H.
  - exact (simple_update_sql_parameters _ _ _ _ _ _ _ Ht Hs Hd Hc Hr H).
  - exact (simple_delete_sql_parameters _ _ _ _ _ _ Ht Hs Hc Hr H).
  - exact (crud_update_sql_parameters _ _ _ _ _ _ _ Ht Hs Hd Hc Hr H).
  - exact (crud_delete_sql_parameters _ _ _ _ _ _ Ht Hs Hc Hr H).
Qed.

Lemma update_and_delete_bind_in_text_order_witness :
  exists sql,
    SimpleCrudOperations.update_sql "users"
      [("name", VStr "b"); ("age", VInt 3)] sample_conditions "public"
      (Some ["id"])
    = inr (sql, [VStr "b"; VInt 3; VInt 25; VBool true; VInt 1; VInt 2])
    /\ placeholders sql = 6%nat.
Proof.
  eexists. split; [reflexivity |].
  refine (proj2 (proj1 (update_and_delete_bind_in_text_order "users" "public"
                          [("name", VStr "b"); ("age", VInt 3)]
                          sample_conditions (Some ["id"]) eq_refl eq_refl
                          _ _ _) _
                   [VStr "b"; VInt 3; VInt 25; VBool true; VInt 1; VInt 2]
                   eq_refl));
    repeat constructor.
Defined.

(** ** The two CRUD classes side by side *)

Lemma as_string_SQL_join_comma (l : list Composable) :
  as_string (SQL_join ", " l) = join ", " (map as_string l).
Proof.
  unfold SQL_join, join. rewrite as_string_Composed.
  induction l as [| p l IH]; [reflexivity |].
  destruct l as [| q l].
  - cbn [intersperse render_all map String.concat]. apply append_nil_r.
  - change (intersperse (SQL ", ") (p :: q :: l))
      with (p :: SQL ", " :: intersperse (SQL ", ") (q :: l)).
    cbn [render_all]. rewrite IH. reflexivity.
Qed.

Lemma identifier_list_text (cols : list string) :
  forallb quote_free cols = true ->
  as_string (CrudOperations.identifier_list cols)
  = join ", " (map (fun col => dquote ++ col ++ dquote) cols).
Proof.
  intros H. unfold CrudOperations.identifier_list.
  rewrite as_string_SQL_join_comma, map_map. f_equal.
  induction cols as [| c cols IH]; [reflexivity |].
  cbn [forallb] in H. apply andb_true_iff in H. destruct H as [Hc Hrest].
  cbn [map]. now rewrite IH, as_string_Identifier_quote_free.
Qed.

Lemma set_clauses_text (data : Record_) :
  forallb quote_free (keys data) = true ->
  as_string
    (SQL_join ", "
       (map (fun kv => Composed [Identifier (fst kv); SQL " = %s"]) data))
  = join ", " (map (fun kv => dquote ++ fst kv ++ dquote ++ " = %s") data).
Proof.
  intros H. rewrite as_string_SQL_join_comma, map_map. f_equal.
  induction data as [| kv rest IH]; [reflexivity |].
  cbn [keys map forallb] in H. apply andb_true_iff in H.
  destruct H as [Hk Hrest].
  cbn [map]. rewrite (IH Hrest), as_string_Composed. cbn [render_all].
  rewrite as_string_Identifier_quote_free by exact Hk.
  cbn [as_string]. now rewrite !append_assoc, append_nil_r.
Qed.

(** The WHERE part of both classes, from the same conditions. *)
Lemma where_texts_match (conditions : list QueryCondition.t) sql0 params0 :
  forallb (fun c => quote_free (QueryCondition.column c)) conditions = true ->
  match CrudOperations._build_where_clause conditions,
        SimpleCrudOperations.add_where conditions sql0 params0 with
  | inr (w, p1), inr (sql, p2) =>
      sql = sql0 ++ match w with
                    | Some fragment => " WHERE " ++ as_string fragment
                    | None => EmptyString
                    end
      /\ p2 = (params0 ++ p1)%list
  | inl e1, inl e2 => e1 = e2
  | _, _ => False
  end.
Proof.
  intros Hq. destruct conditions as [| c rest].
  - cbn. now rewrite append_nil_r, app_nil_r.
  - rewrite build_where_clause_unfold, add_where_unfold.
    pose proof (loops_match (c :: rest) None [] [] [] Hq eq_refl) as Hm.
    destruct (where_rec CrudOperations.condition_clause _ _ _ _)
      as [e1 | [cls p1]];
      destruct (where_rec SimpleCrudOperations.condition_part _ _ _ _)
        as [e2 | [parts p2]];
      try contradiction; [exact Hm |].
    destruct Hm as [Hr <-]. split; [| reflexivity].
    now rewrite as_string_join_empty, Hr.
Qed.

(** The text the WHERE and RETURNING parts add to a statement. *)
Lemma crud_tail_text (head : Composable) (w : option Composable)
    (returning_columns : option (list string)) :
  exists parts,
    (sql_parts <- CrudOperations.add_where [head] w ;;
     CrudOperations.add_returning sql_parts returning_columns)%exc
    = inr parts
    /\ as_string (SQL_join EmptyString parts)
       = as_string head
         ++ match w with
            | Some fragment => " WHERE " ++ as_string fragment
            | None => EmptyString
            end
         ++ match returning_columns with
            | Some (c :: cs) =>
                " RETURNING "
                ++ as_string (CrudOperations.identifier_list (c :: cs))
            | _ => EmptyString
            end.
Proof.
  unfold CrudOperations.add_where, CrudOperations.add_returning.
  destruct w as [w |], returning_columns as [[| c cs] |];
    rewrite ?format_where; cbn [ebind eret app]; rewrite ?format_returning;
    cbn [ebind eret app];
    eexists; (split; [reflexivity |]);
    rewrite as_string_join_empty; cbn [render_all];
    rewrite ?as_string_Composed; cbn [render_all as_string];
    rewrite ?append_assoc, ?append_nil_r; reflexivity.
Qed.

Lemma delete_statements_match table_name conditions schema returning_columns :
  quote_free table_name = true -> quote_free schema = true ->
  forallb (fun c => quote_free (QueryCondition.column c)) conditions = true ->
  forallb quote_free
          (match returning_columns with Some l => l | None => [] end) = true ->
  match CrudOperations._build_delete_sql table_name conditions schema
                                         returning_columns,
        SimpleCrudOperations.delete_sql table_name conditions schema
                                        returning_columns with
  | inr (c, p1), inr (sql, p2) => as_string c = sql /\ p1 = p2
  | inl e1, inl e2 => e1 = e2
  | _, _ => False
  end.
Proof.
  intros Ht Hs Hc Hr.
  unfold CrudOperations._build_delete_sql, SimpleCrudOperations.delete_sql.
  match goal with
  | |- context [SimpleCrudOperations.add_where conditions ?sql0 ?ps0] =>
      pose proof (where_texts_match conditions sql0 ps0 Hc) as Hm;
      destruct (SimpleCrudOperations.add_where conditions sql0 ps0)
        as [e2 | [sql2 p2]]
  end;
    destruct (CrudOperations._build_where_clause conditions)
      as [e1 | [w p1]]; try contradiction; [exact Hm |].
  destruct Hm as [-> ->]. cbn [ebind app]. rewrite format_delete.
  cbn [ebind].
  match goal with
  | |- context [CrudOperations.add_where [?head] w] =>
      destruct (crud_tail_text head w returning_columns)
        as [parts [Hparts Htext]]
  end.
  unfold ebind in Hparts.
  destruct (CrudOperations.add_where _ w) as [e | parts1]; [discriminate |].
  cbn [ebind]. rewrite Hparts. cbn [ebind eret].
  split; [| reflexivity].
  rewrite Htext, as_string_Composed. cbn [render_all].
  rewrite !as_string_Identifier_quote_free by assumption.
  unfold SimpleCrudOperations.add_returning.
  destruct returning_columns as [[| r rs] |];
    rewrite ?identifier_list_text by exact Hr;
    cbn [as_string]; rewrite ?append_assoc, ?append_nil_r; reflexivity.
Qed.

Lemma update_statements_match table_name (data : Record_) conditions schema
    returning_columns :
  quote_free table_name = true -> quote_free schema = true ->
  forallb quote_free (keys data) = true ->
  forallb (fun c => quote_free (QueryCondition.column c)) conditions = true ->
  forallb quote_free
          (match returning_columns with Some l => l | None => [] end) = true ->
  match CrudOperations._build_update_sql table_name data conditions schema
                                         returning_columns,
        SimpleCrudOperations.update_sql table_name data conditions schema
                                        returning_columns with
  | inr (c, p1), inr (sql, p2) => as_string c = sql /\ p1 = p2
  | inl e1, inl e2 => e1 = e2
  | _, _ => False
  end.
Proof.
  intros Ht Hs Hd Hc Hr.
  unfold CrudOperations._build_update_sql, SimpleCrudOperations.update_sql.
  destruct data as [| kv rest]; [reflexivity |].
  rewrite crud_set_clauses. cbn [ebind app].
  match goal with
  | |- context [SimpleCrudOperations.add_where conditions ?sql0 ?ps0] =>
      pose proof (where_texts_match conditions sql0 ps0 Hc) as Hm;
      destruct (SimpleCrudOperations.add_where conditions sql0 ps0)
        as [e2 | [sql2 p2]]
  end;
    destruct (CrudOperations._build_where_clause conditions)
      as [e1 | [w p1]]; try contradiction; [exact Hm |].
  destruct Hm as [-> ->]. cbn [ebind]. rewrite format_update.
  cbn [ebind].
  match goal with
  | |- context [CrudOperations.add_where [?head] w] =>
      destruct (crud_tail_text head w returning_columns)
        as [parts [Hparts Htext]]
  end.
  unfold ebind in Hparts.
  destruct (CrudOperations.add_where _ w) as [e | parts1]; [discriminate |].
  cbn [ebind]. rewrite Hparts. cbn [ebind eret].
  split; [| reflexivity].
  rewrite Htext, as_string_Composed. cbn [render_all].
  rewrite !as_string_Identifier_quote_free by assumption.
  rewrite (set_clauses_text (kv :: rest) Hd).
  unfold SimpleCrudOperations.add_returning.
  destruct returning_columns as [[| r rs] |];
    rewrite ?identifier_list_text by exact Hr;
    cbn [as_string]; rewrite ?append_assoc, ?append_nil_r; reflexivity.
Qed.

(** X17. For names without a double quote the two CRUD classes hand the
    driver the same UPDATE and the same DELETE: the statement
    [_build_update_sql] or [_build_delete_sql] renders is the text
    [SimpleCrudOperations] writes, with the same parameters, and the two
    raise on the same inputs with the same message. *)
Theorem update_and_delete_statements_agree :
  forall (table_name schema : string) (data : Record_)
         (conditions : list QueryCondition.t)
         (returning_columns : option (list string)),
    quote_free table_name = true -> quote_free schema = true ->
    forallb quote_free (keys data) = true ->
    forallb (fun c => quote_free (QueryCondition.column c)) conditions = true ->
    forallb quote_free
            (match returning_columns with Some l => l | None => [] end)
    = true ->
    match CrudOperations._build_update_sql table_name data conditions schema
                                           returning_columns,
          SimpleCrudOperations.update_sql table_name data conditions schema
                                          returning_columns with
    | inr (c, p1), inr (sql, p2) => as_string c = sql /\ p1 = p2
    | inl e1, inl e2 => e1 = e2
    | _, _ => False
    end
    /\ match CrudOperations._build_delete_sql table_name conditions schema
                                              returning_columns,
             SimpleCrudOperations.delete_sql table_name conditions schema
                                             returning_columns with
       | inr (c, p1), inr (sql, p2) => as_string c = sql /\ p1 = p2
       | inl e1, inl e2 => e1 = e2
       | _, _ => False
       end.
Proof.
  intros table_name schema data conditions returning_columns Ht Hs Hd Hc Hr.
  split.
  - exact (update_statements_match _ _ _ _ _ Ht Hs Hd Hc Hr).
  - exact (delete_statements_match _ _ _ _ Ht Hs Hc Hr).
Qed.

Lemma update_and_delete_statements_agree_witness :
  match CrudOperations._build_delete_sql "users" sample_conditions "public"
                                         (Some ["id"]),
        SimpleCrudOperations.delete_sql "users" sample_conditions "public"
                                        (Some ["id"]) with
  | inr (c, p1), inr (sql, p2) => as_string c = sql /\ p1 = p2
  | inl e1, inl e2 => e1 = e2
  | _, _ => False
  end.
Proof.
  exact (proj2 (update_and_delete_statements_agree "users" "public"
                  [("name", VStr "b")] sample_conditions (Some ["id"])
                  eq_refl eq_refl eq_refl eq_refl eq_refl)).
Defined.

(** ** SELECT statements *)

Lemma format_select (a b c : Composable) :
  SQL_format "SELECT {} FROM {}.{}" [a; b; c]
  = inr (Composed [SQL "SELECT "; a; SQL " FROM "; b; SQL "."; c]).
Proof. reflexivity. Qed.

Lemma format_group_by (a : Composable) :
  SQL_format " GROUP BY {}" [a] = inr (Composed [SQL " GROUP BY "; a]).
Proof. reflexivity. Qed.

Lemma format_having (a : Composable) :
  SQL_format " HAVING {}" [a] = inr (Composed [SQL " HAVING "; a]).
Proof. reflexivity. Qed.

Lemma format_order_by (a : Composable) :
  SQL_format " ORDER BY {}" [a] = inr (Composed [SQL " ORDER BY "; a]).
Proof. reflexivity. Qed.

Lemma inr_eq (E A : Type) (a a' : A) : @inr E A a = inr a' -> a = a'.
Proof. intros H. now injection H. Qed.

Lemma dict_find_percent_free (order : Dict string) (k v : string) :
  Forall (fun kv => placeholders (snd kv) = 0%nat) order ->
  dict_find order k = Some v -> placeholders v = 0%nat.
Proof.
  induction order as [| [k' v'] rest IH]; [discriminate |].
  intros H. inversion H as [| x l Hx Hl]; subst. cbn [dict_find].
  destruct (String.eqb k k'); [intros [= <-]; exact Hx | exact (IH Hl)].
Qed.

Lemma order_clause_placeholders (order : Dict string) (c : Composable) :
  Forall (fun kv => placeholders (snd kv) = 0%nat) order ->
  CrudOperations.order_clause order = inr c ->
  placeholders (as_string c) = 0%nat.
Proof.
  intros Hfree. unfold CrudOperations.order_clause.
  destruct (dict_find order "column") as [col |] eqn:Hcol; [| discriminate].
  rewrite format_null_check. intros [= <-].
  rewrite as_string_Composed. cbn [render_all].
  rewrite !placeholders_app, placeholders_Identifier.
  rewrite (dict_find_percent_free _ _ _ Hfree Hcol). cbn [as_string].
  rewrite placeholders_upper.
  destruct (dict_find order "direction") as [d |] eqn:Hdir;
    [rewrite (dict_find_percent_free _ _ _ Hfree Hdir) |]; reflexivity.
Qed.

Lemma order_part_placeholders (order : Dict string) (p : string) :
  Forall (fun kv => placeholders (snd kv) = 0%nat) order ->
  SimpleCrudOperations.order_part order = inr p ->
  placeholders p = 0%nat.
Proof.
  intros Hfree. unfold SimpleCrudOperations.order_part.
  destruct (dict_find order "column") as [col |] eqn:Hcol; [| discriminate].
  unfold eret. intros H. apply inr_eq in H. subst p.
  rewrite !placeholders_app, placeholders_upper.
  rewrite (dict_find_percent_free _ _ _ Hfree Hcol).
  change (placeholders dquote) with 0%nat.
  destruct (dict_find order "direction") as [d |] eqn:Hdir;
    [rewrite (dict_find_percent_free _ _ _ Hfree Hdir) |]; reflexivity.
Qed.

Section CollectInv.

Context {A B : Type} (f : A -> Exc B) (P : A -> Prop) (Q : B -> Prop).

Hypothesis f_keeps : forall x d, P x -> f x = inr d -> Q d.

Lemma efold_collect_keeps (l : list A) :
  Forall P l ->
  forall acc ds,
    Forall Q acc ->
    efold (fun acc x => (d <- f x ;; eret (acc ++ [d])%list)%exc) l acc
    = inr ds ->
    Forall Q ds.
Proof.
  induction l as [| x l IH]; intros Hl acc ds Hacc H.
  - cbn in H. now injection H as <-.
  - inversion Hl as [| y l' Hx Hl']; subst. cbn [efold] in H.
    destruct (f x) as [e | d] eqn:Hd; [discriminate |].
    cbn [ebind eret] in H. apply (IH Hl' _ _) in H; [exact H |].
    apply Forall_app. split; [exact Hacc |].
    constructor; [exact (f_keeps x d Hx Hd) | constructor].
Qed.

End CollectInv.

Lemma percent_free_texts (l : list string) :
  Forall (fun p => placeholders p = 0%nat) l ->
  placeholders (join ", " l) = 0%nat.
Proof.
  intros H. rewrite placeholders_join_comma.
  induction H as [| p l Hp Hl IH]; [reflexivity |].
  unfold list_sum in *. cbn [map fold_right]. now rewrite Hp, IH.
Qed.

Lemma percent_free_clauses (l : list Composable) :
  Forall (fun c => placeholders (as_string c) = 0%nat) l ->
  placeholders (as_string (SQL_join ", " l)) = 0%nat.
Proof.
  intros H. rewrite placeholders_SQL_join_comma.
  induction H as [| p l Hp Hl IH]; [reflexivity |].
  unfold list_sum in *. cbn [map fold_right]. now rewrite Hp, IH.
Qed.

Lemma select_options_parameters (o : QueryOptions.t) parts ps parts' ps' :
  options_percent_free (Some o) ->
  CrudOperations.select_options o (parts, ps) = inr (parts', ps') ->
  ps' = (ps ++ option_parameters (Some o))%list
  /\ (placeholders (render_all parts') + length ps
      = placeholders (render_all parts) + length ps')%nat.
Proof.
  intros [Hg [Hh Ho]] H. unfold CrudOperations.select_options in H.
  (* GROUP BY *)
  match type of H with
  | ebind ?stage _ = _ =>
      assert (Hstage : exists p1,
                 stage = inr p1
                 /\ placeholders (render_all p1)
                    = placeholders (render_all parts))
  end.
  { destruct (truthy_list (QueryOptions.group_by o));
      [rewrite format_group_by; cbn [ebind eret] |];
      eexists; (split; [reflexivity |]); [| reflexivity].
    rewrite render_all_app, placeholders_app. cbn [render_all].
    rewrite as_string_Composed. cbn [render_all].
    rewrite !placeholders_app, identifier_list_placeholders by exact Hg.
    cbn [as_string]. change (placeholders " GROUP BY ") with 0%nat.
    change (placeholders EmptyString) with 0%nat. lia. }
  destruct Hstage as [p1 [Hs1 Hp1]]. rewrite Hs1 in H. clear Hs1.
  cbn [ebind] in H.
  (* HAVING *)
  match type of H with
  | ebind ?stage _ = _ =>
      assert (Hstage : forall p2 ps2,
                 stage = inr (p2, ps2) ->
                 ps2 = (ps ++ flat_map condition_parameters
                                       (QueryOptions.having o))%list
                 /\ (placeholders (render_all p2) + length ps
                     = placeholders (render_all p1) + length ps2)%nat);
        [| destruct stage as [e | [p2 ps2]]; [discriminate |];
           destruct (Hstage p2 ps2 eq_refl) as [Hps2 Hp2]; clear Hstage ]
  end.
  { intros p2 ps2. destruct (QueryOptions.having o) as [| c rest] eqn:Hhav.
    - cbn [truthy_list flat_map]. unfold eret. intros E.
      apply inr_pair_eq in E. destruct E as [<- <-].
      rewrite app_nil_r. auto.
    - cbn [truthy_list].
      destruct (CrudOperations._build_where_clause (c :: rest))
        as [e | [w wps]] eqn:Hw; [discriminate |].
      pose proof (crud_where_parameters _ _ _ Hw) as Hwps.
      pose proof (crud_where_placeholders _ _ _ Hh Hw) as Hwph.
      cbn [ebind]. destruct w as [w |].
      + rewrite format_having. cbn [ebind]. unfold eret. intros E.
        apply inr_pair_eq in E. destruct E as [<- <-].
        split; [now rewrite Hwps |].
        rewrite render_all_app, placeholders_app, length_app. cbn [render_all].
        rewrite as_string_Composed. cbn [render_all].
        rewrite !placeholders_app, Hwph. cbn [as_string].
        change (placeholders " HAVING ") with 0%nat.
        change (placeholders EmptyString) with 0%nat. lia.
      + unfold eret. intros E. apply inr_pair_eq in E. destruct E as [<- <-].
        cbn in Hwph. destruct wps; [| discriminate].
        rewrite <- Hwps, app_nil_r. auto. }
  cbn [ebind] in H.
  (* ORDER BY *)
  match type of H with
  | ebind ?stage _ = _ =>
      assert (Hstage : forall p3,
                 stage = inr p3 ->
                 placeholders (render_all p3)
                 = placeholders (render_all p2));
        [| destruct stage as [e | p3]; [discriminate |];
           pose proof (Hstage p3 eq_refl) as Hp3; clear Hstage ]
  end.
  { intros p3. destruct (truthy_list (QueryOptions.order_by o));
      [| unfold eret; intros E; apply inr_eq in E; now subst p3].
    destruct (efold _ (QueryOptions.order_by o) [])
      as [e | clauses] eqn:Hloop; [discriminate |].
    cbn [ebind]. rewrite format_order_by. cbn [ebind]. unfold eret.
    intros E. apply inr_eq in E. subst p3.
    rewrite render_all_app, placeholders_app. cbn [render_all].
    rewrite as_string_Composed. cbn [render_all].
    rewrite !placeholders_app.
    rewrite percent_free_clauses;
      [cbn [as_string]; change (placeholders " ORDER BY ") with 0%nat;
       change (placeholders EmptyString) with 0%nat; lia |].
    exact (efold_collect_keeps CrudOperations.order_clause _ _
             order_clause_placeholders _ Ho [] _ (Forall_nil _) Hloop). }
  cbn [ebind] in H.
  (* LIMIT and OFFSET *)
  unfold option_parameters.
  destruct (truthy_opt_int (QueryOptions.limit o));
    destruct (truthy_opt_int (QueryOptions.offset o));
    unfold eret in H; apply inr_pair_eq in H; destruct H as [<- <-];
    rewrite ?render_all_app, ?placeholders_app, ?length_app;
    cbn [render_all as_string length];
    rewrite ?placeholders_app;
    change (placeholders " LIMIT %s") with 1%nat;
    change (placeholders " OFFSET %s") with 1%nat;
    change (placeholders EmptyString) with 0%nat;
    (split; [rewrite Hps2, <- ?app_assoc, ?app_nil_r; reflexivity | lia]).
Qed.

Lemma crud_select_sql_parameters table_name columns conditions options schema
    sql params :
  placeholders table_name = 0%nat -> placeholders schema = 0%nat ->
  Forall (fun c => placeholders c = 0%nat)
         (match columns with Some l => l | None => [] end) ->
  Forall percent_free (match conditions with Some l => l | None => [] end) ->
  options_percent_free options ->
  CrudOperations._build_select_sql table_name columns conditions options
                                   schema
  = inr (sql, params) ->
  params
  = (flat_map condition_parameters
              (match conditions with Some l => l | None => [] end)
     ++ option_parameters options)%list
  /\ placeholders (as_string sql) = length params.
Proof.
  intros Ht Hs Hcols Hc Ho H. unfold CrudOperations._build_select_sql in H.
  rewrite format_select in H. cbn [ebind] in H.
  match type of H with
  | context [[?h]] =>
      assert (Hhead : placeholders (as_string h) = 0%nat);
        [| set (head := h) in *]
  end.
  { rewrite as_string_Composed. cbn [render_all].
    rewrite !placeholders_app, !placeholders_Identifier, Ht, Hs.
    destruct columns as [[| c cs] |];
      rewrite ?identifier_list_placeholders by exact Hcols; reflexivity. }
  (* WHERE *)
  match type of H with
  | ebind ?stage _ = _ =>
      assert (Hstage : forall p1 ps1,
                 stage = inr (p1, ps1) ->
                 ps1 = flat_map condition_parameters
                                (match conditions with
                                 | Some l => l | None => [] end)
                 /\ placeholders (render_all p1) = length ps1);
        [| destruct stage as [e | [p1 ps1]]; [discriminate |];
           destruct (Hstage p1 ps1 eq_refl) as [Hps1 Hp1]; clear Hstage ]
  end.
  { intros p1 ps1. destruct conditions as [[| c cs] |];
      try (unfold eret; intros E; apply inr_pair_eq in E;
           destruct E as [<- <-]; cbn [render_all flat_map length];
           rewrite placeholders_app, Hhead; auto).
    destruct (CrudOperations._build_where_clause (c :: cs))
      as [e | [w wps]] eqn:Hw; [discriminate |].
    pose proof (crud_where_parameters _ _ _ Hw) as Hwps.
    pose proof (crud_where_placeholders _ _ _ Hc Hw) as Hwph.
    cbn [ebind]. destruct w as [w |].
    - rewrite format_where. cbn [ebind]. unfold eret. intros E.
      apply inr_pair_eq in E. destruct E as [<- <-].
      split; [exact Hwps |].
      cbn [render_all]. rewrite as_string_Composed. cbn [render_all].
      rewrite !placeholders_app, Hhead, Hwph. cbn [as_string].
      change (placeholders " WHERE ") with 0%nat.
      change (placeholders EmptyString) with 0%nat. lia.
    - unfold eret. intros E. apply inr_pair_eq in E. destruct E as [<- <-].
      cbn in Hwph. destruct wps; [| discriminate].
      split; [exact Hwps |].
      cbn [render_all length]. rewrite placeholders_app, Hhead. reflexivity. }
  cbn [ebind] in H.
  (* options *)
  destruct options as [o |].
  - destruct (CrudOperations.select_options o (p1, ps1))
      as [e | [p2 ps2]] eqn:Hopt; [discriminate |].
    destruct (select_options_parameters _ _ _ _ _ Ho Hopt) as [Hps2 Hp2].
    cbn [ebind] in H. unfold eret in H. apply inr_pair_eq in H.
    destruct H as [<- <-]. split; [now rewrite Hps2, Hps1 |].
    rewrite as_string_join_empty. lia.
  - cbn [ebind] in H. unfold eret in H. apply inr_pair_eq in H.
    destruct H as [<- <-]. cbn [option_parameters]. rewrite app_nil_r.
    split; [exact Hps1 |]. now rewrite as_string_join_empty.
Qed.

Lemma string_of_uint_placeholders (d : Decimal.uint) :
  placeholders (NilZero.string_of_uint d) = 0%nat.
Proof.
  assert (H : forall u, placeholders (NilEmpty.string_of_uint u) = 0%nat).
  { unfold placeholders.
    induction u; cbn [NilEmpty.string_of_uint count_char];
      rewrite ?IHu; reflexivity. }
  destruct d; [reflexivity | apply H ..].
Qed.

Lemma str_int_placeholders (z : Z) : placeholders (str_int z) = 0%nat.
Proof.
  unfold str_int, NilZero.string_of_int.
  destruct (Z.to_int z) as [d | d];
    [| change (placeholders (String "-" (NilZero.string_of_uint d)))
         with (placeholders (NilZero.string_of_uint d))];
    apply string_of_uint_placeholders.
Qed.

Lemma simple_add_options_placeholders options sql sql' :
  options_percent_free options ->
  SimpleCrudOperations.add_options options sql = inr sql' ->
  placeholders sql' = placeholders sql.
Proof.
  intros Ho H. destruct options as [o |];
    [| cbn in H; apply inr_eq in H; now subst sql'].
  destruct Ho as [_ [_ Ho]]. unfold SimpleCrudOperations.add_options in H.
  match type of H with
  | ebind ?stage _ = _ =>
      assert (Hstage : forall s1,
                 stage = inr s1 -> placeholders s1 = placeholders sql);
        [| destruct stage as [e | s1]; [discriminate |];
           pose proof (Hstage s1 eq_refl) as Hs1; clear Hstage ]
  end.
  { intros s1. destruct (truthy_list (QueryOptions.order_by o));
      [| unfold eret; intros E; apply inr_eq in E; now subst s1].
    destruct (efold _ (QueryOptions.order_by o) [])
      as [e | order_parts] eqn:Hloop; [discriminate |].
    cbn [ebind]. unfold eret. intros E. apply inr_eq in E. subst s1.
    rewrite !placeholders_app, percent_free_texts;
      [change (placeholders " ORDER BY ") with 0%nat; lia |].
    exact (efold_collect_keeps SimpleCrudOperations.order_part _ _
             order_part_placeholders _ Ho [] _ (Forall_nil _) Hloop). }
  cbn [ebind] in H. unfold eret in H. apply inr_eq in H. subst sql'.
  destruct (QueryOptions.limit o) as [n |], (QueryOptions.offset o) as [m |];
    repeat match goal with
           | |- context [if ?b then _ else _] => destruct b
           end;
    rewrite ?placeholders_app, ?str_int_placeholders;
    change (placeholders " LIMIT ") with 0%nat;
    change (placeholders " OFFSET ") with 0%nat; lia.
Qed.

Lemma simple_query_sql_parameters table_name columns conditions options schema
    sql params :
  placeholders table_name = 0%nat -> placeholders schema = 0%nat ->
  Forall (fun c => placeholders c = 0%nat)
         (match columns with Some l => l | None => [] end) ->
  Forall percent_free (match conditions with Some l => l | None => [] end) ->
  options_percent_free options ->
  SimpleCrudOperations.query_sql table_name columns conditions options schema
  = inr (sql, params) ->
  params = flat_map condition_parameters
                    (match conditions with Some l => l | None => [] end)
  /\ placeholders sql = length params.
Proof.
  intros Ht Hs Hcols Hc Ho H. unfold SimpleCrudOperations.query_sql in H.
  match type of H with
  | context [SimpleCrudOperations.add_where ?cs ?sql0 ?ps0] =>
      assert (Hhead : placeholders sql0 = 0%nat);
        [| destruct (SimpleCrudOperations.add_where cs sql0 ps0)
             as [e | [sql1 params1]] eqn:Hw; [discriminate |];
           pose proof (simple_add_where_parameters _ _ _ _ _ Hw) as Hps;
           pose proof (simple_add_where_placeholders _ _ _ _ _ Hc Hw) as Hph ]
  end.
  { rewrite !placeholders_app, Ht, Hs.
    change (placeholders dquote) with 0%nat.
    destruct columns as [[| c cs] |];
      rewrite ?placeholders_quoted_list by exact Hcols; reflexivity. }
  cbn [ebind] in H.
  destruct (SimpleCrudOperations.add_options options sql1)
    as [e | sql2] eqn:Hopt; [discriminate |].
  pose proof (simple_add_options_placeholders _ _ _ Ho Hopt) as Hp2.
  cbn [ebind] in H. unfold eret in H. apply inr_pair_eq in H.
  destruct H as [<- <-]. split; [exact Hps |].
  rewrite Hhead in Hph. cbn [length] in Hph. lia.
Qed.

(** X18. A SELECT has as many placeholders as parameters when no name
    holds a percent sign.  [_build_select_sql] binds the parameters of the
    conditions, then those of the HAVING conditions, then the limit and
    the offset, each when it is not zero; the string builder binds the
    parameters of the conditions only, the limit and the offset being
    written into the text as digits. *)
Theorem select_placeholders_match_parameters :
  forall (table_name schema : string) (columns : option (list string))
         (conditions : option (list QueryCondition.t))
         (options : option QueryOptions.t),
    placeholders table_name = 0%nat -> placeholders schema = 0%nat ->
    Forall (fun c => placeholders c = 0%nat)
           (match columns with Some l => l | None => [] end) ->
    Forall percent_free (match conditions with Some l => l | None => [] end) ->
    options_percent_free options ->
    (forall sql params,
        CrudOperations._build_select_sql table_name columns conditions options
                                         schema
        = inr (sql, params) ->
        params
        = (flat_map condition_parameters
                    (match conditions with Some l => l | None => [] end)
           ++ option_parameters options)%list
        /\ placeholders (as_string sql) = length params)
    /\ (forall sql params,
           SimpleCrudOperations.query_sql table_name columns conditions
                                          options schema
           = inr (sql, params) ->
           params
           = flat_map condition_parameters
                      (match conditions with Some l => l | None => [] end)
           /\ placeholders sql = length params).
Proof.
  intros table_name schema columns conditions options Ht Hs Hcols Hc Ho.
  split; intros sql params H.
  - exact (crud_select_sql_parameters _ _ _ _ _ _ _ Ht Hs Hcols Hc Ho H).
  - exact (simple_query_sql_parameters _ _ _ _ _ _ _ Ht Hs Hcols Hc Ho H).
Qed.

Lemma select_placeholders_match_parameters_witness :
  exists sql,
    CrudOperations._build_select_sql "users" (Some ["id"; "name"])
      (Some sample_conditions) (Some sample_page) "public"
    = inr (sql, [VInt 25; VBool true; VInt 1; VInt 2; VInt 5; VInt 2])
    /\ placeholders (as_string sql) = 6%nat.
Proof.
  eexists. split; [reflexivity |].
  refine (proj2 (proj1 (select_placeholders_match_parameters "users" "public"
                          (Some ["id"; "name"]) (Some sample_conditions)
                          (Some sample_page) eq_refl eq_refl _ _ _) _
                   [VInt 25; VBool true; VInt 1; VInt 2; VInt 5; VInt 2]
                   eq_refl));
    repeat constructor.
Defined.

(** ** Orderings without a column *)

Section CollectFails.

Context {A B : Type} (f : A -> Exc B).

Lemma efold_collect_fails (l : list A) (x : A) :
  In x l ->
  (exists e, f x = inl e) ->
  forall acc,
  exists e,
    efold (fun acc x => (d <- f x ;; eret (acc ++ [d])%list)%exc) l acc
    = inl e.
Proof.
  intros Hin [e He]. induction l as [| a l IH]; [contradiction |].
  intros acc. cbn [efold]. destruct (f a) as [e' | d] eqn:Ha.
  - exists e'. reflexivity.
  - cbn [ebind eret]. destruct Hin as [-> | Hin]; [congruence |].
    apply IH. exact Hin.
Qed.

End CollectFails.

Lemma truthy_list_of_member (A : Type) (x : A) (l : list A) :
  In x l -> truthy_list l = true.
Proof. destruct l; [contradiction | reflexivity]. Qed.

Lemma crud_select_without_order_column table_name columns conditions
    (o : QueryOptions.t) schema (order : Dict string) :
  In order (QueryOptions.order_by o) ->
  dict_find order "column" = None ->
  exists e,
    CrudOperations._build_select_sql table_name columns conditions (Some o)
                                     schema
    = inl e.
Proof.
  intros Hin Hcol.
  assert (Hraise : exists e, CrudOperations.order_clause order = inl e).
  { unfold CrudOperations.order_clause. rewrite Hcol. eexists; reflexivity. }
  unfold CrudOperations._build_select_sql.
  rewrite format_select. cbn [ebind].
  match goal with
  | |- exists e, ebind ?stage _ = inl e =>
      destruct stage as [e | [p1 ps1]]; [eexists; reflexivity |]
  end.
  cbn [ebind]. unfold CrudOperations.select_options.
  destruct (truthy_list (QueryOptions.group_by o));
    rewrite ?format_group_by; cbn [ebind eret];
    (match goal with
     | |- exists e, ebind (ebind ?stage _) _ = inl e =>
         destruct stage as [e | [p2 ps2]]; [eexists; reflexivity |]
     end);
    cbn [ebind];
    rewrite (truthy_list_of_member _ _ _ Hin);
    (match goal with
     | |- context [efold ?step (QueryOptions.order_by o) []] =>
         destruct (efold_collect_fails CrudOperations.order_clause _ _ Hin
                     Hraise []) as [e He]
     end);
    rewrite He; eexists; reflexivity.
Qed.

Lemma simple_select_without_order_column table_name columns conditions
    (o : QueryOptions.t) schema (order : Dict string) :
  In order (QueryOptions.order_by o) ->
  dict_find order "column" = None ->
  exists e,
    SimpleCrudOperations.query_sql table_name columns conditions (Some o)
                                   schema
    = inl e.
Proof.
  intros Hin Hcol.
  assert (Hraise : exists e, SimpleCrudOperations.order_part order = inl e).
  { unfold SimpleCrudOperations.order_part. rewrite Hcol.
    eexists; reflexivity. }
  unfold SimpleCrudOperations.query_sql.
  match goal with
  | |- exists e, ebind ?stage _ = inl e =>
      destruct stage as [e | [sql1 ps1]]; [eexists; reflexivity |]
  end.
  cbn [ebind]. unfold SimpleCrudOperations.add_options.
  rewrite (truthy_list_of_member _ _ _ Hin).
  destruct (efold_collect_fails SimpleCrudOperations.order_part _ _ Hin
              Hraise []) as [e He].
  rewrite He. eexists; reflexivity.
Qed.

(** X19. An ORDER BY entry without the key [column] makes [query_records]
    fail before anything reaches the driver, in both classes and whatever
    the other arguments are; the entry need not be the first. *)
Theorem ordering_without_column_is_rejected :
  forall (self : Runtime) (table_name schema : string)
         (columns : option (list string))
         (conditions : option (list QueryCondition.t))
         (options : QueryOptions.t) (order : Dict string) (log : Log),
    In order (QueryOptions.order_by options) ->
    dict_find order "column" = None ->
    query_rejected_before_driver
      (CrudOperations.query_records self table_name columns conditions
                                    (Some options) schema) log
    /\ query_rejected_before_driver
         (SimpleCrudOperations.query_records self table_name columns
                                             conditions (Some options) schema)
         log.
Proof.
  intros self table_name schema columns conditions options order log Hin Hcol.
  split.
  - destruct (crud_select_without_order_column table_name columns conditions
                options schema order Hin Hcol) as [e He].
    unfold query_rejected_before_driver, CrudOperations.query_records,
      CrudOperations.query_records_try.
    rewrite He. finish_rejected.
  - destruct (simple_select_without_order_column table_name columns conditions
                options schema order Hin Hcol) as [e He].
    unfold query_rejected_before_driver, SimpleCrudOperations.query_records,
      SimpleCrudOperations.query_records_try.
    rewrite He. finish_rejected.
Qed.

Lemma ordering_without_column_is_rejected_witness :
  query_rejected_before_driver
    (SimpleCrudOperations.query_records serial_runtime "users" None None
       (Some (QueryOptions.mk None None
                [[("column", "id")]; [("direction", "desc")]] [] []))
       "public") [].
Proof.
  refine (proj2 (ordering_without_column_is_rejected serial_runtime "users"
                   "public" None None
                   (QueryOptions.mk None None
                      [[("column", "id")]; [("direction", "desc")]] [] [])
                   [("direction", "desc")] [] _ eq_refl)).
  right. left. reflexivity.
Defined.

(** ** Vectors on the wire *)

Lemma map_enumerate_from (A B : Type) (g : A -> B) (l : list A) :
  forall k,
    map (fun iv : nat * A => let '(_, v) := iv in g v)
        (combine (seq k (length l)) l)
    = map g l.
Proof.
  induction l as [| x l IH]; intros k; [reflexivity |].
  cbn [length seq combine map]. now rewrite IH.
Qed.

Lemma data_rows_without_additional_data (vectors : list (list PyValue))
    (vector_column : string) :
  VectorOperations.data_rows vectors vector_column None
  = map (fun v => [(vector_column, VList v)]) vectors.
Proof.
  unfold VectorOperations.data_rows, enumerate.
  exact (map_enumerate_from _ _ (fun v => [(vector_column, VList v)])
           vectors 0).
Qed.

Lemma vector_row_params (self : Runtime) (vector_column : string)
    (v : list PyValue) :
  VectorOperations.row_params self vector_column [vector_column]
                              [(vector_column, VList v)]
  = inr [VStr (VectorOperations.vector_literal v)].
Proof.
  unfold VectorOperations.row_params, row_get. cbn [efold dict_find].
  rewrite String.eqb_refl. reflexivity.
Qed.

Lemma vector_insert_loop_all (self : Runtime) table_name schema vector_column
    returning_columns :
  (forall log c, driver_returns self log c = true) ->
  forall vectors returned n log,
  exists returned',
    mfold (VectorOperations.insert_step self
             (VectorOperations.insert_sql table_name [vector_column] schema
                                          returning_columns)
             vector_column [vector_column] returning_columns)
          (map (fun v => [(vector_column, VList v)]) vectors)
          (returned, n) log
    = (inr (returned', (n + Z.of_nat (length vectors))%Z),
       (log ++ map (vector_call table_name schema vector_column
                                returning_columns) vectors)%list).
Proof.
  intros Hdriver.
  induction vectors as [| v rest IH]; intros returned n log.
  - exists returned. cbn. now rewrite Z.add_0_r, app_nil_r.
  - cbn [map mfold]. unfold bind at 1.
    unfold VectorOperations.insert_step at 1.
    unfold bind, lift, ret, execute_query. rewrite vector_row_params.
    specialize (Hdriver log (vector_call table_name schema vector_column
                               returning_columns v)).
    unfold driver_returns, vector_call in Hdriver.
    destruct (sql_driver self log _) as [msg | rows]; [discriminate |].
    destruct (truthy_opt_list rows && truthy_opt_list returning_columns);
      cbv beta iota zeta;
      match goal with
      | |- context [mfold _ _ (?r1, _) _] =>
          destruct (IH r1 (n + 1)%Z
                      (log ++ [vector_call table_name schema vector_column
                                 returning_columns v])%list)
            as [returned' IH']
      end;
      exists returned'; unfold vector_call in *; rewrite IH';
      rewrite <- app_assoc; cbn [length app];
      replace (n + 1 + Z.of_nat (length rest))%Z
        with (n + Z.of_nat (S (length rest)))%Z by lia;
      reflexivity.
Qed.

(** X20. Without additional data and with a driver that executes every
    statement, [insert_vector_data] sends one INSERT per vector, in the
    order of the vectors, each with a single parameter: the text of the
    vector between square brackets, its elements separated by commas.
    The call succeeds and reports as many affected rows as vectors. *)
Theorem insert_vector_data_sends_vector_literals :
  forall (self : Runtime) (table_name : string)
         (vectors : list (list PyValue)) (schema vector_column : string)
         (returning_columns : option (list string)) (log : Log),
    (forall log c, driver_returns self log c = true) ->
    vectors <> [] ->
    exists r,
      VectorOperations.insert_vector_data self table_name vectors schema
        vector_column None returning_columns log
      = (inr r,
         (log ++ map (vector_call table_name schema vector_column
                                  returning_columns) vectors)%list)
      /\ OperationResult.success r = true
      /\ OperationResult.affected_rows r = Some (Z.of_nat (length vectors)).
Proof.
  intros self table_name vectors schema vector_column returning_columns log
    Hdriver Hne.
  unfold VectorOperations.insert_vector_data,
    VectorOperations.insert_vector_data_try.
  rewrite data_rows_without_additional_data.
  destruct vectors as [| v rest]; [contradiction |].
  cbn [map keys fst].
  destruct (vector_insert_loop_all self table_name schema vector_column
              returning_columns Hdriver (v :: rest) [] 0%Z log)
    as [returned' Hloop].
  cbn [map] in Hloop.
  unfold bind at 1, time_time at 1, try_except, bind at 1.
  rewrite Hloop.
  eexists. split; [reflexivity |]. split; reflexivity.
Qed.

Lemma insert_vector_data_sends_vector_literals_witness :
  exists r,
    VectorOperations.insert_vector_data serial_runtime "items"
      [[VInt 1; VInt 2]; [VInt 3; VInt 4]] "public" "embedding" None None []
    = (inr r,
       [mkCall (VectorOperations.insert_sql "items" ["embedding"] "public"
                                            None)
               (Some [VStr "[1,2]"]);
        mkCall (VectorOperations.insert_sql "items" ["embedding"] "public"
                                            None)
               (Some [VStr "[3,4]"])])
    /\ OperationResult.success r = true
    /\ OperationResult.affected_rows r = Some 2%Z.
Proof.
  refine (insert_vector_data_sends_vector_literals serial_runtime "items"
            [[VInt 1; VInt 2]; [VInt 3; VInt 4]] "public" "embedding" None []
            _ _);
    [intros; reflexivity | discriminate].
Defined.

(** ** Records on the wire *)

Lemma simple_row_params_plain (self : Runtime) (row : Record_) :
  forall columns acc,
    plain_under columns row = true ->
    efold (fun params col =>
             (value <- match row_get row col with
                       | VList _ | VDict _ =>
                           s <- json_dumps self (row_get row col);;
                           eret (VStr s)
                       | _ => eret (row_get row col)
                       end;;
              eret (params ++ [value])%list)%exc) columns acc
    = inr (acc ++ map (row_get row) columns)%list.
Proof.
  induction columns as [| col rest IH]; intros acc H.
  - cbn. now rewrite app_nil_r.
  - cbn [plain_under forallb] in H. apply andb_true_iff in H.
    destruct H as [Hcol Hrest]. cbn [efold map].
    destruct (row_get row col); try discriminate Hcol;
      cbn [ebind eret]; rewrite (IH _ Hrest), <- app_assoc; reflexivity.
Qed.

Lemma simple_insert_loop_all (self : Runtime) table_name schema columns
    returning_columns :
  (forall log c, driver_returns self log c = true) ->
  forall data returned n log,
    forallb (plain_under columns) data = true ->
    exists returned',
      mfold (SimpleCrudOperations.insert_step self
               (SimpleCrudOperations.insert_sql table_name columns schema
                                                returning_columns)
               columns returning_columns)
            data (returned, n) log
      = (inr (returned', (n + Z.of_nat (length data))%Z),
         (log ++ map (record_call table_name schema returning_columns columns)
                     data)%list).
Proof.
  intros Hdriver.
  induction data as [| row rest IH]; intros returned n log Hplain.
  - exists returned. cbn. now rewrite Z.add_0_r, app_nil_r.
  - cbn [forallb] in Hplain. apply andb_true_iff in Hplain.
    destruct Hplain as [Hrow Hrest].
    cbn [map mfold]. unfold bind at 1.
    unfold SimpleCrudOperations.insert_step at 1.
    unfold bind, lift, ret, execute_query, SimpleCrudOperations.row_params.
    rewrite (simple_row_params_plain self row columns [] Hrow).
    cbn [app].
    specialize (Hdriver log (record_call table_name schema returning_columns
                               columns row)).
    unfold driver_returns, record_call in Hdriver.
    destruct (sql_driver self log _) as [msg | rows]; [discriminate |].
    destruct (truthy_opt_list rows && truthy_opt_list returning_columns);
      cbv beta iota zeta;
      match goal with
      | |- context [mfold _ _ (?r1, _) _] =>
          destruct (IH r1 (n + 1)%Z
                      (log ++ [record_call table_name schema
                                 returning_columns columns row])%list Hrest)
            as [returned' IH']
      end;
      exists returned'; unfold record_call in *; rewrite IH';
      rewrite <- app_assoc; cbn [length app];
      replace (n + 1 + Z.of_nat (length rest))%Z
        with (n + Z.of_nat (S (length rest)))%Z by lia;
      reflexivity.
Qed.

(** X21. With a driver that executes every statement and records that
    hold no dictionary and no list under the keys of the first record,
    [SimpleCrudOperations.insert_records] sends one INSERT per record, in
    the order of the records; each carries the values the record has under
    the keys of the first record, in their order, with [None] for a key
    the record lacks, and keys the first record lacks are not sent.  The
    call succeeds and reports as many affected rows as records. *)
Theorem simple_insert_records_sends_first_record_columns :
  forall (self : Runtime) (table_name : string) (first : Record_)
         (rest : list Record_) (schema : string)
         (returning_columns : option (list string)) (log : Log),
    (forall log c, driver_returns self log c = true) ->
    forallb (plain_under (keys first)) (first :: rest) = true ->
    exists r,
      SimpleCrudOperations.insert_records self table_name (first :: rest)
        schema returning_columns log
      = (inr r,
         (log ++ map (record_call table_name schema returning_columns
                                  (keys first))
                     (first :: rest))%list)
      /\ OperationResult.success r = true
      /\ OperationResult.affected_rows r
         = Some (Z.of_nat (length (first :: rest))).
Proof.
  intros self table_name first rest schema returning_columns log Hdriver
    Hplain.
  unfold SimpleCrudOperations.insert_records,
    SimpleCrudOperations.insert_records_try.
  destruct (simple_insert_loop_all self table_name schema (keys first)
              returning_columns Hdriver (first :: rest) [] 0%Z log Hplain)
    as [returned' Hloop].
  unfold bind at 1, time_time at 1, try_except, bind at 1.
  rewrite Hloop.
  eexists. split; [reflexivity |]. split; reflexivity.
Qed.

Lemma simple_insert_records_sends_first_record_columns_witness :
  exists r,
    SimpleCrudOperations.insert_records serial_runtime "t"
      [[("name", VStr "a"); ("age", VInt 3)];
       [("age", VInt 4); ("email", VStr "e")]]
      "public" None []
    = (inr r,
       [mkCall (SimpleCrudOperations.insert_sql "t" ["name"; "age"] "public"
                                                None)
               (Some [VStr "a"; VInt 3]);
        mkCall (SimpleCrudOperations.insert_sql "t" ["name"; "age"] "public"
                                                None)
               (Some [VNone; VInt 4])])
    /\ OperationResult.success r = true
    /\ OperationResult.affected_rows r = Some 2%Z.
Proof.
  refine (simple_insert_records_sends_first_record_columns serial_runtime "t"
            [("name", VStr "a"); ("age", VInt 3)]
            [[("age", VInt 4); ("email", VStr "e")]] "public" None []
            _ _);
    [intros; reflexivity | reflexivity].
Defined.

(** ** Index statistics *)

(** X22. [get_vector_index_stats] always sends its one statement with
    nine parameters, as many as the statement has placeholders: schema and
    table four times over, then the LIKE pattern, which is the vector
    column between two percent signs. *)
Theorem index_stats_placeholders_match_parameters :
  forall (self : Runtime) (table_name schema vector_column : string)
         (log : Log),
  exists r params,
    VectorOperations.get_vector_index_stats self table_name schema
      vector_column log
    = (inr r,
       (log ++ [mkCall VectorOperations.index_stats_sql (Some params)])%list)
    /\ placeholders VectorOperations.index_stats_sql = length params
    /\ params
       = (concat (repeat [VStr schema; VStr table_name] 4)
          ++ [VStr ("%" ++ vector_column ++ "%")])%list.
Proof.
  intros self table_name schema vector_column log.
  unfold VectorOperations.get_vector_index_stats,
    VectorOperations.get_vector_index_stats_try.
  unfold bind, lift, time_time, try_except, elapsed_ms, ret, execute_query.
  cbv beta iota zeta.
  match goal with
  | |- context [sql_driver self log ?c] => destruct (sql_driver self log c)
  end;
    eexists; eexists; (split; [reflexivity |]);
    (split; [vm_compute; reflexivity | reflexivity]).
Qed.
